(** * Iterative inference: the Normal distribution and the Model losses

    A shallow embedding of [lib/distributions/normal.py] and
    [lib/models/model.py].  Tensors are n-dimensional arrays of scalars;
    the scalar arithmetic of the tensor library is kept abstract (a type
    class), so that every statement holds for whatever arithmetic the
    tensors are computed in, and is instantiated with IEEE binary32 and
    with the real numbers further down.  Tensor objects live in a store,
    so that in-place operations, views and the cached sample keep the
    identity they have in the program. *)

From Stdlib Require Import String ZArith QArith Reals Lra SpecFloat.
From Stdlib Require Import Bool Arith Lia List.
Import ListNotations.
Close Scope R_scope.
Close Scope Q_scope.
Close Scope Z_scope.
Open Scope nat_scope.

Set Implicit Arguments.

(** ** Exceptions and results *)

(** The Python exceptions the modelled code can raise. *)
Inductive exn : Type :=
| AttributeError            (* method or attribute looked up on [None] *)
| AssertionError (msg : string)
| IndexError                (* [shape[i]] or a dimension out of range *)
| RuntimeError.             (* shape mismatch inside the tensor library *)

Inductive result (A : Type) : Type :=
| Ok (a : A)
| Raise (e : exn).
Arguments Ok {A} a.
Arguments Raise {A} e.

Definition rbind {A B} (r : result A) (k : A -> result B) : result B :=
  match r with
  | Ok a => k a
  | Raise e => Raise e
  end.

Definition is_ok {A} (r : result A) : bool :=
  match r with Ok _ => true | Raise _ => false end.

(** ** Scalars *)

(** Arithmetic of the tensor element type.  [flit] converts a Python
    numeric literal (an [int] or a decimal [float]) to the element type. *)
Class Arith (F : Type) : Type := {
  fadd : F -> F -> F;
  fsub : F -> F -> F;
  fmul : F -> F -> F;
  fdiv : F -> F -> F;
  flit : Q -> F
}.

(** The elementary functions of the tensor library and of [math]:
    [exp], [log], [erf], [pow(2)], and the two constants the code computes
    with [math]: [math.log(2 * math.pi)] and [math.sqrt(2)]. *)
Class Special (F : Type) : Type := {
  fexp : F -> F;
  flog : F -> F;
  ferf : F -> F;
  fpow2 : F -> F;
  log_2pi : F;
  sqrt_2 : F
}.

Definition fnat {F} `{Arith F} (n : nat) : F := flit (inject_Z (Z.of_nat n)).

(** ** Index lists *)

Definition insert_at {A} (d : nat) (x : A) (l : list A) : list A :=
  firstn d l ++ x :: skipn d l.

Definition remove_at {A} (d : nat) (l : list A) : list A :=
  firstn d l ++ skipn (S d) l.

Definition map2 {A B C} (f : A -> B -> C) (l1 : list A) (l2 : list B) : list C :=
  map (fun p => f (fst p) (snd p)) (combine l1 l2).

(** [idx] addresses an entry of a tensor of shape [shp]. *)
Definition in_bounds (idx shp : list nat) : Prop := Forall2 lt idx shp.

(** Broadcasting of two dimensions, and of two shapes aligned on their
    last dimension. *)
Definition bdim (a b : nat) : option nat :=
  if a =? b then Some a
  else if a =? 1 then Some b
  else if b =? 1 then Some a
  else None.

Fixpoint bshape_rev (r1 r2 : list nat) : option (list nat) :=
  match r1, r2 with
  | [], r => Some r
  | r, [] => Some r
  | a :: r1', b :: r2' =>
      match bdim a b, bshape_rev r1' r2' with
      | Some d, Some r => Some (d :: r)
      | _, _ => None
      end
  end.

Definition broadcast_shape (s1 s2 : list nat) : option (list nat) :=
  option_map (@rev nat) (bshape_rev (rev s1) (rev s2)).

(** The index of the operand of shape [shp] that is read for the entry
    [idx] of a broadcast result. *)
Definition bindex (shp idx : list nat) : list nat :=
  map2 (fun d i => if d =? 1 then 0 else i) shp
       (skipn (length idx - length shp) idx).

Definition shape_eqb (s1 s2 : list nat) : bool :=
  if list_eq_dec Nat.eq_dec s1 s2 then true else false.

(** ** Tensors *)

Section Tensors.
Context {F : Type} `{Arith F}.

(** A tensor: its shape and its entries, addressed by multi-index. *)
Record tensor : Type := mkT {
  shape : list nat;
  entry : list nat -> F
}.

Definition rank (t : tensor) : nat := length (shape t).

(** [t1] and [t2] are the same array. *)
Definition tensor_eq (t1 t2 : tensor) : Prop :=
  shape t1 = shape t2 /\
  forall idx, in_bounds idx (shape t1) -> entry t1 idx = entry t2 idx.

(** [t.shape[i]] *)
Definition shape_at (i : nat) (t : tensor) : result nat :=
  match nth_error (shape t) i with
  | Some n => Ok n
  | None => Raise IndexError
  end.

(** Elementwise unary operation, also a tensor-with-number operation. *)
Definition t_map (f : F -> F) (t : tensor) : tensor :=
  mkT (shape t) (fun idx => f (entry t idx)).

(** [t.unsqueeze(d)] *)
Definition t_unsqueeze (d : nat) (t : tensor) : result tensor :=
  if d <=? rank t
  then Ok (mkT (insert_at d 1 (shape t)) (fun idx => entry t (remove_at d idx)))
  else Raise IndexError.

(** [t.squeeze(d)] on a dimension of size one; the inverse of
    [t_unsqueeze], used to write through an unsqueezed view. *)
Definition t_squeeze (d : nat) (t : tensor) : tensor :=
  mkT (remove_at d (shape t)) (fun idx => entry t (insert_at d 0 idx)).

(** [t.repeat(r0, r1, ...)]: needs at least as many repeats as dimensions;
    missing leading dimensions count as one. *)
Definition t_repeat (reps : list nat) (t : tensor) : result tensor :=
  if rank t <=? length reps
  then
    let pad := repeat 1 (length reps - rank t) ++ shape t in
    Ok (mkT (map2 Nat.mul reps pad)
            (fun idx =>
               entry t (map2 Nat.modulo (skipn (length reps - rank t) idx)
                             (shape t))))
  else Raise RuntimeError.

(** [t[:1]] *)
Definition t_slice1 (t : tensor) : result tensor :=
  match shape t with
  | [] => Raise IndexError
  | n :: rest => Ok (mkT (Nat.min 1 n :: rest) (entry t))
  end.

(** Elementwise binary operation with broadcasting, out of place. *)
Definition t_binop (op : F -> F -> F) (a b : tensor) : result tensor :=
  match broadcast_shape (shape a) (shape b) with
  | Some s =>
      Ok (mkT s (fun idx => op (entry a (bindex (shape a) idx))
                               (entry b (bindex (shape b) idx))))
  | None => Raise RuntimeError
  end.

(** Elementwise binary operation in place on [a] ([a.op_(b)]): [b] is
    broadcast to the shape of [a], which cannot change. *)
Definition t_binop_ (op : F -> F -> F) (a b : tensor) : result tensor :=
  match broadcast_shape (shape a) (shape b) with
  | Some s =>
      if shape_eqb s (shape a)
      then Ok (mkT (shape a)
                   (fun idx => op (entry a idx) (entry b (bindex (shape b) idx))))
      else Raise RuntimeError
  | None => Raise RuntimeError
  end.

(** Sum of a list of scalars, accumulated from zero, left to right. *)
Definition fsum (l : list F) : F := fold_left fadd l (flit 0).

(** The entries of [t] along dimension [d], at the position [idx] of
    the other dimensions. *)
Definition fibre (d : nat) (t : tensor) (idx : list nat) : list F :=
  map (fun k => entry t (insert_at d k idx)) (seq 0 (nth d (shape t) 0)).

(** [t.sum(d)], the dimension is removed. *)
Definition t_sum (d : nat) (t : tensor) : result tensor :=
  if d <? rank t
  then Ok (mkT (remove_at d (shape t)) (fun idx => fsum (fibre d t idx)))
  else Raise IndexError.

(** [t.mean(d)], the dimension is removed. *)
Definition t_mean (d : nat) (t : tensor) : result tensor :=
  if d <? rank t
  then Ok (mkT (remove_at d (shape t))
               (fun idx => fdiv (fsum (fibre d t idx))
                                (fnat (nth d (shape t) 0))))
  else Raise IndexError.

End Tensors.

Arguments tensor F : clear implicits.

(** ** The store of tensor objects *)

(** A tensor object is a storage cell seen through a chain of views:
    [unsqueeze] and basic slicing return views that share the storage of
    their base, every other operation allocates.  [Variable(t)] and
    [t.data] wrap the same storage and are the identity on handles. *)
Inductive view : Type :=
| VUnsqueeze (d : nat)
| VSlice1.

Record handle : Type := mkH {
  addr : nat;
  views : list view
}.

(** The attributes of a [Normal] object. *)
Record Normal : Type := mkNormal {
  mean_reset_value : handle;
  log_var_reset_value : handle;
  mean : option handle;
  log_var : option handle;
  _sample : option handle
}.

Section Store.
Context {F : Type} `{Arith F}.

(** The state of the program: the [Normal] object the methods run on,
    the storage cells, and the number of noise tensors drawn so far. *)
Record state : Type := mkState {
  self : Normal;
  cells : list (tensor F);
  draws : nat
}.

Definition M (A : Type) : Type := state -> result A * state.

Definition ret {A} (a : A) : M A := fun s => (Ok a, s).

Definition raise {A} (e : exn) : M A := fun s => (Raise e, s).

Definition bind {A B} (c : M A) (k : A -> M B) : M B :=
  fun s =>
    match c s with
    | (Ok a, s') => k a s'
    | (Raise e, s') => (Raise e, s')
    end.

Definition lift {A} (r : result A) : M A := fun s => (r, s).

Definition get_self : M Normal := fun s => (Ok (self s), s).

Definition set_self (n : Normal) : M unit :=
  fun s => (Ok tt, mkState n (cells s) (draws s)).

(** Views, read and written through. *)
Definition view_get (v : view) (t : tensor F) : tensor F :=
  match v with
  | VUnsqueeze d =>
      mkT (insert_at d 1 (shape t)) (fun idx => entry t (remove_at d idx))
  | VSlice1 =>
      match shape t with
      | [] => t
      | n :: rest => mkT (Nat.min 1 n :: rest) (entry t)
      end
  end.

Definition view_put (v : view) (base new : tensor F) : tensor F :=
  match v with
  | VUnsqueeze d => t_squeeze d new
  | VSlice1 =>
      mkT (shape base)
          (fun idx =>
             match idx with
             | 0 :: _ => entry new idx
             | _ => entry base idx
             end)
  end.

Fixpoint put_views (vs : list view) (base new : tensor F) : tensor F :=
  match vs with
  | [] => new
  | v :: vs' => view_put v base (put_views vs' (view_get v base) new)
  end.

Definition empty_tensor : tensor F := mkT [] (fun _ => flit 0).

Definition read (h : handle) (c : list (tensor F)) : tensor F :=
  fold_left (fun t v => view_get v t) (views h) (nth (addr h) c empty_tensor).

Fixpoint update {A} (n : nat) (x : A) (l : list A) : list A :=
  match l, n with
  | [], _ => []
  | _ :: l', 0 => x :: l'
  | y :: l', S n' => y :: update n' x l'
  end.

Definition write (h : handle) (t : tensor F) (c : list (tensor F)) :=
  update (addr h) (put_views (views h) (nth (addr h) c empty_tensor) t) c.

Definition load (h : handle) : M (tensor F) :=
  fun s => (Ok (read h (cells s)), s).

Definition alloc (t : tensor F) : M handle :=
  fun s => (Ok (mkH (length (cells s)) []),
            mkState (self s) (cells s ++ [t]) (draws s)).

Definition store_ (h : handle) (t : tensor F) : M unit :=
  fun s => (Ok tt, mkState (self s) (write h t (cells s)) (draws s)).

End Store.

Declare Scope monad_scope.
Delimit Scope monad_scope with monad.
Notation "x <- c ;; k" := (bind c (fun x => k))
  (at level 61, c at next level, right associativity) : monad_scope.
Notation "c ;;; k" := (bind c (fun _ => k))
  (at level 61, right associativity) : monad_scope.

Local Open Scope monad_scope.

(** ** Tensor operations on the store *)

(** A Python value handed to [log_prob]: [None], a pair of tensors (an
    interval) or a tensor. *)
Inductive pyvalue : Type :=
| PyNone
| PyTuple (lo hi : handle)
| PyTensor (h : handle).

Section Torch.
Context {F : Type} `{Arith F}.

(** The source of randomness: the entries of the [k]-th tensor that
    [normal_()] fills. *)
Variable randn : nat -> list nat -> F.

(** Method call or attribute access on a value that may be [None]. *)
Definition attr {A} (o : option A) : M (F := F) A :=
  match o with
  | Some a => ret a
  | None => raise AttributeError
  end.

Definition assert (b : bool) (msg : string) : M (F := F) unit :=
  if b then ret tt else raise (AssertionError msg).

(** [h.unsqueeze(d)]: a view. *)
Definition op_unsqueeze (d : nat) (h : handle) : M handle :=
  t <- load h ;;
  _ <- lift (t_unsqueeze d t) ;;
  ret (mkH (addr h) (views h ++ [VUnsqueeze d])).

(** [h[:1]]: a view. *)
Definition op_slice1 (h : handle) : M handle :=
  t <- load h ;;
  _ <- lift (t_slice1 t) ;;
  ret (mkH (addr h) (views h ++ [VSlice1])).

(** [h.repeat(r0, r1, ...)]: a new tensor. *)
Definition op_repeat (reps : list nat) (h : handle) : M handle :=
  t <- load h ;;
  r <- lift (t_repeat reps t) ;;
  alloc r.

(** Out-of-place elementwise operation with one tensor operand
    ([h.exp()], [h.add(c)], [c * h], [torch.erf(h)], ...). *)
Definition op_map (f : F -> F) (h : handle) : M handle :=
  t <- load h ;;
  alloc (t_map f t).

(** In-place elementwise operation with one tensor operand
    ([h.exp_()], [h.pow_(2)], [h.mul_(c)]); returns its receiver. *)
Definition op_map_ (f : F -> F) (h : handle) : M handle :=
  t <- load h ;;
  store_ h (t_map f t) ;;;
  ret h.

(** Out-of-place binary operation on two tensors ([a - b], [a.sub(b)]). *)
Definition op_bin (op : F -> F -> F) (a b : handle) : M handle :=
  ta <- load a ;;
  tb <- load b ;;
  r <- lift (t_binop op ta tb) ;;
  alloc r.

(** In-place binary operation ([a.add_(b)], [a.div_(b)]); returns its
    receiver. *)
Definition op_bin_ (op : F -> F -> F) (a b : handle) : M handle :=
  ta <- load a ;;
  tb <- load b ;;
  r <- lift (t_binop_ op ta tb) ;;
  store_ a r ;;;
  ret a.

(** [t.data.new(size).normal_()]: a new tensor filled with noise. *)
Definition op_new_normal (size : list nat) : M handle :=
  fun s =>
    (Ok (mkH (length (cells s)) []),
     mkState (self s) (cells s ++ [mkT size (randn (draws s))]) (S (draws s))).

End Torch.

(** ** lib/distributions/normal.py: class Normal *)

Section NormalClass.
Context {F : Type} `{Arith F} `{Special F}.
Variable randn : nat -> list nat -> F.

Definition is_none {A} (o : option A) : bool :=
  match o with Some _ => false | None => true end.

Definition set_sample (v : option handle) : M (F := F) unit :=
  slf <- get_self ;;
  set_self (mkNormal (mean_reset_value slf) (log_var_reset_value slf)
                     (mean slf) (log_var slf) v).

Definition set_mean (v : option handle) : M (F := F) unit :=
  slf <- get_self ;;
  set_self (mkNormal (mean_reset_value slf) (log_var_reset_value slf)
                     v (log_var slf) (_sample slf)).

Definition set_log_var (v : option handle) : M (F := F) unit :=
  slf <- get_self ;;
  set_self (mkNormal (mean_reset_value slf) (log_var_reset_value slf)
                     (mean slf) v (_sample slf)).

(** [self.log_var.mul(0.5).exp_()] *)
Definition std_of (lv : handle) : M handle :=
  half <- op_map (fun x => fmul x (flit (1 # 2))) lv ;;
  op_map_ fexp half.

(** [Normal.sample(n_samples, resample)] *)
Definition sample (n_samples : nat) (resample : bool) : M (option handle) :=
  slf <- get_self ;;
  (if is_none (_sample slf) || resample then
     lv <- attr (log_var slf) ;;
     std <- std_of lv ;;
     m <- attr (mean slf) ;;
     tm <- load m ;;
     ms <- (if rank tm =? 2 then
              mu <- op_unsqueeze 1 m ;;
              m' <- op_repeat [1; n_samples; 1] mu ;;
              su <- op_unsqueeze 1 std ;;
              std' <- op_repeat [1; n_samples; 1] su ;;
              ret (m', std')
            else ret (m, std)) ;;
     tm' <- load (fst ms) ;;
     rand_normal <- op_new_normal randn (shape tm') ;;
     r <- op_bin_ fmul rand_normal (snd ms) ;;
     r <- op_bin_ fadd r (fst ms) ;;
     set_sample (Some r)
   else ret tt) ;;;
  slf' <- get_self ;;
  ret (_sample slf').

(** [Normal.cdf(value)] *)
Definition cdf (value : handle) : M handle :=
  tv <- load value ;;
  n_samples <- lift (shape_at 1 tv) ;;
  slf <- get_self ;;
  lv <- attr (log_var slf) ;;
  std <- std_of lv ;;
  m <- attr (mean slf) ;;
  tm <- load m ;;
  ms <- (if rank tm =? 2 then
           mu <- op_unsqueeze 1 m ;;
           m' <- op_repeat [1; n_samples; 1] mu ;;
           su <- op_unsqueeze 1 std ;;
           std' <- op_repeat [1; n_samples; 1] su ;;
           ret (m', std')
         else ret (m, std)) ;;
  d <- op_bin fsub value (fst ms) ;;
  den <- op_map (fun x => fmul x sqrt_2) (snd ms) ;;
  den <- op_map (fun x => fadd x (flit (1 # 100000))) den ;;
  q <- op_bin fdiv d den ;;
  e <- op_map ferf q ;;
  e <- op_map (fun x => fadd x (flit 1)) e ;;
  op_map_ (fun x => fmul x (flit (1 # 2))) e.

(** [Normal.log_prob(value)] *)
Definition log_prob (value : pyvalue) : M handle :=
  match value with
  | PyTuple lo hi =>
      c_hi <- cdf hi ;;
      c_lo <- cdf lo ;;
      d <- op_bin fsub c_hi c_lo ;;
      d <- op_map (fun x => fadd x (flit (1 # 1000000))) d ;;
      op_map flog d
  | _ =>
      value <- match value with
               | PyTensor h => ret (Some h)
               | _ => sample 1 false
               end ;;
      slf <- get_self ;;
      assert (negb (is_none (mean slf)) && negb (is_none (log_var slf)))
             "Mean or log variance are None." ;;;
      v <- attr value ;;
      tv <- load v ;;
      n_samples <- lift (shape_at 1 tv) ;;
      m <- attr (mean slf) ;;
      lv <- attr (log_var slf) ;;
      tm <- load m ;;
      ms <- (if rank tm =? 2 then
               mu <- op_unsqueeze 1 m ;;
               m' <- op_repeat [1; n_samples; 1] mu ;;
               lu <- op_unsqueeze 1 lv ;;
               lv' <- op_repeat [1; n_samples; 1] lu ;;
               ret (m', lv')
             else if rank tm =? 4 then
               mu <- op_unsqueeze 1 m ;;
               m' <- op_repeat [1; n_samples; 1; 1; 1] mu ;;
               lu <- op_unsqueeze 1 lv ;;
               lv' <- op_repeat [1; n_samples; 1; 1; 1] lu ;;
               ret (m', lv')
             else ret (m, lv)) ;;
      a <- op_map (fun x => fadd x log_2pi) (snd ms) ;;
      d <- op_bin fsub v (fst ms) ;;
      d <- op_map_ fpow2 d ;;
      e <- op_map fexp (snd ms) ;;
      e <- op_map (fun x => fadd x (flit (1 # 100000))) e ;;
      d <- op_bin_ fdiv d e ;;
      a <- op_bin_ fadd a d ;;
      op_map_ (fun x => fmul x (flit (- 1 # 2))) a
  end.

(** [Normal.re_init_mean(value, batch_size, sample_dim)] *)
Definition re_init_mean (value : option handle) (batch_size : nat)
           (sample_dim : bool) : M unit :=
  slf <- get_self ;;
  m <- match value with
       | Some v => ret v
       | None => op_unsqueeze 0 (mean_reset_value slf)
       end ;;
  tm <- load m ;;
  b <- lift (shape_at 0 tm) ;;
  m <- (if negb (b =? batch_size) then
          row <- op_slice1 m ;;
          op_repeat [batch_size; 1] row
        else ret m) ;;
  m <- (if sample_dim then op_unsqueeze 1 m else ret m) ;;
  set_mean (Some m) ;;;
  set_sample None.

(** [Normal.re_init_log_var(value, batch_size, sample_dim)] *)
Definition re_init_log_var (value : option handle) (batch_size : nat)
           (sample_dim : bool) : M unit :=
  slf <- get_self ;;
  lv <- match value with
        | Some v => ret v
        | None => op_unsqueeze 0 (log_var_reset_value slf)
        end ;;
  tl <- load lv ;;
  b <- lift (shape_at 0 tl) ;;
  lv <- (if negb (b =? batch_size) then
           row <- op_slice1 lv ;;
           op_repeat [batch_size; 1] row
         else ret lv) ;;
  lv <- (if sample_dim then op_unsqueeze 1 lv else ret lv) ;;
  set_log_var (Some lv) ;;;
  set_sample None.

(** [Normal.re_init(mean_value, log_var_value, batch_size, sample_dim)] *)
Definition re_init (mean_value log_var_value : option handle)
           (batch_size : nat) (sample_dim : bool) : M unit :=
  re_init_mean mean_value batch_size sample_dim ;;;
  re_init_log_var log_var_value batch_size sample_dim.

End NormalClass.

Notation "x <~ c ;; k" := (rbind c (fun x => k))
  (at level 61, c at next level, right associativity) : monad_scope.

(** ** lib/models/model.py: class Model *)

Section ModelClass.
Context {F : Type} `{Arith F}.

(** A Python number or a tensor: the values of [sum(...)] and of
    [output_interval]. *)
Inductive pynum : Type :=
| Num (x : F)
| Tens (t : tensor F).

(** The argument of a distribution's [log_prob]: a tensor, or the pair
    [(lo, hi)] of an interval. *)
Inductive logprob_arg : Type :=
| AtValue (v : tensor F)
| OverInterval (lo hi : tensor F).

(** The objects a [Model] holds.  Their classes are not part of
    [model.py]; the model only calls [latent.kl_divergence(analytical)]
    on each level and [output_dist.log_prob(value)].  With the state of
    the model fixed, each call is a function of its argument. *)
Record LatentVariable : Type := {
  kl_divergence : bool -> result (tensor F)
}.

Record LatentLevel : Type := {
  latent : LatentVariable
}.

Record Distribution : Type := {
  dist_log_prob : logprob_arg -> result (tensor F)
}.

Record Model : Type := {
  latent_levels : list LatentLevel;
  output_dist : Distribution;
  output_interval : option pynum
}.

(** [a + b] for a number or tensor [a] and a tensor [b] (the reflected
    [b.__radd__(a)] adds the number to every entry of [b]). *)
Definition py_add (a : pynum) (b : tensor F) : result (tensor F) :=
  match a with
  | Num x => Ok (t_map (fun y => fadd y x) b)
  | Tens ta => t_binop fadd ta b
  end.

(** [sum(l)] of a list of tensors: starts from the integer [0]. *)
Definition py_sum (l : list (tensor F)) : result pynum :=
  fold_left (fun acc t => a <~ acc ;; r <~ py_add a t ;; Ok (Tens r))
            l (Ok (Num (flit 0))).

(** [w * k] for a Python float [w]. *)
Definition py_rmul (w : F) (k : pynum) : pynum :=
  match k with
  | Num x => Num (fmul w x)
  | Tens t => Tens (t_map (fun y => fmul y w) t)
  end.

(** [t - k] for a tensor [t]. *)
Definition py_sub (t : tensor F) (k : pynum) : result (tensor F) :=
  match k with
  | Num x => Ok (t_map (fun y => fsub y x) t)
  | Tens tk => t_binop fsub t tk
  end.

(** [t + k] for a tensor [t]. *)
Definition py_add_r (t : tensor F) (k : pynum) : result (tensor F) :=
  match k with
  | Num x => Ok (t_map (fun y => fadd y x) t)
  | Tens tk => t_binop fadd t tk
  end.

(** [for dim in range(2, len(level_kl.data.shape)):
       level_kl = level_kl.sum(dim)] *)
Definition sum_data_dims (level_kl : tensor F) : result (tensor F) :=
  fold_left (fun acc dim => t <~ acc ;; t_sum dim t)
            (seq 2 (rank level_kl - 2)) (Ok level_kl).

(** The body of the loop of [kl_divergences] for the level of index
    [level_ind] among [n_levels]. *)
Definition level_kl_of (n_levels level_ind : nat) (latent_level : LatentLevel)
  : result (tensor F) :=
  let analytical := level_ind =? n_levels - 1 in
  level_kl <~ kl_divergence (latent latent_level) analytical ;;
  level_kl <~ sum_data_dims level_kl ;;
  t_mean 1 level_kl.

Fixpoint kl_loop (n_levels level_ind : nat) (levels : list LatentLevel)
  : result (list (tensor F)) :=
  match levels with
  | [] => Ok []
  | latent_level :: rest =>
      level_kl <~ level_kl_of n_levels level_ind latent_level ;;
      kl <~ kl_loop n_levels (S level_ind) rest ;;
      Ok (level_kl :: kl)
  end.

Fixpoint mean_each (kl : list (tensor F)) : result (list (tensor F)) :=
  match kl with
  | [] => Ok []
  | level_kl :: rest =>
      m <~ t_mean 0 level_kl ;;
      ms <~ mean_each rest ;;
      Ok (m :: ms)
  end.

(** [Model.kl_divergences(averaged)] *)
Definition kl_divergences (m : Model) (averaged : bool)
  : result (list (tensor F)) :=
  kl <~ kl_loop (length (latent_levels m)) 0 (latent_levels m) ;;
  if averaged then mean_each kl else Ok kl.

(** [while len(log_prob.data.shape) > 2:
       log_prob = log_prob.sum(len(log_prob.data.shape) - 1)]
    Every turn removes one dimension, so [rank log_prob] turns are
    enough fuel. *)
Fixpoint sum_spatial (fuel : nat) (log_prob : tensor F) : result (tensor F) :=
  match fuel with
  | 0 => Ok log_prob
  | S fuel' =>
      if 2 <? rank log_prob then
        log_prob' <~ t_sum (rank log_prob - 1) log_prob ;;
        sum_spatial fuel' log_prob'
      else Ok log_prob
  end.

(** [Model.conditional_log_likelihoods(observation, averaged)] *)
Definition conditional_log_likelihoods (m : Model) (observation : tensor F)
           (averaged : bool) : result (tensor F) :=
  observation <~ (if (rank observation =? 2) || (rank observation =? 4)
                  then t_unsqueeze 1 observation
                  else Ok observation) ;;
  value <~ match output_interval m with
           | Some interval =>
               hi <~ py_add_r observation interval ;;
               Ok (OverInterval observation hi)
           | None => Ok (AtValue observation)
           end ;;
  log_prob <~ dist_log_prob (output_dist m) value ;;
  log_prob <~ sum_spatial (rank log_prob) log_prob ;;
  log_prob <~ t_mean 1 log_prob ;;
  if averaged then t_mean 0 log_prob else Ok log_prob.

(** [Model.elbo(observation, averaged, anneal_weight)] *)
Definition elbo (m : Model) (observation : tensor F) (averaged : bool)
           (anneal_weight : F) : result (tensor F) :=
  cond_log_like <~ conditional_log_likelihoods m observation false ;;
  kls <~ kl_divergences m false ;;
  kl <~ py_sum kls ;;
  elbo <~ py_sub cond_log_like (py_rmul anneal_weight kl) ;;
  if averaged then t_mean 0 elbo else Ok elbo.

End ModelClass.

(** ** Scalar arithmetics *)

(** IEEE 754 binary32, the default element type of the tensor library:
    24 bits of precision, round to nearest even. *)
Module Binary32.
Definition prec : Z := 24.
Definition emax : Z := 128.

(** The float nearest to the integer [m] times two to the [e]. *)
Definition of_Z (m e : Z) : spec_float := binary_normalize prec emax m e false.

(** The float nearest to a literal [n / d] whose numerator and
    denominator are themselves floats (below [2^24] in magnitude). *)
Definition of_Q (q : Q) : spec_float :=
  SFdiv prec emax (of_Z (Qnum q) 0) (of_Z (Zpos (Qden q)) 0).

#[global] Instance arith : Arith spec_float := {
  fadd := SFadd prec emax;
  fsub := SFsub prec emax;
  fmul := SFmul prec emax;
  fdiv := SFdiv prec emax;
  flit := of_Q
}.
End Binary32.

(** The real numbers: exact arithmetic. *)
Module Exact.
(** A stand-in for the error function, which the Standard Library does
    not define: an increasing odd function from the reals onto (-1, 1). *)
Definition erf_like (x : R) : R := (2 / PI * atan x)%R.

#[global] Instance arith : Arith R := {
  fadd := Rplus;
  fsub := Rminus;
  fmul := Rmult;
  fdiv := Rdiv;
  flit := Q2R
}.

#[global] Instance special : Special R := {
  fexp := exp;
  flog := ln;
  ferf := erf_like;
  fpow2 := fun x => (x * x)%R;
  log_2pi := ln (2 * PI);
  sqrt_2 := sqrt 2
}.
End Exact.

(** ** The claims of the specification, in its own words *)

Section Statements.
Context {F : Type} `{Arith F}.

(** Two runs agree: they raise the same exception or return the same
    array. *)
Definition result_eq (r1 r2 : result (tensor F)) : Prop :=
  match r1, r2 with
  | Ok t1, Ok t2 => tensor_eq t1 t2
  | Raise e1, Raise e2 => e1 = e2
  | _, _ => False
  end.

(** [conditional_log_likelihoods(obs, averaged)
     - anneal_weight * sum(kl_divergences(averaged))] *)
Definition elbo_from_parts (m : Model) (observation : tensor F)
           (averaged : bool) (anneal_weight : F) : result (tensor F) :=
  cond_log_like <~ conditional_log_likelihoods m observation averaged ;;
  kls <~ kl_divergences m averaged ;;
  kl <~ py_sum kls ;;
  py_sub cond_log_like (py_rmul anneal_weight kl).

(** The sum of the entries [f rest] over all the multi-indices [rest]
    of the dimensions [dims], the last dimension innermost. *)
Fixpoint nested_sum (dims : list nat) (f : list nat -> F) : F :=
  match dims with
  | [] => f []
  | n :: dims' =>
      fsum (map (fun k => nested_sum dims' (fun rest => f (k :: rest)))
                (seq 0 n))
  end.

(** A tensor [batch, sample, *feature_dims] summed over all its feature
    dimensions, then averaged over the sample dimension. *)
Definition reduced (t : tensor F) : tensor F :=
  mkT (firstn 1 (shape t))
      (fun idx =>
         fdiv (fsum (map (fun s =>
                            nested_sum (skipn 2 (shape t))
                                       (fun rest => entry t (idx ++ s :: rest)))
                         (seq 0 (nth 1 (shape t) 0))))
              (fnat (nth 1 (shape t) 0))).

End Statements.

(** * Facts *)

(** ** Results *)

Lemma rbind_Ok_r {A} (r : result A) : rbind r Ok = r.
Proof. destruct r; reflexivity. Qed.

Lemma rbind_assoc {A B C} (r : result A) (f : A -> result B) (g : B -> result C) :
  rbind (rbind r f) g = rbind r (fun a => rbind (f a) g).
Proof. destruct r; reflexivity. Qed.

(** ** The loop over the data dimensions in [kl_divergences] *)

Section SumDataDims.
Context {F : Type} `{Arith F}.

Lemma sum_dims_Raise (e : exn) (dims : list nat) :
  fold_left (fun acc dim => t <~ acc ;; t_sum dim t) dims (Raise e)
  = Raise (A := tensor F) e.
Proof. induction dims as [|d dims IH]; simpl; auto. Qed.

Lemma rank_t_sum (d : nat) (t t' : tensor F) :
  t_sum d t = Ok t' -> S (rank t') = rank t.
Proof.
  unfold t_sum, rank. destruct (d <? length (shape t)) eqn:E; [|discriminate].
  intros [= <-]. simpl. apply Nat.ltb_lt in E.
  unfold remove_at. rewrite length_app, length_firstn, length_skipn. lia.
Qed.

(** Summing the dimensions [d, d+1, ..., d+n-1] one after the other,
    where every sum removes a dimension, runs out of dimensions as soon
    as [d + 2n - 2] reaches the rank. *)
Lemma sum_dims_out_of_range (n : nat) :
  forall (d : nat) (t : tensor F),
    0 < n -> rank t <= d + 2 * n - 2 ->
    fold_left (fun acc dim => t <~ acc ;; t_sum dim t) (seq d n) (Ok t)
    = Raise IndexError.
Proof.
  induction n as [|n IH]; intros d t Hn Hr; [lia|].
  simpl. destruct (t_sum d t) as [t'|e] eqn:E.
  - pose proof (rank_t_sum _ _ E) as Hrk.
    assert (d < rank t) as Hd.
    { unfold t_sum in E. destruct (d <? rank t) eqn:E'; [|discriminate].
      now apply Nat.ltb_lt. }
    apply IH; lia.
  - unfold t_sum in E. destruct (d <? rank t); [discriminate|].
    injection E as <-. apply sum_dims_Raise.
Qed.

(** From four dimensions on, the loop of [kl_divergences] fails. *)
Lemma sum_data_dims_conv (t : tensor F) :
  4 <= rank t -> sum_data_dims t = Raise IndexError.
Proof.
  intros Hr. unfold sum_data_dims. apply sum_dims_out_of_range; lia.
Qed.

Lemma sum_data_dims_rank2 (t : tensor F) :
  rank t = 2 -> sum_data_dims t = Ok t.
Proof. intros Hr. unfold sum_data_dims. rewrite Hr. reflexivity. Qed.

Lemma sum_data_dims_rank3 (t : tensor F) :
  rank t = 3 -> sum_data_dims t = t_sum 2 t.
Proof. intros Hr. unfold sum_data_dims. rewrite Hr. reflexivity. Qed.

End SumDataDims.

(** ** [Model.kl_divergences] on a convolutional level *)

Section KlConv.
Context {F : Type} `{Arith F}.

(** A tensor with every entry equal to [x]. *)
Definition full (shp : list nat) (x : F) : tensor F := mkT shp (fun _ => x).

(** A level whose KL does not depend on the [analytical] flag. *)
Definition level_with_kl (t : tensor F) : LatentLevel :=
  {| latent := {| kl_divergence := fun _ => Ok t |} |}.

(** A one-level model whose KL tensor has two feature dimensions:
    shape [batch = 1, sample = 1, 1, 1]. *)
Definition conv_model (d : Distribution) : Model :=
  {| latent_levels := [level_with_kl (full [1; 1; 1; 1] (flit 0))];
     output_dist := d;
     output_interval := None |}.

Lemma kl_loop_conv (n i : nat) (lvl : LatentLevel) (rest : list LatentLevel)
      (t : tensor F) :
  kl_divergence (latent lvl) (i =? n - 1) = Ok t ->
  4 <= rank t ->
  kl_loop n i (lvl :: rest) = Raise IndexError.
Proof.
  intros Hk Hr. simpl. unfold level_kl_of. rewrite Hk. simpl.
  rewrite (sum_data_dims_conv t Hr). reflexivity.
Qed.

(** C2, the defect: [kl_divergences] is meant to sum every level's KL
    over all its feature dimensions, but its loop over
    [range(2, rank)] calls [sum(dim)] on a tensor that has already lost
    a dimension per turn; on a level whose KL has four dimensions,
    [1, 1, 1, 1], the second turn asks for dimension 3 of a tensor of
    three dimensions and the method raises [IndexError] instead of
    returning one value per level. *)
Theorem kl_divergences_rank4_raises (d : Distribution) (averaged : bool) :
  kl_divergences (conv_model d) averaged = Raise IndexError.
Proof.
  unfold kl_divergences. simpl latent_levels.
  rewrite kl_loop_conv with (t := full [1; 1; 1; 1] (flit 0));
    [reflexivity | reflexivity | unfold rank; simpl; lia].
Qed.

End KlConv.

(** ** Broadcasting of equal shapes *)

Lemma bdim_same (a : nat) : bdim a a = Some a.
Proof. unfold bdim. now rewrite Nat.eqb_refl. Qed.

Lemma bshape_rev_same (r : list nat) : bshape_rev r r = Some r.
Proof.
  induction r as [|a r IH]; simpl; [reflexivity|].
  now rewrite bdim_same, IH.
Qed.

Lemma broadcast_shape_same (s : list nat) : broadcast_shape s s = Some s.
Proof.
  unfold broadcast_shape. rewrite bshape_rev_same. simpl.
  now rewrite rev_involutive.
Qed.

Lemma in_bounds_length (idx shp : list nat) :
  in_bounds idx shp -> length idx = length shp.
Proof. intros Hb. induction Hb; simpl; congruence. Qed.

Lemma bindex_same (idx shp : list nat) :
  in_bounds idx shp -> bindex shp idx = idx.
Proof.
  intros Hb. unfold bindex. rewrite (in_bounds_length Hb), Nat.sub_diag.
  simpl. unfold map2. induction Hb as [|i d idx shp Hlt Hb IH]; simpl.
  - reflexivity.
  - rewrite IH. destruct (d =? 1) eqn:E; [|reflexivity].
    apply Nat.eqb_eq in E. f_equal. lia.
Qed.

Lemma shape_eqb_refl (s : list nat) : shape_eqb s s = true.
Proof. unfold shape_eqb. destruct (list_eq_dec Nat.eq_dec s s); congruence. Qed.

Lemma in_bounds_nil (idx : list nat) : in_bounds idx [] -> idx = [].
Proof. intros Hb. now inversion Hb. Qed.

(** ** The evidence lower bound and its parts *)

Section ElboParts.
Context {F : Type} `{Arith F}.

Lemma cll_averaged (m : Model) (obs : tensor F) :
  conditional_log_likelihoods m obs true
  = rbind (conditional_log_likelihoods m obs false) (t_mean 0).
Proof.
  unfold conditional_log_likelihoods.
  destruct (if _ : bool then _ else _) as [o|]; simpl; [|reflexivity].
  destruct (match output_interval m with Some _ => _ | None => _ end) as [v|];
    simpl; [|reflexivity].
  destruct (dist_log_prob (output_dist m) v) as [lp|]; simpl; [|reflexivity].
  destruct (sum_spatial (rank lp) lp) as [lp'|]; simpl; [|reflexivity].
  destruct (t_mean 1 lp'); reflexivity.
Qed.

Lemma kl_averaged (m : Model) :
  kl_divergences m true = rbind (kl_divergences m false) mean_each.
Proof.
  unfold kl_divergences.
  destruct (kl_loop _ 0 (latent_levels m)); reflexivity.
Qed.

(** Without averaging, [elbo] is the difference of its parts, whatever
    the arithmetic. *)
Lemma elbo_unaveraged (m : Model) (obs : tensor F) (w : F) :
  elbo m obs false w = elbo_from_parts m obs false w.
Proof.
  unfold elbo, elbo_from_parts.
  destruct (conditional_log_likelihoods m obs false); simpl; [|reflexivity].
  destruct (kl_divergences m false); simpl; [|reflexivity].
  destruct (py_sum _); simpl; [|reflexivity].
  apply rbind_Ok_r.
Qed.

(** With averaging, [elbo] is the batch mean of the unaveraged
    difference. *)
Lemma elbo_averaged (m : Model) (obs : tensor F) (w : F) :
  elbo m obs true w = rbind (elbo_from_parts m obs false w) (t_mean 0).
Proof.
  unfold elbo, elbo_from_parts.
  destruct (conditional_log_likelihoods m obs false); simpl; [|reflexivity].
  destruct (kl_divergences m false); simpl; [|reflexivity].
  destruct (py_sum _); simpl; reflexivity.
Qed.

End ElboParts.

Section PySum.
Context {F : Type} `{Arith F}.

(** The entry of [sum(kls)] at [idx]: zero is added to the entry of
    the first tensor, then the others follow from left to right. *)
Definition kl_total (kls : list (tensor F)) (idx : list nat) : F :=
  match kls with
  | [] => flit 0
  | k :: rest =>
      fold_left (fun acc k' => fadd acc (entry k' idx)) rest
                (fadd (entry k idx) (flit 0))
  end.

Lemma py_sum_acc (s : list nat) (rest : list (tensor F)) :
  forall T0 : tensor F,
    shape T0 = s ->
    Forall (fun k => shape k = s) rest ->
    exists T,
      fold_left (fun acc t => a <~ acc ;; r <~ py_add a t ;; Ok (Tens r))
                rest (Ok (Tens T0)) = Ok (Tens T)
      /\ shape T = s
      /\ forall idx, in_bounds idx s ->
           entry T idx
           = fold_left (fun acc k' => fadd acc (entry k' idx)) rest (entry T0 idx).
Proof.
  induction rest as [|k rest IH]; intros T0 HT0 Hall.
  - exists T0. simpl. auto.
  - inversion Hall as [|k' rest' Hk Hrest]; subst k' rest'.
    simpl. unfold t_binop. rewrite HT0, Hk, broadcast_shape_same. simpl.
    destruct (IH (mkT s (fun idx => fadd (entry T0 (bindex s idx))
                                         (entry k (bindex s idx)))))
      as (T & HT & HsT & HeT); [reflexivity | assumption | ].
    exists T. split; [exact HT|]. split; [assumption|].
    intros idx Hb. rewrite HeT by assumption. simpl.
    rewrite (bindex_same Hb). reflexivity.
Qed.

Lemma py_sum_same_shape (s : list nat) (k : tensor F) (rest : list (tensor F)) :
  shape k = s ->
  Forall (fun k' => shape k' = s) rest ->
  exists T,
    py_sum (k :: rest) = Ok (Tens T)
    /\ shape T = s
    /\ forall idx, in_bounds idx s -> entry T idx = kl_total (k :: rest) idx.
Proof.
  intros Hk Hrest. unfold py_sum. simpl.
  destruct (@py_sum_acc s rest (t_map (fun y => fadd y (flit 0)) k))
    as (T & HT & HsT & HeT); auto.
  exists T. auto.
Qed.

Lemma t_mean0_vec (k : tensor F) (B : nat) :
  shape k = [B] ->
  t_mean 0 k
  = Ok (mkT [] (fun idx => fdiv (fsum (map (fun b => entry k (insert_at 0 b idx))
                                           (seq 0 B)))
                                (fnat B))).
Proof.
  intros Hk. unfold t_mean, rank, fibre. rewrite Hk. reflexivity.
Qed.

Lemma mean_each_vec (B : nat) (kls : list (tensor F)) :
  Forall (fun k => shape k = [B]) kls ->
  exists ms,
    mean_each kls = Ok ms
    /\ Forall (fun k => shape k = []) ms
    /\ Forall2 (fun k mk =>
                  entry mk []
                  = fdiv (fsum (map (fun b => entry k [b]) (seq 0 B))) (fnat B))
               kls ms.
Proof.
  induction 1 as [|k kls Hk Hall (ms & Hms & Hshape & Hentry)].
  - exists []. simpl. auto.
  - simpl. rewrite (t_mean0_vec k Hk). simpl. rewrite Hms. simpl.
    eexists. split; [reflexivity|]. split; constructor; auto.
Qed.

End PySum.

(** ** Exact arithmetic: the identity of the evidence lower bound *)

Section ExactElbo.
Import Exact.
Local Open Scope R_scope.

Lemma Q2R_zero : Q2R 0 = 0.
Proof. unfold Q2R. simpl. lra. Qed.

Lemma Rfold_acc (l : list R) (a : R) :
  fold_left Rplus l a = a + fold_left Rplus l 0.
Proof.
  revert a. induction l as [|x l IH]; intros a; simpl.
  - lra.
  - rewrite (IH (a + x)), (IH (0 + x)). lra.
Qed.

Lemma fsum_R_nil : fsum (F := R) [] = 0.
Proof. unfold fsum. simpl. apply Q2R_zero. Qed.

Lemma fsum_R_cons (x : R) (l : list R) : fsum (x :: l) = x + fsum l.
Proof.
  unfold fsum. simpl. rewrite Q2R_zero, Rfold_acc. lra.
Qed.

Lemma fsum_map_plus {A} (f g : A -> R) (l : list A) :
  fsum (map (fun b => f b + g b) l) = fsum (map f l) + fsum (map g l).
Proof.
  induction l as [|b l IH]; simpl.
  - rewrite fsum_R_nil. lra.
  - rewrite !fsum_R_cons, IH. lra.
Qed.

Lemma fsum_map_minus_scal {A} (f g : A -> R) (w : R) (l : list A) :
  fsum (map (fun b => f b - g b * w) l) = fsum (map f l) - fsum (map g l) * w.
Proof.
  induction l as [|b l IH]; simpl.
  - rewrite fsum_R_nil. lra.
  - rewrite !fsum_R_cons, IH. lra.
Qed.

Lemma fsum_map_minus_const {A} (f : A -> R) (c : R) (l : list A) :
  fsum (map (fun b => f b - c) l) = fsum (map f l) - INR (length l) * c.
Proof.
  induction l as [|b l IH].
  - simpl. rewrite fsum_R_nil. lra.
  - cbn [map length]. rewrite !fsum_R_cons, IH, S_INR. lra.
Qed.

(** Summing over the batch commutes with summing over the levels. *)
Lemma fsum_levels_exchange (rest : list (tensor R)) (l : list nat) :
  forall g : nat -> R,
    fsum (map (fun b => fold_left (fun acc k' => acc + entry k' [b]) rest (g b)) l)
    = fold_left (fun acc k' => acc + fsum (map (fun b => entry k' [b]) l))
                rest (fsum (map g l)).
Proof.
  induction rest as [|k rest IH]; intros g; simpl.
  - reflexivity.
  - rewrite (IH (fun b => g b + entry k [b])), fsum_map_plus. reflexivity.
Qed.

Lemma fold_div (B : R) (rest : list R) :
  forall a : R,
    fold_left (fun acc s => acc + s / B) rest (a / B)
    = fold_left Rplus rest a / B.
Proof.
  induction rest as [|s rest IH]; intros a; simpl.
  - reflexivity.
  - replace (a / B + s / B) with ((a + s) / B) by (unfold Rdiv; ring).
    apply IH.
Qed.

Lemma fold_means (B : nat) (rest ms : list (tensor R)) :
  Forall2 (fun k mk =>
             entry mk []
             = fdiv (fsum (map (fun b => entry k [b]) (seq 0 B))) (fnat B))
          rest ms ->
  forall a : R,
    fold_left (fun acc m' => fadd acc (entry m' [])) ms (a / fnat B)
    = fold_left (fun acc k' => acc + fsum (map (fun b => entry k' [b]) (seq 0 B)))
                rest a / fnat B.
Proof.
  generalize (fnat (F := R) B) as Bn. intros Bn.
  induction 1 as [|k mk rest ms Hk Hrest IH]; intros a; simpl.
  - reflexivity.
  - rewrite Hk, <- IH. f_equal. simpl. unfold Rdiv. ring.
Qed.

Lemma in_bounds_vec (b B : nat) : (b < B)%nat -> in_bounds [b] [B].
Proof. intros Hb. repeat constructor. exact Hb. Qed.

(** In exact arithmetic the batch mean of the difference is the
    difference of the batch means. *)
Lemma elbo_exact (m : Model (F := R)) (obs : tensor R) (w : R)
      (c : tensor R) (kls : list (tensor R)) (B : nat) :
  conditional_log_likelihoods m obs false = Ok c ->
  kl_divergences m false = Ok kls ->
  shape c = [B] ->
  Forall (fun k => shape k = [B]) kls ->
  result_eq (elbo m obs true w) (elbo_from_parts m obs true w).
Proof.
  intros Hc Hkl Hsc Hall.
  rewrite elbo_averaged. unfold elbo_from_parts.
  rewrite cll_averaged, kl_averaged, Hc, Hkl. cbn [rbind].
  destruct (@mean_each_vec R _ _ _ Hall) as (ms & Hms & Hshape & Hentry).
  rewrite Hms, (t_mean0_vec c Hsc). cbn [rbind].
  destruct Hentry as [|k mk rest mrest Hmk Hmrest].
  - unfold py_sum. cbn [fold_left rbind py_rmul py_sub].
    rewrite t_mean0_vec with (B := B) by exact Hsc.
    split; [reflexivity|]. intros idx Hb.
    apply in_bounds_nil in Hb. subst idx. unfold insert_at. simpl.
    rewrite Q2R_zero, Rmult_0_r.
    rewrite map_ext with (g := fun b => entry c [b])
      by (intros b; simpl; lra).
    lra.
  - inversion Hall as [|k' rest' Hk Hrest]; subst k' rest'.
    inversion Hshape as [|mk' mrest' Hsmk Hsmrest]; subst mk' mrest'.
    destruct (@py_sum_same_shape R _ _ _ _ Hk Hrest) as (T & HT & HsT & HeT).
    destruct (@py_sum_same_shape R _ _ _ _ Hsmk Hsmrest)
      as (T' & HT' & HsT' & HeT').
    rewrite HT, HT'. cbn [rbind py_rmul py_sub].
    unfold t_binop. cbn [shape t_map]. rewrite Hsc, HsT, HsT'.
    rewrite broadcast_shape_same. cbn [broadcast_shape rev bshape_rev option_map app].
    cbn [rbind]. rewrite t_mean0_vec with (B := B) by reflexivity.
    split; [reflexivity|]. intros idx Hb.
    apply in_bounds_nil in Hb. subst idx. unfold insert_at. simpl.
    change (bindex [] []) with (@nil nat).
    rewrite (HeT' [] (Forall2_nil _)). simpl.
    rewrite map_ext_in
      with (g := fun b => entry c [b]
                          - fold_left (fun acc k' => acc + entry k' [b]) rest
                                      (entry k [b] + Q2R 0) * w).
    2:{ intros b Hin. apply in_seq in Hin.
        rewrite (bindex_same (in_bounds_vec (b := b) (B := B) ltac:(lia))).
        rewrite HeT by (apply in_bounds_vec; lia). reflexivity. }
    rewrite fsum_map_minus_scal, fsum_levels_exchange, fsum_map_plus.
    rewrite Hmk. simpl.
    set (Sk := fsum (map (fun b => entry k [b]) (seq 0 B))).
    set (Z0 := fsum (map (fun _ : nat => Q2R 0) (seq 0 B))).
    replace (Sk / Q2R (inject_Z (Z.of_nat B)) + Q2R 0)
      with ((Sk + Z0) / fnat B).
    + rewrite (fold_means Hmrest). simpl. unfold Rdiv. ring.
    + subst Z0. rewrite Q2R_zero.
      replace (fsum (map (fun _ : nat => 0) (seq 0 B))) with 0.
      * simpl. unfold Rdiv. ring.
      * clear. induction (seq 0 B) as [|x l IH]; simpl.
        -- now rewrite fsum_R_nil.
        -- rewrite fsum_R_cons, <- IH. lra.
Qed.

End ExactElbo.


(** ** [Model.elbo] against the difference of its averaged parts *)

Section Columns.
Context {F : Type} `{Arith F}.

(** The tensor of shape [len(l), 1] with the entries of [l] along the
    batch dimension and one sample. *)
Definition column (l : list F) : tensor F :=
  mkT [length l; 1] (fun idx => nth (hd 0 idx) l (flit 0)).

(** A one-level model whose level has the KL divergences [kl] and whose
    output distribution gives the observation the log-probabilities
    [log_like], one per example of the batch. *)
Definition one_level_model (log_like kl : list F) : Model :=
  {| latent_levels := [level_with_kl (column kl)];
     output_dist := {| dist_log_prob := fun _ => Ok (column log_like) |};
     output_interval := None |}.

End Columns.

(** A batch of two examples in binary32: log-likelihoods -90 and -85, KL
    divergences 0.1 and 0.2, and [anneal_weight = 1]. *)
Definition batch32 : Model (F := spec_float) :=
  one_level_model [Binary32.of_Q (-90 # 1); Binary32.of_Q (-85 # 1)]
                  [Binary32.of_Q (1 # 10); Binary32.of_Q (2 # 10)].

Definition observation32 : tensor spec_float :=
  full [2; 1] (Binary32.of_Q 0).

(** The same batch in exact arithmetic. *)
Definition batchR : Model (F := R) :=
  one_level_model [Q2R (-90 # 1); Q2R (-85 # 1)] [Q2R (1 # 10); Q2R (2 # 10)].

Definition observationR : tensor R := full [2; 1] (Q2R 0).

(** In binary32 the averaged [elbo] of the batch is -11488460 * 2^-17,
    the difference of the averaged parts is -11488461 * 2^-17. *)
Lemma elbo_batch32 :
  exists e, elbo batch32 observation32 true (Binary32.of_Q 1) = Ok e
            /\ shape e = []
            /\ entry e [] = S754_finite true 11488460 (-17).
Proof. eexists. split; [reflexivity|]. split; vm_compute; reflexivity. Qed.

Lemma elbo_from_parts_batch32 :
  exists e, elbo_from_parts batch32 observation32 true (Binary32.of_Q 1) = Ok e
            /\ shape e = []
            /\ entry e [] = S754_finite true 11488461 (-17).
Proof. eexists. split; [reflexivity|]. split; vm_compute; reflexivity. Qed.

(** C1, as stated, fails: with [averaged] true, [elbo] averages the
    rounded per-example differences, which is not the difference of the
    averages when every operation rounds to binary32. *)
Lemma elbo_differs_from_averaged_parts :
  ~ result_eq (elbo batch32 observation32 true (Binary32.of_Q 1))
              (elbo_from_parts batch32 observation32 true (Binary32.of_Q 1)).
Proof.
  destruct elbo_batch32 as (e & He & Hs & Hv).
  destruct elbo_from_parts_batch32 as (e' & He' & _ & Hv').
  rewrite He, He'. intros [_ Heq].
  specialize (Heq []). rewrite Hs in Heq.
  specialize (Heq (Forall2_nil _)). congruence.
Qed.

(** C1, amended: without averaging, [elbo(obs, False, w)] is exactly
    [conditional_log_likelihoods(obs, False) - w * sum(kl_divergences(False))];
    with averaging, [elbo(obs, True, w)] is exactly the batch mean of that
    unaveraged difference, whatever the arithmetic of the tensors; and in
    exact (real) arithmetic, when the log-likelihood and every level's KL
    have the same batch size, that mean agrees with
    [conditional_log_likelihoods(obs, True) - w * sum(kl_divergences(True))]. *)
Theorem elbo_decomposition :
  (forall (F : Type) (A : Arith F) (m : Model) (obs : tensor F) (w : F),
      elbo m obs false w = elbo_from_parts m obs false w
      /\ elbo m obs true w = rbind (elbo_from_parts m obs false w) (t_mean 0))
  /\ (forall (m : Model (F := R)) (obs : tensor R) (w : R)
             (c : tensor R) (kls : list (tensor R)) (B : nat),
         conditional_log_likelihoods m obs false = Ok c ->
         kl_divergences m false = Ok kls ->
         shape c = [B] ->
         Forall (fun k => shape k = [B]) kls ->
         result_eq (elbo m obs true w) (elbo_from_parts m obs true w)).
Proof.
  split.
  - intros F A m obs w. split.
    + apply elbo_unaveraged.
    + apply elbo_averaged.
  - intros m obs w c kls B. apply elbo_exact.
Qed.

Lemma elbo_decomposition_witness :
  result_eq (elbo batchR observationR true (Q2R 1))
            (elbo_from_parts batchR observationR true (Q2R 1)).
Proof.
  eapply (proj2 elbo_decomposition batchR observationR (Q2R 1) _ _ 2).
  - reflexivity.
  - reflexivity.
  - reflexivity.
  - repeat constructor.
Defined.

(** ** Reading and writing the store *)

Section StoreFacts.
Context {F : Type} `{Arith F}.

Lemma nth_app_plus {A} (l1 l2 : list A) (k : nat) (d : A) :
  nth (length l1 + k) (l1 ++ l2) d = nth k l2 d.
Proof. apply app_nth2_plus. Qed.

Lemma update_app_plus {A} (l1 l2 : list A) (k : nat) (x : A) :
  update (length l1 + k) x (l1 ++ l2) = l1 ++ update k x l2.
Proof.
  induction l1 as [|y l1 IH]; simpl.
  - destruct l2; reflexivity.
  - now rewrite IH.
Qed.

Lemma update_snoc {A} (l : list A) (x y : A) :
  update (length l) y (l ++ [x]) = l ++ [y].
Proof. induction l as [|z l IH]; simpl; [reflexivity|]. now rewrite IH. Qed.

Lemma update_length {A} (l : list A) (n : nat) (x : A) :
  length (update n x l) = length l.
Proof.
  revert n. induction l as [|y l IH]; intros [|n]; simpl; auto.
Qed.

Lemma update_nth_other {A} (l : list A) (n k : nat) (x d : A) :
  n <> k -> nth k (update n x l) d = nth k l d.
Proof.
  revert n k. induction l as [|y l IH]; intros [|n] [|k] Hne; simpl;
    auto; congruence.
Qed.

(** A fresh cell, read through views. *)
Lemma read_fresh (c l : list (tensor F)) (k : nat) (vs : list view) :
  read (mkH (length c + k) vs) (c ++ l)
  = fold_left (fun t v => view_get v t) vs (nth k l empty_tensor).
Proof. unfold read. simpl. now rewrite nth_app_plus. Qed.

(** A cell allocated before, unchanged by what is allocated after it. *)
Lemma read_old (c l : list (tensor F)) (h : handle) :
  addr h < length c -> read h (c ++ l) = read h c.
Proof. intros Hv. unfold read. now rewrite app_nth1. Qed.

Lemma read_view_snoc (c : list (tensor F)) (a : nat) (vs : list view) (v : view) :
  read (mkH a (vs ++ [v])) c = view_get v (read (mkH a vs) c).
Proof. unfold read. simpl. now rewrite fold_left_app. Qed.

Lemma write_fresh (c l : list (tensor F)) (k : nat) (t : tensor F) :
  write (mkH (length c + k) []) t (c ++ l) = c ++ update k t l.
Proof. unfold write. simpl. apply update_app_plus. Qed.

Lemma read_view (c : list (tensor F)) (h : handle) (v : view) :
  read (mkH (addr h) (views h ++ [v])) c = view_get v (read h c).
Proof. unfold read. simpl. now rewrite fold_left_app. Qed.

Lemma state_nil (slf : Normal) (c : list (tensor F)) (d : nat) :
  mkState slf c d = mkState slf (c ++ []) d.
Proof. now rewrite app_nil_r. Qed.

End StoreFacts.

(** ** The tensors the methods of [Normal] compute *)

Section NormalValues.
Context {F : Type} `{Arith F} `{Special F}.

(** The tensor of a handle after a run, or the exception of the run. *)
Definition value_of (r : result handle * state (F := F)) : result (tensor F) :=
  match r with
  | (Ok h, s') => Ok (read h (cells s'))
  | (Raise e, _) => Raise e
  end.

(** [t.unsqueeze(1).repeat(r0, r1, ...)] *)
Definition expand_samples (reps : list nat) (t : tensor F) : result (tensor F) :=
  u <~ t_unsqueeze 1 t ;;
  t_repeat reps u.

(** [log_var.mul(0.5).exp_()] *)
Definition std_value (lv : tensor F) : tensor F :=
  t_map fexp (t_map (fun x => fmul x (flit (1 # 2))) lv).

(** The tensor [Normal.cdf] returns, from the tensors of the mean, of the
    log variance and of the value. *)
Definition cdf_value (m lv v : tensor F) : result (tensor F) :=
  n_samples <~ shape_at 1 v ;;
  ms <~ (if rank m =? 2 then
           m' <~ expand_samples [1; n_samples; 1] m ;;
           std' <~ expand_samples [1; n_samples; 1] (std_value lv) ;;
           Ok (m', std')
         else Ok (m, std_value lv)) ;;
  d <~ t_binop fsub v (fst ms) ;;
  q <~ t_binop fdiv d
         (t_map (fun x => fadd x (flit (1 # 100000)))
                (t_map (fun x => fmul x sqrt_2) (snd ms))) ;;
  Ok (t_map (fun x => fmul x (flit (1 # 2)))
            (t_map (fun x => fadd x (flit 1)) (t_map ferf q))).

(** The tensor [Normal.log_prob] returns at a tensor [v]. *)
Definition log_prob_value (m lv v : tensor F) : result (tensor F) :=
  n_samples <~ shape_at 1 v ;;
  ms <~ (if rank m =? 2 then
           m' <~ expand_samples [1; n_samples; 1] m ;;
           lv' <~ expand_samples [1; n_samples; 1] lv ;;
           Ok (m', lv')
         else if rank m =? 4 then
           m' <~ expand_samples [1; n_samples; 1; 1; 1] m ;;
           lv' <~ expand_samples [1; n_samples; 1; 1; 1] lv ;;
           Ok (m', lv')
         else Ok (m, lv)) ;;
  d <~ t_binop fsub v (fst ms) ;;
  q <~ t_binop_ fdiv (t_map fpow2 d)
         (t_map (fun x => fadd x (flit (1 # 100000))) (t_map fexp (snd ms))) ;;
  r <~ t_binop_ fadd (t_map (fun x => fadd x log_2pi) (snd ms)) q ;;
  Ok (t_map (fun x => fmul x (flit (- 1 # 2))) r).

(** The tensor [Normal.log_prob] returns over an interval [(lo, hi)]. *)
Definition log_mass_value (m lv lo hi : tensor F) : result (tensor F) :=
  c_hi <~ cdf_value m lv hi ;;
  c_lo <~ cdf_value m lv lo ;;
  d <~ t_binop fsub c_hi c_lo ;;
  Ok (t_map flog (t_map (fun x => fadd x (flit (1 # 1000000))) d)).

(** The tensor [Normal.sample] draws from the noise [noise]. *)
Definition sample_value (noise : list nat -> F) (n_samples : nat)
           (m lv : tensor F) : result (tensor F) :=
  ms <~ (if rank m =? 2 then
           m' <~ expand_samples [1; n_samples; 1] m ;;
           std' <~ expand_samples [1; n_samples; 1] (std_value lv) ;;
           Ok (m', std')
         else Ok (m, std_value lv)) ;;
  r <~ t_binop_ fmul (mkT (shape (fst ms)) noise) (snd ms) ;;
  t_binop_ fadd r (fst ms).

(** A run from the cells [c] that leaves the object [slf] and the cells
    [c] as they are, allocates further cells, and returns the tensor [t]
    in one of them, or raises. *)
Definition runs_to (r : result handle * state (F := F)) (slf : Normal)
           (c : list (tensor F)) (d : nat) (t : result (tensor F)) : Prop :=
  match t with
  | Ok t =>
      exists l k,
        r = (Ok (mkH (length c + k) []), mkState slf (c ++ l) d)
        /\ k < length l /\ nth k l empty_tensor = t
  | Raise e => exists l, r = (Raise e, mkState slf (c ++ l) d)
  end.

End NormalValues.

(** ** Running the operations on a store *)

Section Running.
Context {F : Type} `{Arith F} `{Special F}.
Variable randn : nat -> list nat -> F.

Let st := state (F := F).

Lemma bind_assoc {A B C} (c : M A) (k1 : A -> M B) (k2 : B -> M C) (s : st) :
  bind (bind c k1) k2 s = bind c (fun a => bind (k1 a) k2) s.
Proof. unfold bind. destruct (c s) as [[a|e] s']; reflexivity. Qed.

Lemma run_ret {A B} (a : A) (k : A -> M B) (s : st) : bind (ret a) k s = k a s.
Proof. reflexivity. Qed.

Lemma run_load {B} (h : handle) (k : tensor F -> M B) (s : st) :
  bind (load h) k s = k (read h (cells s)) s.
Proof. reflexivity. Qed.

Lemma run_get_self {B} (k : Normal -> M B) (s : st) :
  bind get_self k s = k (self s) s.
Proof. reflexivity. Qed.

Lemma run_lift {A B} (r : result A) (k : A -> M B) (s : st) :
  bind (lift r) k s = match r with Ok a => k a s | Raise e => (Raise e, s) end.
Proof. destruct r; reflexivity. Qed.

Lemma run_assert {B} (b : bool) (msg : string) (k : unit -> M B) (s : st) :
  bind (assert b msg) k s
  = if b then k tt s else (Raise (AssertionError msg), s).
Proof. destruct b; reflexivity. Qed.

Lemma run_attr {A B} (o : option A) (k : A -> M B) (s : st) :
  bind (attr o) k s
  = match o with Some a => k a s | None => (Raise AttributeError, s) end.
Proof. destruct o; reflexivity. Qed.

Lemma run_op_map {B} (f : F -> F) (h : handle) (k : handle -> M B)
      (slf : Normal) (c l : list (tensor F)) (d : nat) :
  bind (op_map f h) k (mkState slf (c ++ l) d)
  = k (mkH (length c + length l) [])
      (mkState slf (c ++ (l ++ [t_map f (read h (c ++ l))])) d).
Proof. unfold op_map, bind, load, alloc. simpl. now rewrite length_app, app_assoc. Qed.

Lemma run_op_map_ {B} (f : F -> F) (n : nat) (k : handle -> M B)
      (slf : Normal) (c l : list (tensor F)) (d : nat) :
  bind (op_map_ f (mkH (length c + n) [])) k (mkState slf (c ++ l) d)
  = k (mkH (length c + n) [])
      (mkState slf (c ++ update n (t_map f (nth n l empty_tensor)) l) d).
Proof.
  unfold op_map_, bind, load, store_. simpl.
  now rewrite write_fresh, read_fresh.
Qed.

Lemma end_op_map_ (f : F -> F) (n : nat)
      (slf : Normal) (c l : list (tensor F)) (d : nat) :
  op_map_ f (mkH (length c + n) []) (mkState slf (c ++ l) d)
  = (Ok (mkH (length c + n) []),
     mkState slf (c ++ update n (t_map f (nth n l empty_tensor)) l) d).
Proof.
  unfold op_map_, bind, load, store_, ret. simpl.
  now rewrite write_fresh, read_fresh.
Qed.

Lemma end_op_map (f : F -> F) (h : handle)
      (slf : Normal) (c l : list (tensor F)) (d : nat) :
  op_map f h (mkState slf (c ++ l) d)
  = (Ok (mkH (length c + length l) []),
     mkState slf (c ++ (l ++ [t_map f (read h (c ++ l))])) d).
Proof. unfold op_map, bind, load, alloc. simpl. now rewrite length_app, app_assoc. Qed.

Lemma end_op_bin_ (op : F -> F -> F) (n : nat) (b : handle)
      (slf : Normal) (c l : list (tensor F)) (d : nat) :
  op_bin_ op (mkH (length c + n) []) b (mkState slf (c ++ l) d)
  = match t_binop_ op (nth n l empty_tensor) (read b (c ++ l)) with
    | Ok r => (Ok (mkH (length c + n) []), mkState slf (c ++ update n r l) d)
    | Raise e => (Raise e, mkState slf (c ++ l) d)
    end.
Proof.
  unfold op_bin_, bind, load, lift, store_, ret. simpl.
  rewrite read_fresh. simpl.
  destruct (t_binop_ op _ _); [|reflexivity].
  simpl. now rewrite write_fresh.
Qed.

Lemma run_op_bin {B} (op : F -> F -> F) (a b : handle) (k : handle -> M B)
      (slf : Normal) (c l : list (tensor F)) (d : nat) :
  bind (op_bin op a b) k (mkState slf (c ++ l) d)
  = match t_binop op (read a (c ++ l)) (read b (c ++ l)) with
    | Ok r => k (mkH (length c + length l) []) (mkState slf (c ++ (l ++ [r])) d)
    | Raise e => (Raise e, mkState slf (c ++ l) d)
    end.
Proof.
  unfold op_bin, bind, load, lift, alloc. simpl.
  destruct (t_binop op _ _); [|reflexivity].
  simpl. now rewrite length_app, app_assoc.
Qed.

Lemma run_op_bin_ {B} (op : F -> F -> F) (n : nat) (b : handle)
      (k : handle -> M B) (slf : Normal) (c l : list (tensor F)) (d : nat) :
  bind (op_bin_ op (mkH (length c + n) []) b) k (mkState slf (c ++ l) d)
  = match t_binop_ op (nth n l empty_tensor) (read b (c ++ l)) with
    | Ok r => k (mkH (length c + n) []) (mkState slf (c ++ update n r l) d)
    | Raise e => (Raise e, mkState slf (c ++ l) d)
    end.
Proof.
  unfold op_bin_, bind, load, lift, store_. simpl.
  rewrite read_fresh. simpl.
  destruct (t_binop_ op _ _); [|reflexivity].
  simpl. now rewrite write_fresh.
Qed.

Lemma run_op_unsqueeze {B} (n : nat) (h : handle) (k : handle -> M B) (s : st) :
  bind (op_unsqueeze n h) k s
  = match t_unsqueeze n (read h (cells s)) with
    | Ok _ => k (mkH (addr h) (views h ++ [VUnsqueeze n])) s
    | Raise e => (Raise e, s)
    end.
Proof.
  unfold op_unsqueeze, bind, load, lift. simpl.
  destruct (t_unsqueeze n _); reflexivity.
Qed.

Lemma run_op_slice1 {B} (h : handle) (k : handle -> M B) (s : st) :
  bind (op_slice1 h) k s
  = match t_slice1 (read h (cells s)) with
    | Ok _ => k (mkH (addr h) (views h ++ [VSlice1])) s
    | Raise e => (Raise e, s)
    end.
Proof.
  unfold op_slice1, bind, load, lift. simpl.
  destruct (t_slice1 _); reflexivity.
Qed.

Lemma run_op_repeat {B} (reps : list nat) (h : handle) (k : handle -> M B)
      (slf : Normal) (c l : list (tensor F)) (d : nat) :
  bind (op_repeat reps h) k (mkState slf (c ++ l) d)
  = match t_repeat reps (read h (c ++ l)) with
    | Ok r => k (mkH (length c + length l) []) (mkState slf (c ++ (l ++ [r])) d)
    | Raise e => (Raise e, mkState slf (c ++ l) d)
    end.
Proof.
  unfold op_repeat, bind, load, lift, alloc. simpl.
  destruct (t_repeat reps _); [|reflexivity].
  simpl. now rewrite length_app, app_assoc.
Qed.

Lemma run_op_new_normal {B} (size : list nat) (k : handle -> M B)
      (slf : Normal) (c l : list (tensor F)) (d : nat) :
  bind (op_new_normal randn size) k (mkState slf (c ++ l) d)
  = k (mkH (length c + length l) [])
      (mkState slf (c ++ (l ++ [mkT size (randn d)])) (S d)).
Proof.
  unfold op_new_normal, bind. simpl. now rewrite length_app, app_assoc.
Qed.

Lemma run_std_of {B} (lv : handle) (k : handle -> M B)
      (slf : Normal) (c l : list (tensor F)) (d : nat) :
  bind (std_of lv) k (mkState slf (c ++ l) d)
  = k (mkH (length c + length l) [])
      (mkState slf (c ++ (l ++ [std_value (read lv (c ++ l))])) d).
Proof.
  unfold std_of. rewrite bind_assoc, run_op_map, run_op_map_.
  do 3 f_equal. now rewrite nth_middle, update_snoc.
Qed.

(** A view of a tensor that [unsqueeze] accepts reads as the unsqueezed
    tensor. *)
Lemma view_unsqueeze (n : nat) (t u : tensor F) :
  t_unsqueeze n t = Ok u -> view_get (VUnsqueeze n) t = u.
Proof.
  unfold t_unsqueeze. destruct (n <=? rank t); [|discriminate].
  now intros [= <-].
Qed.

End Running.

(** Symbolic execution on a store [c ++ l] of old and fresh cells. *)
Ltac store_simpl :=
  cbn [cells self draws length app nth update fst snd rbind addr views
       fold_left Nat.add];
  repeat first
    [ rewrite read_fresh
    | rewrite read_view
    | rewrite read_old by (cbn [addr]; assumption) ];
  cbn [cells self draws length app nth update fst snd rbind addr views
       fold_left Nat.add].

Ltac raised := unfold runs_to; eexists; reflexivity.

Ltac returned :=
  unfold runs_to; eexists _, _;
  split; [reflexivity | split; [cbn [length]; lia | reflexivity]].

(** The last line of [log_prob], from the parameters already expanded. *)
Ltac density_tail :=
  rewrite run_op_map; store_simpl;
  rewrite run_op_bin; store_simpl;
  match goal with
  | |- context [t_binop fsub ?a ?b] =>
      destruct (t_binop fsub a b) as [dd|e]; [|raised]
  end;
  rewrite run_op_map_; store_simpl;
  rewrite run_op_map; store_simpl;
  rewrite run_op_map; store_simpl;
  rewrite run_op_bin_; store_simpl;
  match goal with
  | |- context [t_binop_ fdiv ?a ?b] =>
      destruct (t_binop_ fdiv a b) as [q|e]; [|raised]
  end;
  rewrite run_op_bin_; store_simpl;
  match goal with
  | |- context [t_binop_ fadd ?a ?b] =>
      destruct (t_binop_ fadd a b) as [r|e]; [|raised]
  end;
  rewrite end_op_map_; store_simpl; returned.

Section NormalRefinement.
Context {F : Type} `{Arith F} `{Special F}.
Variable randn : nat -> list nat -> F.

(** [Normal.cdf] computes [cdf_value] in fresh cells. *)
Lemma cdf_runs (slf : Normal) (c : list (tensor F)) (d : nat)
      (m lv v : handle) :
  mean slf = Some m -> log_var slf = Some lv ->
  addr m < length c -> addr lv < length c -> addr v < length c ->
  runs_to (cdf v (mkState slf c d)) slf c d
          (cdf_value (read m c) (read lv c) (read v c)).
Proof.
  intros Hm Hlv Vm Vlv Vv. rewrite state_nil.
  unfold cdf, cdf_value.
  rewrite run_load. store_simpl.
  rewrite run_lift.
  destruct (shape_at 1 (read v c)) as [n|e]; [|raised].
  rewrite run_get_self. store_simpl. rewrite Hlv, run_attr, run_std_of.
  store_simpl. rewrite Hm, run_attr, run_load. store_simpl.
  destruct (rank (read m c) =? 2).
  - rewrite !bind_assoc, run_op_unsqueeze. store_simpl.
    unfold expand_samples.
    destruct (t_unsqueeze 1 (read m c)) as [mu|e] eqn:Emu; [|raised].
    rewrite bind_assoc, run_op_repeat. store_simpl.
    rewrite (view_unsqueeze _ _ Emu).
    destruct (t_repeat [1; n; 1] mu) as [m'|e]; [|raised].
    rewrite bind_assoc, run_op_unsqueeze. store_simpl.
    destruct (t_unsqueeze 1 (std_value (read lv c))) as [su|e] eqn:Esu;
      [|raised].
    rewrite bind_assoc, run_op_repeat. store_simpl.
    rewrite (view_unsqueeze _ _ Esu).
    destruct (t_repeat [1; n; 1] su) as [std'|e]; [|raised].
    rewrite run_ret. store_simpl.
    rewrite run_op_bin. store_simpl.
    destruct (t_binop fsub (read v c) m') as [dd|e]; [|raised].
    rewrite run_op_map. store_simpl.
    rewrite run_op_map. store_simpl.
    rewrite run_op_bin. store_simpl.
    destruct (t_binop fdiv dd _) as [q|e]; [|raised].
    rewrite run_op_map. store_simpl.
    rewrite run_op_map. store_simpl.
    rewrite end_op_map_. store_simpl. returned.
  - rewrite run_ret. store_simpl.
    rewrite run_op_bin. store_simpl.
    destruct (t_binop fsub (read v c) (read m c)) as [dd|e]; [|raised].
    rewrite run_op_map. store_simpl.
    rewrite run_op_map. store_simpl.
    rewrite run_op_bin. store_simpl.
    destruct (t_binop fdiv dd _) as [q|e]; [|raised].
    rewrite run_op_map. store_simpl.
    rewrite run_op_map. store_simpl.
    rewrite end_op_map_. store_simpl. returned.
Qed.

(** [Normal.log_prob] at a tensor computes [log_prob_value] in fresh
    cells. *)
Lemma log_prob_runs (slf : Normal) (c : list (tensor F)) (d : nat)
      (m lv v : handle) :
  mean slf = Some m -> log_var slf = Some lv ->
  addr m < length c -> addr lv < length c -> addr v < length c ->
  runs_to (log_prob randn (PyTensor v) (mkState slf c d)) slf c d
          (log_prob_value (read m c) (read lv c) (read v c)).
Proof.
  intros Hm Hlv Vm Vlv Vv. rewrite state_nil.
  unfold log_prob, log_prob_value.
  rewrite run_ret, run_get_self. store_simpl.
  rewrite Hm, Hlv, run_assert. cbn [is_none negb andb].
  rewrite run_attr, run_load. store_simpl.
  rewrite run_lift.
  destruct (shape_at 1 (read v c)) as [n|e]; [|raised].
  rewrite !run_attr, run_load. store_simpl.
  destruct (rank (read m c) =? 2); [|destruct (rank (read m c) =? 4)].
  - rewrite !bind_assoc, run_op_unsqueeze. store_simpl.
    unfold expand_samples.
    destruct (t_unsqueeze 1 (read m c)) as [mu|e] eqn:Emu; [|raised].
    rewrite bind_assoc, run_op_repeat. store_simpl.
    rewrite (view_unsqueeze _ _ Emu).
    destruct (t_repeat [1; n; 1] mu) as [m'|e]; [|raised].
    rewrite bind_assoc, run_op_unsqueeze. store_simpl.
    destruct (t_unsqueeze 1 (read lv c)) as [lu|e] eqn:Elu; [|raised].
    rewrite bind_assoc, run_op_repeat. store_simpl.
    rewrite (view_unsqueeze _ _ Elu).
    destruct (t_repeat [1; n; 1] lu) as [lv'|e]; [|raised].
    rewrite run_ret. store_simpl. density_tail.
  - rewrite !bind_assoc, run_op_unsqueeze. store_simpl.
    unfold expand_samples.
    destruct (t_unsqueeze 1 (read m c)) as [mu|e] eqn:Emu; [|raised].
    rewrite bind_assoc, run_op_repeat. store_simpl.
    rewrite (view_unsqueeze _ _ Emu).
    destruct (t_repeat [1; n; 1; 1; 1] mu) as [m'|e]; [|raised].
    rewrite bind_assoc, run_op_unsqueeze. store_simpl.
    destruct (t_unsqueeze 1 (read lv c)) as [lu|e] eqn:Elu; [|raised].
    rewrite bind_assoc, run_op_repeat. store_simpl.
    rewrite (view_unsqueeze _ _ Elu).
    destruct (t_repeat [1; n; 1; 1; 1] lu) as [lv'|e]; [|raised].
    rewrite run_ret. store_simpl. density_tail.
  - rewrite run_ret. store_simpl. density_tail.
Qed.

End NormalRefinement.

Section NormalSampling.
Context {F : Type} `{Arith F} `{Special F}.
Variable randn : nat -> list nat -> F.

(** The object [slf] with the cached sample [o]. *)
Definition with_sample (slf : Normal) (o : option handle) : Normal :=
  mkNormal (mean_reset_value slf) (log_var_reset_value slf)
           (mean slf) (log_var slf) o.

Lemma run_set_sample {B} (o : option handle) (k : unit -> M B)
      (s : state (F := F)) :
  bind (set_sample o) k s
  = k tt (mkState (with_sample (self s) o) (cells s) (draws s)).
Proof. reflexivity. Qed.

(** With a cached sample and no resampling, [sample] returns the cache
    and touches nothing. *)
Lemma sample_cached (s : state (F := F)) (h : handle) (n_samples : nat) :
  _sample (self s) = Some h ->
  sample randn n_samples false s = (Ok (Some h), s).
Proof.
  intros Hc. unfold sample. rewrite run_get_self, Hc. cbn [is_none orb].
  rewrite run_ret, run_get_self. unfold ret. now rewrite Hc.
Qed.

(** Otherwise it draws [sample_value] into a fresh cell and caches it. *)
Lemma sample_runs (slf : Normal) (c : list (tensor F)) (d : nat)
      (m lv : handle) (n_samples : nat) (resample : bool) :
  mean slf = Some m -> log_var slf = Some lv ->
  addr m < length c -> addr lv < length c ->
  is_none (_sample slf) || resample = true ->
  match sample_value (randn d) n_samples (read m c) (read lv c) with
  | Ok t =>
      exists l k,
        sample randn n_samples resample (mkState slf c d)
        = (Ok (Some (mkH (length c + k) [])),
           mkState (with_sample slf (Some (mkH (length c + k) [])))
                   (c ++ l) (S d))
        /\ k < length l /\ nth k l empty_tensor = t
  | Raise e =>
      exists l d',
        sample randn n_samples resample (mkState slf c d)
        = (Raise e, mkState slf (c ++ l) d')
  end.
Proof.
  intros Hm Hlv Vm Vlv Hdraw. rewrite state_nil.
  unfold sample, sample_value.
  rewrite run_get_self. store_simpl. rewrite Hdraw.
  rewrite ?bind_assoc, Hlv, run_attr.
  rewrite ?bind_assoc, run_std_of. store_simpl.
  rewrite ?bind_assoc, Hm, run_attr, ?bind_assoc, run_load. store_simpl.
  destruct (rank (read m c) =? 2).
  - rewrite ?bind_assoc, run_op_unsqueeze. store_simpl.
    unfold expand_samples.
    destruct (t_unsqueeze 1 (read m c)) as [mu|e] eqn:Emu;
      [|eexists _, _; reflexivity].
    rewrite ?bind_assoc, run_op_repeat. store_simpl.
    rewrite (view_unsqueeze _ _ Emu).
    destruct (t_repeat [1; n_samples; 1] mu) as [m'|e];
      [|eexists _, _; reflexivity].
    rewrite ?bind_assoc, run_op_unsqueeze. store_simpl.
    destruct (t_unsqueeze 1 (std_value (read lv c))) as [su|e] eqn:Esu;
      [|eexists _, _; reflexivity].
    rewrite ?bind_assoc, run_op_repeat. store_simpl.
    rewrite (view_unsqueeze _ _ Esu).
    destruct (t_repeat [1; n_samples; 1] su) as [std'|e];
      [|eexists _, _; reflexivity].
    rewrite ?bind_assoc, run_ret. store_simpl.
    rewrite ?bind_assoc, run_load. store_simpl.
    rewrite ?bind_assoc, run_op_new_normal. store_simpl.
    rewrite ?bind_assoc, run_op_bin_. store_simpl.
    destruct (t_binop_ fmul _ std') as [r1|e]; [|eexists _, _; reflexivity].
    rewrite ?bind_assoc, run_op_bin_. store_simpl.
    destruct (t_binop_ fadd r1 m') as [r2|e]; [|eexists _, _; reflexivity].
    rewrite ?bind_assoc, run_set_sample. store_simpl.
    eexists _, _. split; [reflexivity|]. split; [cbn [length]; lia|reflexivity].
  - rewrite ?bind_assoc, run_ret. store_simpl.
    rewrite ?bind_assoc, run_load. store_simpl.
    rewrite ?bind_assoc, run_op_new_normal. store_simpl.
    rewrite ?bind_assoc, run_op_bin_. store_simpl.
    destruct (t_binop_ fmul _ (std_value (read lv c))) as [r1|e];
      [|eexists _, _; reflexivity].
    rewrite ?bind_assoc, run_op_bin_. store_simpl.
    destruct (t_binop_ fadd r1 (read m c)) as [r2|e];
      [|eexists _, _; reflexivity].
    rewrite ?bind_assoc, run_set_sample. store_simpl.
    eexists _, _. split; [reflexivity|]. split; [cbn [length]; lia|reflexivity].
Qed.

End NormalSampling.

(** ** The cached sample *)

Section SampleCache.
Context {F : Type} `{Arith F} `{Special F}.
Variable randn : nat -> list nat -> F.



End SampleCache.

(** ** A standard normal distribution in exact arithmetic *)

(** A noise source for examples: the [k]-th draw is the constant [k]. *)
Definition noise_const (k : nat) (idx : list nat) : R := INR k.

(** A [Normal(n_variables=1)] after [re_init(batch_size=1)]: cells 0 and
    1 hold the reset values, cells 2 and 3 the mean and the log variance,
    both zero and of shape [1, 1]. *)
Definition standard_normal : state (F := R) :=
  mkState (mkNormal (mkH 0 []) (mkH 1 []) (Some (mkH 2 [])) (Some (mkH 3 [])) None)
          [full [1] 0%R; full [1] 0%R; full [1; 1] 0%R; full [1; 1] 0%R]
          0.

(** A [Normal()] as its constructor leaves it: no mean, no log variance,
    no sample. *)
Definition unset_normal : state (F := R) :=
  mkState (mkNormal (mkH 0 []) (mkH 1 []) None None None)
          [full [1] 0%R; full [1] 0%R]
          0.


(** ** What [cdf] and [log_prob] leave untouched *)

Section Frame.
Context {F : Type} `{Arith F} `{Special F}.
Variable randn : nat -> list nat -> F.

(** From [s] to [s'] the attributes of the distribution, the random
    source and every tensor object that existed in [s] are unchanged. *)
Definition unchanged (s s' : state (F := F)) : Prop :=
  self s' = self s
  /\ draws s' = draws s
  /\ forall h, addr h < length (cells s) -> read h (cells s') = read h (cells s).

Lemma runs_to_unchanged (r : result handle * state) (slf : Normal)
      (c : list (tensor F)) (d : nat) (t : result (tensor F)) :
  runs_to r slf c d t -> unchanged (mkState slf c d) (snd r).
Proof.
  unfold runs_to. destruct t as [t|e].
  - intros (l & k & -> & _). repeat split. intros h Hh. now apply read_old.
  - intros (l & ->). repeat split. intros h Hh. now apply read_old.
Qed.

(** C10: on a distribution whose mean and log variance are set, [cdf]
    and [log_prob] at a tensor leave the mean, the log variance, the
    cached sample and every tensor that existed before the call (the
    caller's value among them) as they were, whether they return or
    raise: their in-place operations only write cells allocated during
    the call. *)
Theorem cdf_log_prob_frame (s : state (F := F)) (m lv v : handle) :
  mean (self s) = Some m -> log_var (self s) = Some lv ->
  addr m < length (cells s) -> addr lv < length (cells s) ->
  addr v < length (cells s) ->
  unchanged s (snd (cdf v s))
  /\ unchanged s (snd (log_prob randn (PyTensor v) s)).
Proof.
  destruct s as [slf c d]. cbn [self cells]. intros Hm Hlv Vm Vlv Vv. split.
  - apply runs_to_unchanged with (t := cdf_value (read m c) (read lv c) (read v c)).
    now apply cdf_runs.
  - apply runs_to_unchanged
      with (t := log_prob_value (read m c) (read lv c) (read v c)).
    now apply log_prob_runs.
Qed.

End Frame.

Lemma cdf_log_prob_frame_witness :
  unchanged standard_normal (snd (cdf (mkH 2 []) standard_normal))
  /\ unchanged standard_normal
               (snd (log_prob noise_const (PyTensor (mkH 2 [])) standard_normal)).
Proof.
  apply (cdf_log_prob_frame noise_const standard_normal
                            (m := mkH 2 []) (lv := mkH 3 []) (mkH 2 []));
    try reflexivity; simpl; lia.
Defined.

(** ** Methods called before the mean and the log variance are set *)

(** A run fails with the precondition error of the distribution: the
    assertion of [log_prob]. *)
Definition precondition_error {A} (r : result A) : Prop :=
  exists msg, r = Raise (AssertionError msg).

(** A value that is not a pair. *)
Definition not_tuple (value : pyvalue) : Prop :=
  match value with PyTuple _ _ => False | _ => True end.

(** The claim of the specification for a state [s] whose mean or log
    variance is unset: [sample()] and [log_prob(value)] fail with the
    precondition error. *)
Definition unset_calls_fail_clearly {F} `{Arith F} `{Special F}
           (randn : nat -> list nat -> F) (s : state (F := F)) : Prop :=
  precondition_error (fst (sample randn 1 false s))
  /\ forall value, not_tuple value ->
                   precondition_error (fst (log_prob randn value s)).

(** A distribution whose parameters were taken away after a sample was
    drawn: cell 2 holds the sample. *)
Definition stale_normal : state (F := R) :=
  mkState (mkNormal (mkH 0 []) (mkH 1 []) None None (Some (mkH 2 [])))
          [full [1] 0%R; full [1] 0%R; full [1; 1; 1] 0%R]
          0.

Section Unset.
Context {F : Type} `{Arith F} `{Special F}.
Variable randn : nat -> list nat -> F.

Lemma log_prob_unset (s : state (F := F)) (v : handle) :
  mean (self s) = None \/ log_var (self s) = None ->
  log_prob randn (PyTensor v) s
  = (Raise (AssertionError "Mean or log variance are None."), s).
Proof.
  intros Hunset. unfold log_prob. rewrite run_ret, run_get_self, run_assert.
  destruct Hunset as [-> | ->]; [reflexivity|].
  cbn [is_none negb]. now rewrite andb_false_r.
Qed.

Lemma sample_unset (s : state (F := F)) (n_samples : nat) (resample : bool) :
  mean (self s) = None \/ log_var (self s) = None ->
  is_none (_sample (self s)) || resample = true ->
  exists s', sample randn n_samples resample s = (Raise AttributeError, s')
             /\ self s' = self s.
Proof.
  intros Hunset Hdraw. destruct s as [slf c d]. cbn [self] in *.
  rewrite state_nil. unfold sample.
  rewrite run_get_self. store_simpl. rewrite Hdraw.
  rewrite ?bind_assoc, run_attr.
  destruct (log_var slf) as [lv|] eqn:Hlv.
  - destruct Hunset as [Hm | Hn]; [|discriminate].
    rewrite ?bind_assoc, run_std_of. store_simpl.
    rewrite ?bind_assoc, Hm, run_attr.
    eexists. split; reflexivity.
  - eexists. split; reflexivity.
Qed.

(** With no sample cached, [log_prob(None)] fails inside [sample], before
    its assertion is reached. *)
Lemma log_prob_none_unset (s : state (F := F)) :
  mean (self s) = None \/ log_var (self s) = None ->
  _sample (self s) = None ->
  fst (log_prob randn PyNone s) = Raise AttributeError.
Proof.
  intros Hunset Hnone.
  destruct (sample_unset s 1 false Hunset) as (s' & Hs & _).
  { now rewrite Hnone. }
  unfold log_prob. unfold bind at 1. now rewrite Hs.
Qed.

(** C9, amended: on a distribution whose mean or log variance is unset,
    [log_prob] at a tensor fails with the assertion error
    "Mean or log variance are None." and changes nothing; [sample], when
    no sample is cached or [resample] is true, fails with an
    [AttributeError] (a method looked up on [None], not a dedicated
    precondition error) and leaves the attributes of the distribution as
    they were; with a cached sample and [resample] false it returns the
    cached sample. *)
Theorem unset_distribution_calls (s : state (F := F)) :
  mean (self s) = None \/ log_var (self s) = None ->
  (forall v : handle,
      log_prob randn (PyTensor v) s
      = (Raise (AssertionError "Mean or log variance are None."), s))
  /\ (forall (n_samples : nat) (resample : bool),
         is_none (_sample (self s)) || resample = true ->
         exists s', sample randn n_samples resample s = (Raise AttributeError, s')
                    /\ self s' = self s)
  /\ (forall (n_samples : nat) (h : handle),
         _sample (self s) = Some h ->
         sample randn n_samples false s = (Ok (Some h), s)).
Proof.
  intros Hunset. split; [|split].
  - intros v. now apply log_prob_unset.
  - intros n resample. now apply sample_unset.
  - intros n h. apply sample_cached.
Qed.

End Unset.

Lemma unset_distribution_calls_witness :
  log_prob noise_const (PyTensor (mkH 0 [])) unset_normal
  = (Raise (AssertionError "Mean or log variance are None."), unset_normal)
  /\ exists s', sample noise_const 1 false unset_normal = (Raise AttributeError, s')
                /\ self s' = self unset_normal.
Proof.
  destruct (unset_distribution_calls noise_const unset_normal (or_introl eq_refl))
    as (Hlp & Hsample & _).
  split.
  - apply Hlp.
  - apply Hsample. reflexivity.
Defined.

(** C9, as stated, fails: on the distribution its constructor builds,
    [sample()] raises an [AttributeError], which is not the precondition
    error, and so does [log_prob(None)], which samples before it asserts;
    and once a sample is cached, [sample()] returns it although the
    parameters are unset. *)
Lemma unset_calls_do_not_fail_clearly :
  ~ unset_calls_fail_clearly noise_const unset_normal
  /\ fst (log_prob noise_const PyNone unset_normal) = Raise AttributeError
  /\ fst (sample noise_const 1 false stale_normal) = Ok (Some (mkH 2 [])).
Proof.
  split; [|split].
  - intros [[msg Hs] _]. discriminate Hs.
  - reflexivity.
  - reflexivity.
Qed.

(** ** Parameters repeated along the sample dimension *)

Lemma map2_mul_ones (l : list nat) : map2 Nat.mul (map (fun _ => 1) l) l = l.
Proof.
  unfold map2. induction l as [|a l IH]; simpl; [reflexivity|].
  rewrite IH. f_equal. lia.
Qed.

Lemma map2_mod_small (idx shp : list nat) :
  in_bounds idx shp -> map2 Nat.modulo idx shp = idx.
Proof.
  unfold map2. induction 1 as [|i d idx shp Hlt Hb IH]; simpl; [reflexivity|].
  rewrite IH. f_equal. now apply Nat.mod_small.
Qed.

Section Expand.
Context {F : Type} `{Arith F}.

(** [t.unsqueeze(1).repeat(1, n, 1, ..., 1)] on a tensor of shape
    [b :: rest] has shape [b :: n :: rest] and repeats [t] along the new
    dimension. *)
Lemma expand_samples_spec (t : tensor F) (n b : nat) (rest : list nat) :
  shape t = b :: rest ->
  exists t',
    expand_samples (1 :: n :: map (fun _ => 1) rest) t = Ok t'
    /\ shape t' = b :: n :: rest
    /\ forall i k r,
         in_bounds (i :: r) (b :: rest) -> k < n ->
         entry t' (i :: k :: r) = entry t (i :: r).
Proof.
  intros Hs. unfold expand_samples, t_unsqueeze, rank. rewrite Hs.
  cbn [length Nat.leb rbind]. unfold t_repeat, rank.
  cbn [shape insert_at firstn skipn app length].
  rewrite length_map, Nat.leb_refl, Nat.sub_diag.
  eexists. split; [reflexivity|]. split.
  - cbn [shape repeat app]. unfold map2. cbn [combine map fst snd].
    fold (map2 Nat.mul (map (fun _ => 1) rest) rest).
    rewrite map2_mul_ones. f_equal; [lia | f_equal; lia].
  - intros i k r Hb Hk. cbn [entry skipn].
    inversion Hb as [|i' b' r' rest' Hi Hr]; subst.
    unfold map2 at 1. cbn [combine map fst snd].
    fold (map2 Nat.modulo r rest). rewrite (map2_mod_small Hr).
    rewrite (Nat.mod_small i b Hi), Nat.mod_1_r. reflexivity.
Qed.

Lemma t_binop__same (op : F -> F -> F) (a b : tensor F) (s : list nat) :
  shape a = s -> shape b = s ->
  t_binop_ op a b
  = Ok (mkT s (fun idx => op (entry a idx) (entry b (bindex s idx)))).
Proof.
  intros Ha Hb. unfold t_binop_. rewrite Ha, Hb, broadcast_shape_same.
  now rewrite shape_eqb_refl.
Qed.

Lemma t_binop_same (op : F -> F -> F) (a b : tensor F) (s : list nat) :
  shape a = s -> shape b = s ->
  t_binop op a b
  = Ok (mkT s (fun idx => op (entry a (bindex s idx)) (entry b (bindex s idx)))).
Proof.
  intros Ha Hb. unfold t_binop. now rewrite Ha, Hb, broadcast_shape_same.
Qed.

End Expand.

Section SampleValue.
Context {F : Type} `{Arith F} `{Special F}.

(** One reparameterised draw: [noise * exp(0.5 * log_var) + mean], in the
    order the code computes it. *)
Definition reparameterized (eps mu lv : F) : F :=
  fadd (fmul eps (fexp (fmul lv (flit (1 # 2))))) mu.

Lemma sample_value_dense (noise : list nat -> F) (n B N : nat)
      (m lv : tensor F) :
  shape m = [B; N] -> shape lv = [B; N] ->
  exists t,
    sample_value noise n m lv = Ok t
    /\ shape t = [B; n; N]
    /\ forall b k i, b < B -> k < n -> i < N ->
         entry t [b; k; i]
         = reparameterized (noise [b; k; i]) (entry m [b; i]) (entry lv [b; i]).
Proof.
  intros Hm Hlv. unfold sample_value, rank. rewrite Hm. cbn [length Nat.eqb].
  destruct (expand_samples_spec m n Hm) as (m' & Em & Sm & Vm).
  destruct (expand_samples_spec (std_value lv) n (b := B) (rest := [N]))
    as (s' & Es & Ss & Vs); [exact Hlv|].
  cbn [map] in Em, Es. rewrite Em, Es. cbn [rbind fst snd].
  rewrite (t_binop__same fmul _ s' (s := [B; n; N])) by (rewrite ?Sm; auto).
  cbn [rbind].
  rewrite (t_binop__same fadd _ m' (s := [B; n; N])) by auto.
  eexists. split; [reflexivity|]. split; [reflexivity|].
  intros b k i Hb Hk Hi. cbn [entry].
  assert (Hin : in_bounds [b; k; i] [B; n; N]) by (repeat constructor; assumption).
  rewrite (bindex_same Hin).
  rewrite Vs, Vm by (repeat constructor; assumption).
  reflexivity.
Qed.

Lemma sample_value_plain (noise : list nat -> F) (n : nat) (ps : list nat)
      (m lv : tensor F) :
  shape m = ps -> shape lv = ps -> length ps <> 2 ->
  exists t,
    sample_value noise n m lv = Ok t
    /\ shape t = ps
    /\ forall idx, in_bounds idx ps ->
         entry t idx = reparameterized (noise idx) (entry m idx) (entry lv idx).
Proof.
  intros Hm Hlv Hr. unfold sample_value, rank. rewrite Hm.
  apply Nat.eqb_neq in Hr. rewrite Hr. cbn [rbind fst snd].
  rewrite (t_binop__same fmul _ (std_value lv) (s := ps)) by auto.
  cbn [rbind].
  rewrite (t_binop__same fadd _ m (s := ps)) by auto.
  eexists. split; [reflexivity|]. split; [reflexivity|].
  intros idx Hin. cbn [entry]. rewrite (bindex_same Hin). reflexivity.
Qed.

End SampleValue.

(** ** [Normal.sample] with [resample=True] *)

(** The claim of the specification for [sample(n_samples, True)] in the
    state [s]: the result has the shape of the mean with a sample
    dimension of size [n_samples] inserted at axis 1. *)
Definition sample_inserts_sample_dim {F} `{Arith F} `{Special F}
           (randn : nat -> list nat -> F) (s : state (F := F)) (n_samples : nat)
  : Prop :=
  forall m, mean (self s) = Some m ->
    exists h s',
      sample randn n_samples true s = (Ok (Some h), s')
      /\ shape (read h (cells s'))
         = insert_at 1 n_samples (shape (read m (cells s))).

(** A distribution over one 1 x 1 image with one channel: the mean and
    the log variance have shape [1, 1, 1, 1] and no sample dimension. *)
Definition conv_normal : state (F := R) :=
  mkState (mkNormal (mkH 0 []) (mkH 1 []) (Some (mkH 2 [])) (Some (mkH 3 [])) None)
          [full [1] 0%R; full [1] 0%R;
           full [1; 1; 1; 1] 0%R; full [1; 1; 1; 1] 0%R]
          0.

Section Sampling.
Context {F : Type} `{Arith F} `{Special F}.
Variable randn : nat -> list nat -> F.

(** C5, amended: with [resample=True], on parameters of shape
    [batch, n_vars] (two dimensions), [sample] returns a tensor of shape
    [batch, n_samples, n_vars] whose entry [b, k, i] is
    [noise * exp(0.5 * log_var[b, i]) + mean[b, i]] for fresh noise, the
    parameters being repeated along the inserted sample dimension; on
    parameters of any other number of dimensions no sample dimension is
    inserted, [n_samples] is ignored, and the result has the shape of the
    parameters, with entry [noise * exp(0.5 * log_var) + mean] at every
    index.  In both cases the result is cached and one noise tensor is
    consumed. *)
Theorem sample_reparameterizes (s : state (F := F)) (m lv : handle)
        (n_samples : nat) :
  mean (self s) = Some m -> log_var (self s) = Some lv ->
  addr m < length (cells s) -> addr lv < length (cells s) ->
  (forall B N,
      shape (read m (cells s)) = [B; N] ->
      shape (read lv (cells s)) = [B; N] ->
      exists h s',
        sample randn n_samples true s = (Ok (Some h), s')
        /\ _sample (self s') = Some h
        /\ draws s' = S (draws s)
        /\ shape (read h (cells s')) = [B; n_samples; N]
        /\ forall b k i, b < B -> k < n_samples -> i < N ->
             entry (read h (cells s')) [b; k; i]
             = reparameterized (randn (draws s) [b; k; i])
                               (entry (read m (cells s)) [b; i])
                               (entry (read lv (cells s)) [b; i]))
  /\ (forall ps,
         shape (read m (cells s)) = ps ->
         shape (read lv (cells s)) = ps ->
         length ps <> 2 ->
         exists h s',
           sample randn n_samples true s = (Ok (Some h), s')
           /\ _sample (self s') = Some h
           /\ draws s' = S (draws s)
           /\ shape (read h (cells s')) = ps
           /\ forall idx, in_bounds idx ps ->
                entry (read h (cells s')) idx
                = reparameterized (randn (draws s) idx)
                                  (entry (read m (cells s)) idx)
                                  (entry (read lv (cells s)) idx)).
Proof.
  destruct s as [slf c d]. cbn [self cells draws].
  intros Hm Hlv Vm Vlv.
  pose proof (@sample_runs F _ _ randn slf c d m lv n_samples true Hm Hlv Vm Vlv
                          (orb_true_r _)) as Hrun.
  split.
  - intros B N Sm Slv.
    destruct (@sample_value_dense F _ _ (randn d) n_samples B N _ _ Sm Slv)
      as (t & Et & St & Vt).
    rewrite Et in Hrun. destruct Hrun as (l & k & -> & Hk & Hnth).
    eexists _, _. split; [reflexivity|].
    cbn [self cells draws with_sample _sample].
    rewrite read_fresh, Hnth. cbn [fold_left]. auto.
  - intros ps Sm Slv Hr.
    destruct (@sample_value_plain F _ _ (randn d) n_samples ps _ _ Sm Slv Hr)
      as (t & Et & St & Vt).
    rewrite Et in Hrun. destruct Hrun as (l & k & -> & Hk & Hnth).
    eexists _, _. split; [reflexivity|].
    cbn [self cells draws with_sample _sample].
    rewrite read_fresh, Hnth. cbn [fold_left]. auto.
Qed.

End Sampling.

Lemma sample_reparameterizes_witness :
  exists h s',
    sample noise_const 3 true standard_normal = (Ok (Some h), s')
    /\ _sample (self s') = Some h
    /\ draws s' = 1
    /\ shape (read h (cells s')) = [1; 3; 1]
    /\ forall b k i, b < 1 -> k < 3 -> i < 1 ->
         entry (read h (cells s')) [b; k; i]
         = reparameterized (noise_const 0 [b; k; i])
                           (entry (read (mkH 2 []) (cells standard_normal)) [b; i])
                           (entry (read (mkH 3 []) (cells standard_normal)) [b; i]).
Proof.
  apply (proj1 (sample_reparameterizes noise_const standard_normal
                  (m := mkH 2 []) (lv := mkH 3 []) 3
                  eq_refl eq_refl ltac:(simpl; lia) ltac:(simpl; lia)));
    reflexivity.
Defined.

(** C5, as stated, fails: on parameters with four dimensions
    ([1, 1, 1, 1], no sample dimension), [sample(3, resample=True)]
    returns a tensor of shape [1, 1, 1, 1], not [1, 3, 1, 1, 1]. *)
Lemma sample_rank4_has_no_sample_dim :
  ~ sample_inserts_sample_dim noise_const conv_normal 3.
Proof.
  intros Hclaim. destruct (Hclaim (mkH 2 []) eq_refl) as (h & s' & Hrun & Hshape).
  assert (Hc : sample noise_const 3 true conv_normal
               = (Ok (Some (mkH 5 [])),
                  snd (sample noise_const 3 true conv_normal)))
    by reflexivity.
  rewrite Hc in Hrun. injection Hrun as <- <-.
  vm_compute in Hshape. discriminate Hshape.
Qed.

(** ** [Normal.log_prob] at a tensor *)

Section Density.
Context {F : Type} `{Arith F} `{Special F}.
Variable randn : nat -> list nat -> F.

(** The Gaussian log density at [x], in the order the code computes it:
    [(log_var + log(2 pi) + (x - mean)^2 / (exp(log_var) + 1e-5)) * -0.5]. *)
Definition log_density (x mu lv : F) : F :=
  fmul (fadd (fadd lv log_2pi)
             (fdiv (fpow2 (fsub x mu)) (fadd (fexp lv) (flit (1 # 100000)))))
       (flit (- 1 # 2)).

Lemma shape_at_1 (t : tensor F) (b n : nat) (rest : list nat) :
  shape t = b :: n :: rest -> shape_at 1 t = Ok n.
Proof. intros Hs. unfold shape_at. now rewrite Hs. Qed.

(** The last line of [log_prob] on operands of one shape. *)
Lemma density_same_shape (s : list nat) (v m lv : tensor F) :
  shape v = s -> shape m = s -> shape lv = s ->
  exists t,
    (d <~ t_binop fsub v m ;;
     q <~ t_binop_ fdiv (t_map fpow2 d)
            (t_map (fun x => fadd x (flit (1 # 100000))) (t_map fexp lv)) ;;
     r <~ t_binop_ fadd (t_map (fun x => fadd x log_2pi) lv) q ;;
     Ok (t_map (fun x => fmul x (flit (- 1 # 2))) r)) = Ok t
    /\ shape t = s
    /\ forall idx, in_bounds idx s ->
         entry t idx = log_density (entry v idx) (entry m idx) (entry lv idx).
Proof.
  intros Hv Hm Hlv.
  rewrite (t_binop_same fsub v m Hv Hm). cbn [rbind].
  rewrite (t_binop__same fdiv _ _ (s := s)) by auto. cbn [rbind].
  rewrite (t_binop__same fadd _ _ (s := s)) by auto. cbn [rbind].
  eexists. split; [reflexivity|]. split; [reflexivity|].
  intros idx Hin. cbn [entry t_map]. rewrite !(bindex_same Hin). reflexivity.
Qed.

Lemma log_prob_value_lacking (m lv v : tensor F) (b n : nat) (rest : list nat) :
  shape m = b :: rest -> shape lv = b :: rest -> shape v = b :: n :: rest ->
  length rest = 1 \/ length rest = 3 ->
  exists t,
    log_prob_value m lv v = Ok t
    /\ shape t = b :: n :: rest
    /\ forall i k r,
         in_bounds (i :: k :: r) (b :: n :: rest) ->
         entry t (i :: k :: r)
         = log_density (entry v (i :: k :: r)) (entry m (i :: r))
                       (entry lv (i :: r)).
Proof.
  intros Hm Hlv Hv Hrest.
  destruct (expand_samples_spec m n Hm) as (m' & Em & Sm & Vm).
  destruct (expand_samples_spec lv n Hlv) as (lv' & El & Sl & Vl).
  assert (Hexp : (if rank m =? 2 then
                    m' <~ expand_samples [1; n; 1] m ;;
                    lv' <~ expand_samples [1; n; 1] lv ;; Ok (m', lv')
                  else if rank m =? 4 then
                    m' <~ expand_samples [1; n; 1; 1; 1] m ;;
                    lv' <~ expand_samples [1; n; 1; 1; 1] lv ;; Ok (m', lv')
                  else Ok (m, lv)) = Ok (m', lv')).
  { unfold rank. rewrite Hm. cbn [length].
    destruct Hrest as [Hr | Hr]; rewrite Hr; cbn [Nat.eqb].
    - destruct rest as [|N [|]]; try discriminate.
      cbn [map] in Em, El. now rewrite Em, El.
    - destruct rest as [|C [|Hh [|W [|]]]]; try discriminate.
      cbn [map] in Em, El. now rewrite Em, El. }
  unfold log_prob_value. rewrite (shape_at_1 v Hv). cbn [rbind].
  rewrite Hexp. cbn [rbind fst snd].
  destruct (density_same_shape _ _ _ Hv Sm Sl) as (t & Et & St & Vt).
  exists t. split; [exact Et|]. split; [exact St|].
  intros i k r Hin. rewrite (Vt _ Hin).
  inversion Hin as [|i' b' kr nrest Hi Hkr]; subst.
  inversion Hkr as [|k' n' r' rest' Hk Hr]; subst.
  rewrite Vm, Vl by (try constructor; assumption). reflexivity.
Qed.

Lemma log_prob_value_same_shape (m lv v : tensor F) (ps : list nat) :
  shape m = ps -> shape lv = ps -> shape v = ps ->
  2 <= length ps -> length ps <> 2 -> length ps <> 4 ->
  exists t,
    log_prob_value m lv v = Ok t
    /\ shape t = ps
    /\ forall idx, in_bounds idx ps ->
         entry t idx = log_density (entry v idx) (entry m idx) (entry lv idx).
Proof.
  intros Hm Hlv Hv Hlen Hn2 Hn4.
  unfold log_prob_value, rank. rewrite Hm.
  apply Nat.eqb_neq in Hn2, Hn4. rewrite Hn2, Hn4.
  destruct ps as [|b [|n rest]]; try (cbn [length] in Hlen; lia).
  rewrite (shape_at_1 v Hv). cbn [rbind fst snd].
  exact (density_same_shape _ _ _ Hv Hm Hlv).
Qed.

(** C3, amended: on a distribution whose mean and log variance are set,
    [log_prob] at a tensor returns, entry by entry, the Gaussian log
    density
    [-0.5 * (log_var + log(2 pi) + (value - mean)^2 / (exp(log_var) + 1e-5))]
    in two cases.  When the parameters have two or four dimensions,
    [batch, *dims] (the test of the code for a missing sample
    dimension), and the value has the shape [batch, n_samples, *dims],
    the entry [batch, sample, *dims] of the result reads the parameters
    at [batch, *dims]: they are repeated along the sample dimension.
    When the parameters have the shape of the value and that shape has
    three dimensions, or five or more, the entries correspond one to
    one. *)
Theorem log_prob_density (s : state (F := F)) (m lv v : handle) :
  mean (self s) = Some m -> log_var (self s) = Some lv ->
  addr m < length (cells s) -> addr lv < length (cells s) ->
  addr v < length (cells s) ->
  (forall b n rest,
      shape (read m (cells s)) = b :: rest ->
      shape (read lv (cells s)) = b :: rest ->
      shape (read v (cells s)) = b :: n :: rest ->
      length rest = 1 \/ length rest = 3 ->
      exists h s',
        log_prob randn (PyTensor v) s = (Ok h, s')
        /\ shape (read h (cells s')) = b :: n :: rest
        /\ forall i k r,
             in_bounds (i :: k :: r) (b :: n :: rest) ->
             entry (read h (cells s')) (i :: k :: r)
             = log_density (entry (read v (cells s)) (i :: k :: r))
                           (entry (read m (cells s)) (i :: r))
                           (entry (read lv (cells s)) (i :: r)))
  /\ (forall ps,
         shape (read m (cells s)) = ps ->
         shape (read lv (cells s)) = ps ->
         shape (read v (cells s)) = ps ->
         2 <= length ps -> length ps <> 2 -> length ps <> 4 ->
         exists h s',
           log_prob randn (PyTensor v) s = (Ok h, s')
           /\ shape (read h (cells s')) = ps
           /\ forall idx, in_bounds idx ps ->
                entry (read h (cells s')) idx
                = log_density (entry (read v (cells s)) idx)
                              (entry (read m (cells s)) idx)
                              (entry (read lv (cells s)) idx)).
Proof.
  destruct s as [slf c d]. cbn [self cells].
  intros Hm Hlv Vm Vlv Vv.
  pose proof (@log_prob_runs F _ _ randn slf c d m lv v Hm Hlv Vm Vlv Vv)
    as Hrun.
  split.
  - intros b n rest Sm Slv Sv Hrest.
    destruct (log_prob_value_lacking _ _ _ Sm Slv Sv Hrest)
      as (t & Et & St & Vt).
    rewrite Et in Hrun. destruct Hrun as (l & k & -> & Hk & Hnth).
    eexists _, _. split; [reflexivity|]. cbn [cells].
    rewrite read_fresh, Hnth. cbn [fold_left]. auto.
  - intros ps Sm Slv Sv Hlen Hn2 Hn4.
    destruct (log_prob_value_same_shape _ _ _ Sm Slv Sv Hlen Hn2 Hn4)
      as (t & Et & St & Vt).
    rewrite Et in Hrun. destruct Hrun as (l & k & -> & Hk & Hnth).
    eexists _, _. split; [reflexivity|]. cbn [cells].
    rewrite read_fresh, Hnth. cbn [fold_left]. auto.
Qed.

End Density.

(** The standard normal distribution with a value of three samples,
    every entry one, in cell 4. *)
Definition standard_normal_observed : state (F := R) :=
  mkState (self standard_normal)
          (cells standard_normal ++ [full [1; 3; 1] 1%R])
          0.

Lemma log_prob_density_witness :
  exists h s',
    log_prob noise_const (PyTensor (mkH 4 [])) standard_normal_observed
    = (Ok h, s')
    /\ shape (read h (cells s')) = [1; 3; 1]
    /\ forall i k r,
         in_bounds (i :: k :: r) [1; 3; 1] ->
         entry (read h (cells s')) (i :: k :: r)
         = log_density
             (entry (read (mkH 4 []) (cells standard_normal_observed)) (i :: k :: r))
             (entry (read (mkH 2 []) (cells standard_normal_observed)) (i :: r))
             (entry (read (mkH 3 []) (cells standard_normal_observed)) (i :: r)).
Proof.
  apply (proj1 (log_prob_density noise_const standard_normal_observed
                  (m := mkH 2 []) (lv := mkH 3 []) (mkH 4 [])
                  eq_refl eq_refl ltac:(simpl; lia) ltac:(simpl; lia)
                  ltac:(simpl; lia)) 1 3 [1]);
    try reflexivity.
  left. reflexivity.
Defined.

(** The claim of the specification for [log_prob(value)] in the state
    [s], whose mean and log variance are set: the call returns a tensor
    of the shape of the value whose entries are the Gaussian log
    densities, the parameters being read at the index of the entry when
    they have the dimensions of the value, and at that index without its
    sample position when they lack the sample dimension. *)
Definition log_prob_is_density {F} `{Arith F} `{Special F}
           (randn : nat -> list nat -> F) (s : state (F := F)) (v : handle)
  : Prop :=
  forall m lv, mean (self s) = Some m -> log_var (self s) = Some lv ->
    exists h s',
      log_prob randn (PyTensor v) s = (Ok h, s')
      /\ shape (read h (cells s')) = shape (read v (cells s))
      /\ forall idx, in_bounds idx (shape (read v (cells s))) ->
           let at_param := if rank (read m (cells s)) =? rank (read v (cells s))
                           then idx else remove_at 1 idx in
           entry (read h (cells s')) idx
           = log_density (entry (read v (cells s)) idx)
                         (entry (read m (cells s)) at_param)
                         (entry (read lv (cells s)) at_param).

(** A distribution over a batch of two scalars: the mean and the log
    variance have shape [2] (one dimension, no sample dimension); cell 4
    holds a value of three samples per example, of shape [2, 3]. *)
Definition batch_only_normal : state (F := R) :=
  mkState (mkNormal (mkH 0 []) (mkH 1 []) (Some (mkH 2 [])) (Some (mkH 3 [])) None)
          [full [1] 0%R; full [1] 0%R; full [2] 0%R; full [2] 0%R;
           full [2; 3] 1%R]
          0.

(** A distribution over a batch of two 2 x 2 maps without channels: the
    mean and the log variance have shape [2, 2, 2] (three dimensions, no
    sample dimension); cell 4 holds a value of three samples per
    example, of shape [2, 3, 2, 2]. *)
Definition map_normal : state (F := R) :=
  mkState (mkNormal (mkH 0 []) (mkH 1 []) (Some (mkH 2 [])) (Some (mkH 3 [])) None)
          [full [1] 0%R; full [1] 0%R; full [2; 2; 2] 0%R; full [2; 2; 2] 0%R;
           full [2; 3; 2; 2] 1%R]
          0.

(** C3, as stated, fails: the parameters are repeated along the sample
    dimension only when they have two or four dimensions.  On
    parameters of shape [2] and a value of shape [2, 3], and on
    parameters of shape [2, 2, 2] and a value of shape [2, 3, 2, 2],
    [value.sub(mean)] cannot broadcast and [log_prob] raises a
    [RuntimeError]. *)
Lemma log_prob_density_needs_rank_2_or_4 :
  ~ log_prob_is_density noise_const batch_only_normal (mkH 4 [])
  /\ fst (log_prob noise_const (PyTensor (mkH 4 [])) batch_only_normal)
     = Raise RuntimeError
  /\ ~ log_prob_is_density noise_const map_normal (mkH 4 [])
  /\ fst (log_prob noise_const (PyTensor (mkH 4 [])) map_normal)
     = Raise RuntimeError.
Proof.
  assert (H1 : fst (log_prob noise_const (PyTensor (mkH 4 [])) batch_only_normal)
               = Raise RuntimeError) by reflexivity.
  assert (H2 : fst (log_prob noise_const (PyTensor (mkH 4 [])) map_normal)
               = Raise RuntimeError) by reflexivity.
  repeat split; try assumption.
  - intros Hclaim.
    destruct (Hclaim (mkH 2 []) (mkH 3 []) eq_refl eq_refl)
      as (h & s' & Hrun & _).
    rewrite Hrun in H1. discriminate H1.
  - intros Hclaim.
    destruct (Hclaim (mkH 2 []) (mkH 3 []) eq_refl eq_refl)
      as (h & s' & Hrun & _).
    rewrite Hrun in H2. discriminate H2.
Qed.

(** ** [Normal.re_init] *)

Section ReInit.
Context {F : Type} `{Arith F} `{Special F}.

Lemma bind_inv {A B} (c : M A) (k : A -> M B) (s s' : state (F := F)) (b : B) :
  bind c k s = (Ok b, s') ->
  exists a s1, c s = (Ok a, s1) /\ k a s1 = (Ok b, s').
Proof.
  unfold bind. destruct (c s) as [[a|e] s1]; [|discriminate].
  intros Hk. now exists a, s1.
Qed.

Lemma re_init_mean_invalidates (value : option handle) (batch_size : nat)
      (sample_dim : bool) (s s' : state (F := F)) (u : unit) :
  re_init_mean value batch_size sample_dim s = (Ok u, s') ->
  _sample (self s') = None.
Proof.
  unfold re_init_mean. intros Hrun.
  repeat (apply bind_inv in Hrun; destruct Hrun as (? & ? & _ & Hrun)).
  unfold set_self in Hrun. now injection Hrun as _ <-.
Qed.



End ReInit.

Section ReInitValues.
Context {F : Type} `{Arith F} `{Special F}.

(** The tensor a parameter is reset from: the given value, or the reset
    value with a batch dimension of size one in front. *)
Definition reset_source (value : option handle) (reset : handle)
           (c : list (tensor F)) : tensor F :=
  match value with
  | Some v => read v c
  | None => view_get (VUnsqueeze 0) (read reset c)
  end.

Definition source_allocated (value : option handle) (reset : handle)
           (c : list (tensor F)) : Prop :=
  match value with
  | Some v => addr v < length c
  | None => addr reset < length c
  end.

(** The parameter [t] after a reset from [src], of shape [b0, n], to the
    batch size [b]: [src] itself when [b0 = b], else the first row of
    [src] on every row; with a sample dimension of size one at axis 1
    when [sample_dim] is true. *)
Definition reset_to (t src : tensor F) (b0 b n : nat) (sample_dim : bool) : Prop :=
  shape t = (if sample_dim then [b; 1; n] else [b; n])
  /\ forall i j, i < b -> j < n ->
       entry t (if sample_dim then [i; 0; j] else [i; j])
       = entry src [if b0 =? b then i else 0; j].

Lemma reset_to_unsqueeze (t src : tensor F) (b0 b n : nat) :
  reset_to t src b0 b n false ->
  reset_to (view_get (VUnsqueeze 1) t) src b0 b n true.
Proof.
  intros [Hs Hv]. split.
  - cbn [view_get shape]. now rewrite Hs.
  - intros i j Hi Hj. cbn [view_get entry]. now apply Hv.
Qed.

Lemma reset_to_self (src : tensor F) (b n : nat) :
  shape src = [b; n] -> reset_to src src b b n false.
Proof.
  intros Hs. split; [exact Hs|]. intros i j _ _. now rewrite Nat.eqb_refl.
Qed.

Lemma reset_to_repeat (src r : tensor F) (b0 b n : nat) :
  shape src = [b0; n] -> 0 < b0 -> b0 <> b ->
  t_repeat [b; 1] (view_get VSlice1 src) = Ok r ->
  reset_to r src b0 b n false.
Proof.
  intros Hs Hpos Hne. cbn [view_get]. rewrite Hs.
  unfold t_repeat, rank. cbn [shape length Nat.leb Nat.sub repeat app].
  replace (Nat.min 1 b0) with 1 by lia.
  intros [= <-]. split.
  - cbn [shape]. unfold map2. cbn [combine map fst snd].
    now rewrite Nat.mul_1_r, Nat.mul_1_l.
  - intros i j Hi Hj. cbn [entry skipn]. unfold map2. cbn [combine map fst snd].
    apply Nat.eqb_neq in Hne. rewrite Hne.
    now rewrite Nat.mod_1_r, (Nat.mod_small j n Hj).
Qed.

Lemma t_slice1_ok (src : tensor F) (b0 n : nat) :
  shape src = [b0; n] -> exists u, t_slice1 src = Ok u.
Proof. intros Hs. unfold t_slice1. rewrite Hs. eauto. Qed.

Lemma t_repeat_rows_ok (src : tensor F) (b b0 n : nat) :
  shape src = [b0; n] ->
  exists r, t_repeat [b; 1] (view_get VSlice1 src) = Ok r.
Proof.
  intros Hs. cbn [view_get]. rewrite Hs. unfold t_repeat, rank.
  cbn [shape length Nat.leb]. eauto.
Qed.

Lemma t_unsqueeze1_ok (t : tensor F) (ps : list nat) :
  shape t = ps -> 1 <= length ps -> exists u, t_unsqueeze 1 t = Ok u.
Proof.
  intros Hs Hl. unfold t_unsqueeze, rank. rewrite Hs.
  apply Nat.leb_le in Hl. rewrite Hl. eauto.
Qed.

End ReInitValues.

Section ReInitRuns.
Context {F : Type} `{Arith F} `{Special F}.

Lemma run_set_mean {B} (o : option handle) (k : unit -> M B)
      (s : state (F := F)) :
  bind (set_mean o) k s
  = k tt (mkState (mkNormal (mean_reset_value (self s))
                            (log_var_reset_value (self s))
                            o (log_var (self s)) (_sample (self s)))
                  (cells s) (draws s)).
Proof. reflexivity. Qed.

Lemma run_set_log_var {B} (o : option handle) (k : unit -> M B)
      (s : state (F := F)) :
  bind (set_log_var o) k s
  = k tt (mkState (mkNormal (mean_reset_value (self s))
                            (log_var_reset_value (self s))
                            (mean (self s)) o (_sample (self s)))
                  (cells s) (draws s)).
Proof. reflexivity. Qed.

Lemma t_unsqueeze0_ok (t : tensor F) :
  t_unsqueeze 0 t = Ok (view_get (VUnsqueeze 0) t).
Proof. reflexivity. Qed.

Lemma re_init_mean_runs (slf : Normal) (c : list (tensor F)) (d : nat)
      (value : option handle) (b : nat) (sd : bool) (b0 n : nat) :
  source_allocated value (mean_reset_value slf) c ->
  shape (reset_source value (mean_reset_value slf) c) = [b0; n] ->
  0 < b0 ->
  exists hm l,
    re_init_mean value b sd (mkState slf c d)
    = (Ok tt,
       mkState (mkNormal (mean_reset_value slf) (log_var_reset_value slf)
                         (Some hm) (log_var slf) None)
               (c ++ l) d)
    /\ addr hm < length (c ++ l)
    /\ reset_to (read hm (c ++ l))
                (reset_source value (mean_reset_value slf) c) b0 b n sd.
Proof.
  intros Va Hs Hpos. rewrite state_nil. unfold re_init_mean.
  rewrite run_get_self. store_simpl.
  match goal with
  | |- context [bind ?X _ _] =>
      assert (Hsrc : exists h0,
                 addr h0 < length c
                 /\ read h0 c = reset_source value (mean_reset_value slf) c
                 /\ forall B (k : handle -> M B),
                      bind X k (mkState slf (c ++ []) d)
                      = k h0 (mkState slf (c ++ []) d))
  end.
  { destruct value as [v|]; cbn [source_allocated reset_source] in *.
    - exists v. repeat split; auto.
    - eexists (mkH _ _). split; [exact Va|]. split; [apply read_view|].
      intros B k. rewrite run_op_unsqueeze. store_simpl.
      now rewrite t_unsqueeze0_ok. }
  destruct Hsrc as (h0 & V0 & R0 & Hstart). rewrite Hstart.
  rewrite <- R0 in *. clear Hstart.
  rewrite run_load. store_simpl. rewrite run_lift.
  unfold shape_at. rewrite Hs. cbn [nth_error].
  destruct (b0 =? b) eqn:Eb; cbn [negb].
  - apply Nat.eqb_eq in Eb. subst b0. rewrite run_ret.
    destruct sd.
    + rewrite run_op_unsqueeze. store_simpl.
      destruct (t_unsqueeze1_ok (read h0 c) Hs) as [u Eu]; [cbn; lia|].
      rewrite Eu, run_set_mean. store_simpl.
      eexists _, _. split; [reflexivity|].
      rewrite app_nil_r. split; [exact V0|].
      rewrite read_view. apply reset_to_unsqueeze, reset_to_self, Hs.
    + rewrite run_ret, run_set_mean. store_simpl.
      exists h0, []. split; [reflexivity|].
      rewrite app_nil_r. split; [exact V0|].
      apply reset_to_self, Hs.
  - apply Nat.eqb_neq in Eb.
    rewrite ?bind_assoc, run_op_slice1. store_simpl.
    destruct (t_slice1_ok (read h0 c) Hs) as [u Eu]. rewrite Eu.
    rewrite run_op_repeat. store_simpl.
    destruct (t_repeat_rows_ok (read h0 c) b Hs) as [r Er]. rewrite Er.
    pose proof (reset_to_repeat (read h0 c) Hs Hpos Eb Er) as Hr.
    destruct sd.
    + rewrite run_op_unsqueeze. store_simpl.
      destruct (t_unsqueeze1_ok r (proj1 Hr)) as [u1 Eu1]; [cbn; lia|].
      rewrite Eu1, run_set_mean. store_simpl.
      eexists (mkH (length c + 0) [VUnsqueeze 1]), _.
      split; [reflexivity|]. split; [rewrite length_app; cbn; lia|].
      rewrite read_fresh. cbn [fold_left nth].
      now apply reset_to_unsqueeze.
    + rewrite run_ret, run_set_mean. store_simpl.
      eexists (mkH (length c + 0) []), _.
      split; [reflexivity|]. split; [rewrite length_app; cbn; lia|].
      rewrite read_fresh. cbn [fold_left nth]. exact Hr.
Qed.

Lemma re_init_log_var_runs (slf : Normal) (c : list (tensor F)) (d : nat)
      (value : option handle) (b : nat) (sd : bool) (b0 n : nat) :
  source_allocated value (log_var_reset_value slf) c ->
  shape (reset_source value (log_var_reset_value slf) c) = [b0; n] ->
  0 < b0 ->
  exists hm l,
    re_init_log_var value b sd (mkState slf c d)
    = (Ok tt,
       mkState (mkNormal (mean_reset_value slf) (log_var_reset_value slf)
                         (mean slf) (Some hm) None)
               (c ++ l) d)
    /\ addr hm < length (c ++ l)
    /\ reset_to (read hm (c ++ l))
                (reset_source value (log_var_reset_value slf) c) b0 b n sd.
Proof.
  intros Va Hs Hpos. rewrite state_nil. unfold re_init_log_var.
  rewrite run_get_self. store_simpl.
  match goal with
  | |- context [bind ?X _ _] =>
      assert (Hsrc : exists h0,
                 addr h0 < length c
                 /\ read h0 c = reset_source value (log_var_reset_value slf) c
                 /\ forall B (k : handle -> M B),
                      bind X k (mkState slf (c ++ []) d)
                      = k h0 (mkState slf (c ++ []) d))
  end.
  { destruct value as [v|]; cbn [source_allocated reset_source] in *.
    - exists v. repeat split; auto.
    - eexists (mkH _ _). split; [exact Va|]. split; [apply read_view|].
      intros B k. rewrite run_op_unsqueeze. store_simpl.
      now rewrite t_unsqueeze0_ok. }
  destruct Hsrc as (h0 & V0 & R0 & Hstart). rewrite Hstart.
  rewrite <- R0 in *. clear Hstart.
  rewrite run_load. store_simpl. rewrite run_lift.
  unfold shape_at. rewrite Hs. cbn [nth_error].
  destruct (b0 =? b) eqn:Eb; cbn [negb].
  - apply Nat.eqb_eq in Eb. subst b0. rewrite run_ret.
    destruct sd.
    + rewrite run_op_unsqueeze. store_simpl.
      destruct (t_unsqueeze1_ok (read h0 c) Hs) as [u Eu]; [cbn; lia|].
      rewrite Eu, run_set_log_var. store_simpl.
      eexists _, _. split; [reflexivity|].
      rewrite app_nil_r. split; [exact V0|].
      rewrite read_view. apply reset_to_unsqueeze, reset_to_self, Hs.
    + rewrite run_ret, run_set_log_var. store_simpl.
      exists h0, []. split; [reflexivity|].
      rewrite app_nil_r. split; [exact V0|].
      apply reset_to_self, Hs.
  - apply Nat.eqb_neq in Eb.
    rewrite ?bind_assoc, run_op_slice1. store_simpl.
    destruct (t_slice1_ok (read h0 c) Hs) as [u Eu]. rewrite Eu.
    rewrite run_op_repeat. store_simpl.
    destruct (t_repeat_rows_ok (read h0 c) b Hs) as [r Er]. rewrite Er.
    pose proof (reset_to_repeat (read h0 c) Hs Hpos Eb Er) as Hr.
    destruct sd.
    + rewrite run_op_unsqueeze. store_simpl.
      destruct (t_unsqueeze1_ok r (proj1 Hr)) as [u1 Eu1]; [cbn; lia|].
      rewrite Eu1, run_set_log_var. store_simpl.
      eexists (mkH (length c + 0) [VUnsqueeze 1]), _.
      split; [reflexivity|]. split; [rewrite length_app; cbn; lia|].
      rewrite read_fresh. cbn [fold_left nth].
      now apply reset_to_unsqueeze.
    + rewrite run_ret, run_set_log_var. store_simpl.
      eexists (mkH (length c + 0) []), _.
      split; [reflexivity|]. split; [rewrite length_app; cbn; lia|].
      rewrite read_fresh. cbn [fold_left nth]. exact Hr.
Qed.


Lemma reset_source_app (value : option handle) (reset : handle)
      (c l : list (tensor F)) :
  source_allocated value reset c ->
  reset_source value reset (c ++ l) = reset_source value reset c
  /\ source_allocated value reset (c ++ l).
Proof.
  destruct value as [v|]; cbn [source_allocated reset_source]; intros Hv.
  - rewrite read_old by exact Hv. rewrite length_app. split; [reflexivity|lia].
  - rewrite read_old by exact Hv. rewrite length_app. split; [reflexivity|lia].
Qed.


End ReInitRuns.






(** ** Broadcasting reads operands within their bounds *)











(** ** [Normal.cdf] is monotone *)

(** The order of the scalars and the scalars that count as positive. *)
Class Order (F : Type) : Type := {
  fle : F -> F -> Prop;
  fpos : F -> Prop
}.

(** What the monotonicity of [cdf] needs of the arithmetic: every
    operation on the way from the value to the result is monotone, and
    the denominator [sqrt(2) * std + 1e-5] is positive.  The real numbers
    have these properties; binary32 has not, where an overflow leads to
    a NaN, which is below nothing. *)
Class MonotoneArith (F : Type) `{Arith F} `{Special F} `{Order F} : Prop := {
  fexp_pos : forall x, fpos (fexp x);
  denominator_pos :
    forall s, fpos s -> fpos (fadd (fmul s sqrt_2) (flit (1 # 100000)));
  fsub_mono : forall x y m, fle x y -> fle (fsub x m) (fsub y m);
  fdiv_mono : forall x y d, fpos d -> fle x y -> fle (fdiv x d) (fdiv y d);
  ferf_mono : forall x y, fle x y -> fle (ferf x) (ferf y);
  fadd_mono : forall x y c, fle x y -> fle (fadd x c) (fadd y c);
  fmul_half_mono :
    forall x y, fle x y -> fle (fmul x (flit (1 # 2))) (fmul y (flit (1 # 2)))
}.

Section CdfMonotone.
Context {F : Type} `{MonotoneArith F}.








End CdfMonotone.

Section CdfMonotoneRuns.
Context {F : Type} `{MonotoneArith F}.

Lemma runs_to_value (r : result handle * state (F := F)) (slf : Normal)
      (c : list (tensor F)) (d : nat) (t : result (tensor F)) :
  runs_to r slf c d t -> value_of r = t.
Proof.
  unfold runs_to. destruct t as [t|e].
  - intros (l & k & -> & _ & Hnth). unfold value_of. cbn [cells].
    rewrite read_fresh. cbn [fold_left]. now rewrite Hnth.
  - now intros (l & ->).
Qed.



End CdfMonotoneRuns.

(** The real numbers are ordered as the monotonicity of [cdf] needs. *)
#[global] Instance order_R : Order R := {
  fle := Rle;
  fpos := Rlt 0
}.

Lemma erf_like_mono (x y : R) : (x <= y)%R -> (Exact.erf_like x <= Exact.erf_like y)%R.
Proof.
  intros Hxy. unfold Exact.erf_like.
  apply Rmult_le_compat_l.
  - apply Rlt_le, Rdiv_lt_0_compat; [lra | apply PI_RGT_0].
  - destruct Hxy as [Hlt | ->]; [|lra]. now apply Rlt_le, atan_increasing.
Qed.

#[global] Instance monotone_R : @MonotoneArith R _ _ _.
Proof.
  constructor; cbn.
  - apply exp_pos.
  - intros s Hs.
    assert (0 < sqrt 2)%R by (apply sqrt_lt_R0; lra).
    assert (0 < Q2R (1 # 100000))%R by (unfold Q2R; cbn; lra).
    assert (0 < s * sqrt 2)%R by now apply Rmult_lt_0_compat.
    lra.
  - intros x y m Hxy. lra.
  - intros x y d Hd Hxy. unfold Rdiv. apply Rmult_le_compat_r; [|exact Hxy].
    apply Rlt_le, Rinv_0_lt_compat, Hd.
  - apply erf_like_mono.
  - intros x y c Hxy. lra.
  - intros x y Hxy. apply Rmult_le_compat_r; [|exact Hxy].
    unfold Q2R. cbn. lra.
Qed.

(** The standard normal distribution with two values of three samples:
    every entry one in cell 4, every entry two in cell 5. *)
Definition standard_normal_two_values : state (F := R) :=
  mkState (self standard_normal)
          (cells standard_normal ++ [full [1; 3; 1] 1%R; full [1; 3; 1] 2%R])
          0.


(** ** [Normal.cdf] in binary32 *)


(** The order of binary32: a comparison with a NaN is false. *)
#[global] Instance order32 : Order spec_float := {
  fle := fun x y => SFleb x y = true;
  fpos := fun x => SFltb (S754_zero false) x = true
}.

Section Special32.
(** What the tensor library returns for the arguments of [exp], [log]
    and [erf] that have no exact result: an approximation, left open. *)
Variables exp_approx log_approx erf_approx : spec_float -> spec_float.





End Special32.


Section Overflow32.
Variables exp_approx log_approx erf_approx : spec_float -> spec_float.



End Overflow32.


(** ** The reductions of [conditional_log_likelihoods] *)

Section Reductions.
Context {F : Type} `{Arith F}.

Lemma nested_sum_ext (dims : list nat) :
  forall f g : list nat -> F,
    (forall rest, length rest = length dims -> f rest = g rest) ->
    nested_sum dims f = nested_sum dims g.
Proof.
  induction dims as [|n dims IH]; intros f g Hfg; simpl.
  - now apply Hfg.
  - f_equal. apply map_ext. intros k. apply IH.
    intros rest Hlen. apply Hfg. simpl. now rewrite Hlen.
Qed.

(** Summing the last dimension first, then the others, is the nested
    sum over all of them. *)
Lemma nested_sum_snoc (dims : list nat) (n : nat) :
  forall f : list nat -> F,
    nested_sum (dims ++ [n]) f
    = nested_sum dims
        (fun rest => fsum (map (fun k => f (rest ++ [k])) (seq 0 n))).
Proof.
  induction dims as [|a dims IH]; intros f; simpl.
  - reflexivity.
  - f_equal. apply map_ext. intros k. now rewrite IH.
Qed.

Lemma remove_at_last {A} (l : list A) (x : A) :
  remove_at (length l) (l ++ [x]) = l.
Proof.
  unfold remove_at. induction l as [|y l IH]; simpl; [reflexivity|].
  f_equal. exact IH.
Qed.

Lemma insert_at_end {A} (l : list A) (x : A) :
  insert_at (length l) x l = l ++ [x].
Proof.
  unfold insert_at. now rewrite firstn_all, skipn_all.
Qed.

(** The loop of [conditional_log_likelihoods] on a tensor
    [batch, sample, *dims]: enough fuel is the number of the dimensions
    [dims], and the result is the nested sum over them. *)
Lemma sum_spatial_spec (dims : list nat) :
  forall (pre : list nat) (t : tensor F) (fuel : nat),
    length pre = 2 -> shape t = pre ++ dims -> length dims <= fuel ->
    exists t',
      sum_spatial fuel t = Ok t'
      /\ shape t' = pre
      /\ forall idx, length idx = 2 ->
           entry t' idx = nested_sum dims (fun rest => entry t (idx ++ rest)).
Proof.
  induction dims as [|n dims IH] using rev_ind; intros pre t fuel Hpre Hs Hfuel.
  - rewrite app_nil_r in Hs. exists t. split; [|split].
    + destruct fuel; [reflexivity|]. simpl. unfold rank. rewrite Hs, Hpre.
      reflexivity.
    + exact Hs.
    + intros idx _. simpl. now rewrite app_nil_r.
  - rewrite length_app in Hfuel. simpl in Hfuel.
    destruct fuel as [|fuel]; [lia|]. simpl.
    assert (Hrank : rank t = S (length (pre ++ dims))).
    { unfold rank. rewrite Hs, app_assoc, length_app. simpl. lia. }
    assert (H2 : (2 <? rank t) = true).
    { apply Nat.ltb_lt. rewrite Hrank, length_app. lia. }
    rewrite H2. unfold t_sum. rewrite Hrank. cbn [Nat.sub].
    rewrite Nat.sub_0_r.
    assert (Hlt : (length (pre ++ dims) <? S (length (pre ++ dims))) = true)
      by (apply Nat.ltb_lt; lia).
    rewrite Hlt. cbn [rbind].
    edestruct (IH pre) as (t' & Et & St & Vt);
      [exact Hpre | | | rewrite Et].
    + cbn [shape]. rewrite Hs, app_assoc. apply remove_at_last.
    + lia.
    + exists t'. split; [reflexivity|]. split; [exact St|].
      intros idx Hidx. rewrite (Vt idx Hidx), nested_sum_snoc.
      apply nested_sum_ext. intros rest Hrest. cbn [entry]. unfold fibre.
      rewrite Hs, app_assoc, nth_middle. f_equal. apply map_ext. intros k.
      f_equal.
      replace (length (pre ++ dims)) with (length (idx ++ rest))
        by (rewrite !length_app; lia).
      rewrite insert_at_end. now rewrite app_assoc.
Qed.

(** The batch mean of a tensor of one dimension. *)
Definition batch_mean (t : tensor F) : tensor F :=
  mkT []
      (fun _ => fdiv (fsum (map (fun b => entry t [b]) (seq 0 (nth 0 (shape t) 0))))
                     (fnat (nth 0 (shape t) 0))).

(** After the log-probability [lp] of shape [batch, sample, *dims], the
    method sums the dimensions [dims], averages over the samples and,
    when asked, over the batch. *)
Lemma reduce_log_prob (lp : tensor F) (averaged : bool) :
  2 <= rank lp ->
  exists r,
    (log_prob <~ sum_spatial (rank lp) lp ;;
     log_prob <~ t_mean 1 log_prob ;;
     if averaged then t_mean 0 log_prob else Ok log_prob) = Ok r
    /\ tensor_eq r (if averaged then batch_mean (reduced lp) else reduced lp).
Proof.
  intros Hrank. unfold rank in *.
  destruct (shape lp) as [|B [|S dims]] eqn:Hs; try (simpl in Hrank; lia).
  destruct (@sum_spatial_spec dims [B; S] lp (length (B :: S :: dims)))
    as (t' & Et & St & Vt); [reflexivity | exact Hs | simpl; lia |].
  rewrite Et. cbn [rbind].
  unfold t_mean at 1. unfold rank. rewrite St. cbn [length Nat.ltb Nat.leb rbind].
  assert (Hred : tensor_eq
                   (mkT (remove_at 1 [B; S])
                        (fun idx => fdiv (fsum (fibre 1 t' idx))
                                         (fnat (nth 1 [B; S] 0))))
                   (reduced lp)).
  { split.
    - cbn. now rewrite Hs.
    - cbn [shape remove_at firstn skipn app]. intros idx Hin.
      inversion Hin as [|b B' idx' rest' Hb Hnil]; subst.
      apply in_bounds_nil in Hnil. subst idx'.
      cbn [entry reduced]. unfold fibre. rewrite Hs, St.
      cbn [nth skipn]. f_equal. f_equal. apply map_ext. intros s.
      unfold insert_at. cbn [firstn skipn app].
      now rewrite (Vt [b; s] eq_refl). }
  destruct averaged.
  - unfold t_mean, rank. cbn [shape remove_at firstn skipn app length Nat.ltb Nat.leb].
    eexists. split; [reflexivity|]. split; [reflexivity|].
    intros idx Hnil. apply in_bounds_nil in Hnil. subst idx.
    cbn [entry batch_mean]. unfold fibre, insert_at. cbn [firstn skipn app].
    cbn [shape reduced]. rewrite Hs. cbn [firstn nth].
    f_equal. f_equal. apply map_ext_in. intros b Hb. apply in_seq in Hb.
    apply (proj2 Hred). cbn. repeat constructor. lia.
  - eexists. split; [reflexivity|]. exact Hred.
Qed.

End Reductions.

(** ** [Normal.log_prob] over an interval *)

Section LogMass.
Context {F : Type} `{Arith F} `{Special F}.
Variable randn : nat -> list nat -> F.

Lemma runs_to_Ok_inv (r : result handle * state (F := F)) (slf : Normal)
      (c : list (tensor F)) (d : nat) (t : tensor F) :
  runs_to r slf c d (Ok t) ->
  exists l k, r = (Ok (mkH (length c + k) []), mkState slf (c ++ l) d)
              /\ k < length l /\ nth k l empty_tensor = t.
Proof. exact (fun Hr => Hr). Qed.

Lemma runs_to_Raise_inv (r : result handle * state (F := F)) (slf : Normal)
      (c : list (tensor F)) (d : nat) (e : exn) :
  runs_to r slf c d (Raise e) ->
  exists l, r = (Raise e, mkState slf (c ++ l) d).
Proof. exact (fun Hr => Hr). Qed.

(** [log_prob((lo, hi))] computes [log(cdf(hi) - cdf(lo) + 1e-6)]. *)
Lemma log_prob_interval_value (slf : Normal) (c : list (tensor F)) (d : nat)
      (m lv lo hi : handle) :
  mean slf = Some m -> log_var slf = Some lv ->
  addr m < length c -> addr lv < length c ->
  addr lo < length c -> addr hi < length c ->
  value_of (log_prob randn (PyTuple lo hi) (mkState slf c d))
  = log_mass_value (read m c) (read lv c) (read lo c) (read hi c).
Proof.
  intros Hm Hlv Vm Vlv Vlo Vhi. unfold log_prob, log_mass_value.
  pose proof (@cdf_runs F _ _ slf c d m lv hi Hm Hlv Vm Vlv Vhi) as R1.
  destruct (cdf_value (read m c) (read lv c) (read hi c)) as [t_hi|e].
  2:{ apply runs_to_Raise_inv in R1. destruct R1 as (l1 & E1).
      unfold bind at 1. now rewrite E1. }
  apply runs_to_Ok_inv in R1. destruct R1 as (l1 & k1 & E1 & K1 & N1).
  unfold bind at 1. rewrite E1. cbn [rbind].
  assert (Vm' : addr m < length (c ++ l1)) by (rewrite length_app; lia).
  assert (Vlv' : addr lv < length (c ++ l1)) by (rewrite length_app; lia).
  assert (Vlo' : addr lo < length (c ++ l1)) by (rewrite length_app; lia).
  pose proof (@cdf_runs F _ _ slf (c ++ l1) d m lv lo Hm Hlv Vm' Vlv' Vlo')
    as R2.
  rewrite !(read_old c l1) in R2 by assumption.
  destruct (cdf_value (read m c) (read lv c) (read lo c)) as [t_lo|e].
  2:{ apply runs_to_Raise_inv in R2. destruct R2 as (l2 & E2).
      unfold bind at 1. now rewrite E2. }
  apply runs_to_Ok_inv in R2. destruct R2 as (l2 & k2 & E2 & K2 & N2).
  unfold bind at 1. rewrite E2. cbn [rbind].
  rewrite (state_nil slf ((c ++ l1) ++ l2) d), run_op_bin.
  rewrite (app_nil_r ((c ++ l1) ++ l2)).
  rewrite (read_old (c ++ l1) l2 (mkH (length c + k1) []))
    by (cbn [addr]; rewrite length_app; lia).
  rewrite !read_fresh. cbn [fold_left]. rewrite N1, N2.
  destruct (t_binop fsub t_hi t_lo) as [dd|e]; [|reflexivity].
  rewrite run_op_map, end_op_map. unfold value_of. cbn [cells length app].
  rewrite !read_fresh. cbn [fold_left nth Nat.add]. reflexivity.
Qed.

(** A [Normal] in the state [s] as the output distribution of a model:
    the argument of [log_prob] is placed in the store and the method is
    run. *)
Definition normal_distribution (s : state (F := F)) : Distribution :=
  {| dist_log_prob := fun arg =>
       match arg with
       | AtValue v =>
           value_of ((h <- alloc v ;; log_prob randn (PyTensor h)) s)
       | OverInterval lo hi =>
           value_of ((l <- alloc lo ;;
                      h <- alloc hi ;;
                      log_prob randn (PyTuple l h)) s)
       end |}.

Lemma run_alloc {B} (t : tensor F) (k : handle -> M B) (s : state (F := F)) :
  bind (alloc t) k s
  = k (mkH (length (cells s)) []) (mkState (self s) (cells s ++ [t]) (draws s)).
Proof. reflexivity. Qed.

Lemma read_last (c : list (tensor F)) (t : tensor F) :
  read (mkH (length c) []) (c ++ [t]) = t.
Proof. unfold read. cbn [addr views fold_left]. apply nth_middle. Qed.

Lemma normal_distribution_log_prob (s : state (F := F)) (m lv : handle) :
  mean (self s) = Some m -> log_var (self s) = Some lv ->
  addr m < length (cells s) -> addr lv < length (cells s) ->
  (forall v,
      dist_log_prob (normal_distribution s) (AtValue v)
      = log_prob_value (read m (cells s)) (read lv (cells s)) v)
  /\ (forall lo hi,
         dist_log_prob (normal_distribution s) (OverInterval lo hi)
         = log_mass_value (read m (cells s)) (read lv (cells s)) lo hi).
Proof.
  destruct s as [slf c d]. cbn [self cells]. intros Hm Hlv Vm Vlv. split.
  - intros v. cbn [dist_log_prob normal_distribution].
    rewrite run_alloc. cbn [self cells draws].
    assert (Vm' : addr m < length (c ++ [v])) by (rewrite length_app; lia).
    assert (Vlv' : addr lv < length (c ++ [v])) by (rewrite length_app; lia).
    assert (Vv : addr (mkH (length c) []) < length (c ++ [v]))
      by (rewrite length_app; cbn; lia).
    pose proof (@log_prob_runs F _ _ randn slf (c ++ [v]) d m lv _
                               Hm Hlv Vm' Vlv' Vv) as Hrun.
    apply runs_to_value in Hrun. rewrite Hrun.
    now rewrite !(read_old c [v]), read_last by assumption.
  - intros lo hi. cbn [dist_log_prob normal_distribution].
    rewrite run_alloc. cbn [self cells draws]. rewrite run_alloc.
    cbn [self cells draws].
    rewrite log_prob_interval_value with (m := m) (lv := lv);
      try assumption;
      try (cbn [addr]; rewrite !length_app; cbn [length]; lia).
    rewrite !(read_old (c ++ [lo]) [hi] m), !(read_old (c ++ [lo]) [hi] lv)
      by (rewrite length_app; lia).
    rewrite !(read_old c [lo]) by assumption.
    rewrite read_last.
    rewrite (read_old (c ++ [lo]) [hi]) by (cbn [addr]; rewrite length_app; cbn; lia).
    now rewrite read_last.
Qed.

End LogMass.

(** ** [Model.conditional_log_likelihoods] *)

Section CondLogLike.
Context {F : Type} `{Arith F}.

(** The observation as it is handed to the output distribution: with a
    sample dimension of size one at axis 1 when it lacks one, which the
    code decides by the number of dimensions (two or four). *)
Definition lacks_sample_dim (observation : tensor F) : bool :=
  (rank observation =? 2) || (rank observation =? 4).

Definition observed (observation : tensor F) : tensor F :=
  if lacks_sample_dim observation
  then mkT (insert_at 1 1 (shape observation))
           (fun idx => entry observation (remove_at 1 idx))
  else observation.

(** The log-probability the model asks its output distribution for: over
    the interval [(value, value + output_interval)] when the interval is
    set, at the value otherwise. *)
Definition output_log_prob (m : Model) (observation : tensor F)
  : result (tensor F) :=
  match output_interval m with
  | Some interval =>
      hi <~ py_add_r (observed observation) interval ;;
      dist_log_prob (output_dist m) (OverInterval (observed observation) hi)
  | None => dist_log_prob (output_dist m) (AtValue (observed observation))
  end.

Lemma add_sample_dim (observation : tensor F) :
  (if (rank observation =? 2) || (rank observation =? 4)
   then t_unsqueeze 1 observation
   else Ok observation) = Ok (observed observation).
Proof.
  unfold observed, lacks_sample_dim, t_unsqueeze.
  destruct (rank observation =? 2) eqn:E2.
  - apply Nat.eqb_eq in E2. rewrite E2. reflexivity.
  - destruct (rank observation =? 4) eqn:E4; [|reflexivity].
    apply Nat.eqb_eq in E4. rewrite E4. reflexivity.
Qed.

Lemma cll_unfold (m : Model) (observation : tensor F) (averaged : bool) :
  conditional_log_likelihoods m observation averaged
  = (log_prob <~ output_log_prob m observation ;;
     log_prob <~ sum_spatial (rank log_prob) log_prob ;;
     log_prob <~ t_mean 1 log_prob ;;
     if averaged then t_mean 0 log_prob else Ok log_prob).
Proof.
  unfold conditional_log_likelihoods, output_log_prob.
  rewrite add_sample_dim. cbn [rbind].
  destruct (output_interval m) as [interval|]; [|reflexivity].
  destruct (py_add_r (observed observation) interval); reflexivity.
Qed.

End CondLogLike.


(** ** [Model.conditional_log_likelihoods]: results and errors *)

Section CllFacts.
Context {F : Type} `{Arith F}.

Lemma reduce_short (lp : tensor F) (averaged : bool) :
  rank lp < 2 ->
  (log_prob <~ sum_spatial (rank lp) lp ;;
   log_prob <~ t_mean 1 log_prob ;;
   if averaged then t_mean 0 log_prob else Ok log_prob) = Raise IndexError.
Proof.
  intros Hr.
  assert (Hloop : sum_spatial (rank lp) lp = Ok lp).
  { destruct (rank lp) as [|n] eqn:E; [reflexivity|]. simpl.
    replace (2 <? rank lp) with false
      by (symmetry; apply Nat.ltb_ge; lia).
    reflexivity. }
  rewrite Hloop. cbn [rbind]. unfold t_mean.
  replace (1 <? rank lp) with false by (symmetry; apply Nat.ltb_ge; lia).
  reflexivity.
Qed.

(** X1: from the log-probability [lp] of shape [batch, sample, *dims]
    that the output distribution returns for the observation,
    [conditional_log_likelihoods] returns the sum over all of [dims],
    whatever their number, averaged over the sample dimension, and
    averaged over the batch dimension exactly when [averaged] is true. *)
Theorem cll_reduces_log_prob (m : Model) (observation lp : tensor F)
        (averaged : bool) :
  output_log_prob m observation = Ok lp ->
  2 <= rank lp ->
  exists r,
    conditional_log_likelihoods m observation averaged = Ok r
    /\ tensor_eq r (if averaged then batch_mean (reduced lp) else reduced lp).
Proof.
  intros Hlp Hrank. rewrite cll_unfold, Hlp. cbn [rbind].
  now apply reduce_log_prob.
Qed.

(** X2: [conditional_log_likelihoods] raises what the output
    distribution (or the addition of the interval) raises; it raises
    [IndexError] when the log-probability has fewer than two
    dimensions, since it averages dimension 1; in every other case it
    returns. *)
Theorem cll_returns_or_raises (m : Model) (observation : tensor F)
        (averaged : bool) :
  match output_log_prob m observation with
  | Raise e => conditional_log_likelihoods m observation averaged = Raise e
  | Ok lp =>
      if rank lp <? 2
      then conditional_log_likelihoods m observation averaged = Raise IndexError
      else is_ok (conditional_log_likelihoods m observation averaged) = true
  end.
Proof.
  rewrite cll_unfold.
  destruct (output_log_prob m observation) as [lp|e]; [|reflexivity].
  cbn [rbind]. destruct (rank lp <? 2) eqn:E.
  - apply Nat.ltb_lt in E. now apply reduce_short.
  - apply Nat.ltb_ge in E.
    destruct (reduce_log_prob lp averaged E) as (r & -> & _). reflexivity.
Qed.

End CllFacts.

Lemma cll_reduces_log_prob_witness :
  exists r,
    conditional_log_likelihoods batchR observationR true = Ok r
    /\ tensor_eq r (batch_mean
                      (reduced (column [Q2R (-90 # 1); Q2R (-85 # 1)]))).
Proof.
  apply (@cll_reduces_log_prob R _ batchR observationR
           (column [Q2R (-90 # 1); Q2R (-85 # 1)]) true).
  - reflexivity.
  - unfold rank. simpl. lia.
Defined.

(** ** [Model.kl_divergences] on levels of two or three dimensions *)

Section KlFacts.
Context {F : Type} `{Arith F}.

(** The body of the loop on a level whose KL is [batch, sample] or
    [batch, sample, n]. *)
Lemma level_kl_dense (n i : nat) (lvl : LatentLevel) (t : tensor F) :
  kl_divergence (latent lvl) (i =? n - 1) = Ok t ->
  rank t = 2 \/ rank t = 3 ->
  exists r, level_kl_of n i lvl = Ok r
            /\ tensor_eq r (reduced t) /\ shape r = firstn 1 (shape t).
Proof.
  intros Hk Hr. unfold level_kl_of. rewrite Hk. cbn [rbind].
  destruct Hr as [Hr|Hr].
  - rewrite (sum_data_dims_rank2 t Hr). cbn [rbind]. unfold t_mean.
    rewrite Hr. cbn [Nat.ltb Nat.leb]. unfold rank in Hr.
    destruct (shape t) as [|B [|S [|N rest]]] eqn:Hs; try discriminate.
    eexists. split; [reflexivity|]. split; [|reflexivity]. split.
    + cbn. now rewrite Hs.
    + cbn [shape remove_at firstn skipn app]. intros idx Hin.
      inversion Hin as [|b B' idx' rest' Hb Hnil]; subst.
      apply in_bounds_nil in Hnil. subst idx'.
      cbn [entry reduced]. unfold fibre. rewrite Hs. reflexivity.
  - rewrite (sum_data_dims_rank3 t Hr). unfold t_sum. rewrite Hr.
    cbn [Nat.ltb Nat.leb rbind]. unfold t_mean, rank. unfold rank in Hr.
    destruct (shape t) as [|B [|S [|N [|N' rest]]]] eqn:Hs; try discriminate.
    cbn [shape remove_at firstn skipn app length Nat.ltb Nat.leb].
    eexists. split; [reflexivity|]. split; [|reflexivity]. split.
    + cbn. now rewrite Hs.
    + cbn [shape]. intros idx Hin.
      inversion Hin as [|b B' idx' rest' Hb Hnil]; subst.
      apply in_bounds_nil in Hnil. subst idx'.
      cbn [entry reduced]. unfold fibre. rewrite Hs.
      cbn [shape entry nth skipn]. reflexivity.
Qed.

(** The body of the loop on a level whose KL has fewer than two or more
    than three dimensions. *)
Lemma level_kl_other (n i : nat) (lvl : LatentLevel) (t : tensor F) :
  kl_divergence (latent lvl) (i =? n - 1) = Ok t ->
  rank t <> 2 -> rank t <> 3 ->
  level_kl_of n i lvl = Raise IndexError.
Proof.
  intros Hk H2 H3. unfold level_kl_of. rewrite Hk. cbn [rbind].
  destruct (Nat.le_gt_cases 4 (rank t)) as [Hge|Hlt].
  - now rewrite (sum_data_dims_conv t Hge).
  - assert (Hr : rank t < 2) by lia.
    unfold sum_data_dims. replace (rank t - 2) with 0 by lia.
    cbn [seq fold_left rbind]. unfold t_mean.
    replace (1 <? rank t) with false by (symmetry; apply Nat.ltb_ge; lia).
    reflexivity.
Qed.

(** A level is dense at the position [j] of a model of [n] levels when
    its KL, asked for with the flag the loop passes, has two or three
    dimensions. *)
Definition dense_level (n j : nat) (lvl : LatentLevel (F := F)) : Prop :=
  exists t : tensor F, kl_divergence (latent lvl) (j =? n - 1) = Ok t
            /\ (rank t = 2 \/ rank t = 3).

Lemma kl_loop_dense (n : nat) (levels : list LatentLevel) :
  forall i,
    (forall j lvl, nth_error levels j = Some lvl -> dense_level n (i + j) lvl) ->
    exists kls,
      kl_loop n i levels = Ok kls
      /\ length kls = length levels
      /\ forall j lvl t,
           nth_error levels j = Some lvl ->
           kl_divergence (latent lvl) (i + j =? n - 1) = Ok t ->
           exists r, nth_error kls j = Some r
                     /\ tensor_eq r (reduced t)
                     /\ shape r = firstn 1 (shape t).
Proof.
  induction levels as [|lvl levels IH]; intros i Hall.
  - exists []. split; [reflexivity|]. split; [reflexivity|].
    intros [|j] l t Hj; discriminate.
  - destruct (Hall 0 lvl eq_refl) as (t0 & Hk0 & Hr0).
    rewrite Nat.add_0_r in Hk0.
    destruct (level_kl_dense n i lvl Hk0 Hr0) as (r0 & E0 & T0 & S0).
    destruct (IH (S i)) as (kls & Ekls & Lkls & Vkls).
    { intros j l Hj. replace (S i + j) with (i + S j) by lia.
      now apply Hall. }
    exists (r0 :: kls). cbn [kl_loop]. rewrite E0. cbn [rbind].
    rewrite Ekls. cbn [rbind]. split; [reflexivity|].
    split; [simpl; now rewrite Lkls|].
    intros [|j] l t Hj Hk.
    + injection Hj as <-. rewrite Nat.add_0_r in Hk.
      rewrite Hk0 in Hk. injection Hk as <-.
      exists r0. auto.
    + cbn [nth_error] in *. apply (Vkls j l t Hj).
      now replace (S i + j) with (i + S j) by lia.
Qed.

Lemma kl_loop_other (n : nat) (levels : list LatentLevel) :
  forall i j lvl t,
    nth_error levels j = Some lvl ->
    (forall j' lvl', j' < j -> nth_error levels j' = Some lvl' ->
                     dense_level n (i + j') lvl') ->
    kl_divergence (latent lvl) (i + j =? n - 1) = Ok t ->
    rank t <> 2 -> rank t <> 3 ->
    kl_loop n i levels = Raise IndexError.
Proof.
  induction levels as [|lvl0 levels IH]; intros i j lvl t Hj Hbefore Hk H2 H3.
  - destruct j; discriminate.
  - destruct j as [|j].
    + injection Hj as <-. rewrite Nat.add_0_r in Hk. cbn [kl_loop].
      now rewrite (level_kl_other n i lvl0 Hk H2 H3).
    + cbn [nth_error] in Hj.
      destruct (Hbefore 0 lvl0 (Nat.lt_0_succ j) eq_refl) as (t0 & Hk0 & Hr0).
      rewrite Nat.add_0_r in Hk0.
      destruct (level_kl_dense n i lvl0 Hk0 Hr0) as (r0 & E0 & _).
      cbn [kl_loop]. rewrite E0. cbn [rbind].
      rewrite (IH (S i) j lvl t Hj); [reflexivity | | | exact H2 | exact H3].
      * intros j' lvl' Hlt Hj'. replace (S i + j') with (i + S j') by lia.
        apply Hbefore; [lia | exact Hj'].
      * now replace (S i + j) with (i + S j) by lia.
Qed.

Lemma mean_each_spec (kls : list (tensor F)) :
  (forall r, In r kls -> rank r = 1) ->
  exists ms,
    mean_each kls = Ok ms
    /\ length ms = length kls
    /\ forall j r, nth_error kls j = Some r ->
         exists m', nth_error ms j = Some m' /\ tensor_eq m' (batch_mean r).
Proof.
  induction kls as [|k kls IH]; intros Hall.
  - exists []. split; [reflexivity|]. split; [reflexivity|].
    intros [|j] r Hj; discriminate.
  - destruct IH as (ms & Ems & Lms & Vms).
    { intros r Hr. apply Hall. now right. }
    assert (Hk : rank k = 1) by (apply Hall; now left).
    unfold rank in Hk.
    destruct (shape k) as [|B [|? ?]] eqn:Hs; try discriminate.
    cbn [mean_each]. rewrite (t_mean0_vec k Hs). cbn [rbind].
    rewrite Ems. cbn [rbind]. eexists. split; [reflexivity|].
    split; [simpl; now rewrite Lms|].
    intros [|j] r Hj.
    + injection Hj as <-. eexists. split; [reflexivity|].
      split; [reflexivity|]. cbn [shape]. intros idx Hnil.
      apply in_bounds_nil in Hnil. subst idx.
      cbn [entry batch_mean]. now rewrite Hs.
    + cbn [nth_error] in *. now apply Vms.
Qed.

Lemma batch_mean_eq (r t : tensor F) (B : nat) :
  shape r = [B] -> tensor_eq r t -> tensor_eq (batch_mean r) (batch_mean t).
Proof.
  intros HB [Hs He]. split; [reflexivity|]. intros idx _.
  cbn [entry batch_mean]. rewrite <- Hs, HB. cbn [nth]. f_equal. f_equal.
  apply map_ext_in. intros b Hb. apply in_seq in Hb. apply He.
  rewrite HB. repeat constructor. lia.
Qed.

Lemma tensor_eq_trans (a b c : tensor F) :
  tensor_eq a b -> tensor_eq b c -> tensor_eq a c.
Proof.
  intros [S1 E1] [S2 E2]. split; [congruence|].
  intros idx Hin. rewrite E1 by assumption. apply E2. now rewrite <- S1.
Qed.

(** X3: when the KL of every level, asked for with the flag
    [level_ind == len(latent_levels) - 1] (analytic for the last level
    only), has two or three dimensions, [kl_divergences] returns one
    value per level, in the order of the levels: the level's KL summed
    over its feature dimension, averaged over the sample dimension, and
    averaged over the batch dimension exactly when [averaged] is
    true. *)
Theorem kl_divergences_dense (m : Model) (averaged : bool) :
  (forall j lvl, nth_error (latent_levels m) j = Some lvl ->
                 dense_level (length (latent_levels m)) j lvl) ->
  exists kls : list (tensor F),
    kl_divergences m averaged = Ok kls
    /\ length kls = length (latent_levels m)
    /\ forall j lvl t,
         nth_error (latent_levels m) j = Some lvl ->
         kl_divergence (latent lvl) (j =? length (latent_levels m) - 1) = Ok t ->
         exists r, nth_error kls j = Some r
                   /\ tensor_eq r (if averaged then batch_mean (reduced t)
                                   else reduced t).
Proof.
  intros Hall. unfold kl_divergences.
  destruct (@kl_loop_dense (length (latent_levels m)) (latent_levels m) 0 Hall)
    as (kls & Ekls & Lkls & Vkls).
  rewrite Ekls. cbn [rbind]. destruct averaged.
  - destruct (@mean_each_spec kls) as (ms & Ems & Lms & Vms).
    { intros r Hr. apply In_nth_error in Hr. destruct Hr as (j & Hj).
      assert (Hlt : j < length (latent_levels m)).
      { rewrite <- Lkls. apply nth_error_Some. congruence. }
      destruct (nth_error (latent_levels m) j) as [lvl|] eqn:El;
        [|apply nth_error_None in El; lia].
      destruct (Hall j lvl El) as (t & Hk & Hr).
      destruct (Vkls j lvl t El Hk) as (r' & Hr' & _ & Sr').
      rewrite Hj in Hr'. injection Hr' as <-.
      unfold rank in *. rewrite Sr'.
      destruct (shape t) as [|? [|? ?]]; simpl in *; destruct Hr; try lia;
        reflexivity. }
    exists ms. split; [exact Ems|]. split; [congruence|].
    intros j lvl t El Hk.
    destruct (Vkls j lvl t El Hk) as (r & Hr & Tr & Sr).
    destruct (Vms j r Hr) as (m' & Hm' & Tm').
    exists m'. split; [exact Hm'|].
    apply (tensor_eq_trans Tm').
    destruct (Hall j lvl El) as (t' & Hk' & Hrk).
    simpl in Hk'. rewrite Hk in Hk'. injection Hk' as <-.
    unfold rank in Hrk.
    destruct (shape t) as [|B [|? ?]] eqn:Hs;
      try (simpl in Hrk; destruct Hrk; discriminate).
    apply batch_mean_eq with (B := B); [exact Sr | exact Tr].
  - exists kls. split; [reflexivity|]. split; [exact Lkls|].
    intros j lvl t El Hk.
    destruct (Vkls j lvl t El Hk) as (r & Hr & Tr & _). eauto.
Qed.

(** X4: when the levels before the level of index [j] have KLs of two or
    three dimensions and the KL of that level has any other number of
    dimensions, [kl_divergences] raises [IndexError]: with fewer than
    two dimensions there is no sample dimension to average, and with
    four or more the loop over [range(2, rank)] asks for a dimension
    that the sums before it have removed. *)
Theorem kl_divergences_off_rank (m : Model) (averaged : bool) (j : nat)
        (lvl : LatentLevel) (t : tensor F) :
  nth_error (latent_levels m) j = Some lvl ->
  (forall j' lvl', j' < j -> nth_error (latent_levels m) j' = Some lvl' ->
                   dense_level (length (latent_levels m)) j' lvl') ->
  kl_divergence (latent lvl) (j =? length (latent_levels m) - 1) = Ok t ->
  rank t <> 2 -> rank t <> 3 ->
  kl_divergences m averaged = Raise IndexError.
Proof.
  intros Hj Hbefore Hk H2 H3. unfold kl_divergences.
  now rewrite (@kl_loop_other (length (latent_levels m)) (latent_levels m)
                 0 j lvl t Hj Hbefore Hk H2 H3).
Qed.

End KlFacts.

Lemma kl_divergences_dense_witness :
  exists kls : list (tensor R),
    kl_divergences batchR true = Ok kls
    /\ length kls = 1
    /\ forall j lvl t,
         nth_error (latent_levels batchR) j = Some lvl ->
         kl_divergence (latent lvl) (j =? 1 - 1) = Ok t ->
         exists r, nth_error kls j = Some r
                   /\ tensor_eq r (batch_mean (reduced t)).
Proof.
  apply (@kl_divergences_dense R _ batchR true).
  intros [|[|j]] lvl Hj; try discriminate.
  injection Hj as <-. eexists. split; [reflexivity|]. left. reflexivity.
Defined.

(** A model of two levels: the KL of the first is [batch, sample], the KL
    of the second has two feature dimensions. *)
Definition dense_then_conv : Model (F := R) :=
  {| latent_levels := [level_with_kl (column [Q2R (1 # 10); Q2R (2 # 10)]);
                       level_with_kl (full [2; 1; 1; 1] (Q2R 0))];
     output_dist := {| dist_log_prob := fun _ => Raise RuntimeError |};
     output_interval := None |}.

Lemma kl_divergences_off_rank_witness :
  kl_divergences dense_then_conv false = Raise IndexError.
Proof.
  apply (@kl_divergences_off_rank R _ dense_then_conv false 1
           (level_with_kl (full [2; 1; 1; 1] (Q2R 0)))
           (full [2; 1; 1; 1] (Q2R 0))).
  - reflexivity.
  - intros [|j'] lvl' Hlt Hj'; [|lia]. injection Hj' as <-.
    eexists. split; [reflexivity|]. left. reflexivity.
  - reflexivity.
  - unfold rank. simpl. lia.
  - unfold rank. simpl. lia.
Defined.

(** ** [Model.losses] *)

Section Losses.
Context {F : Type} `{Arith F}.

(** [Model.losses(observation, averaged, anneal_weight)]: the tuple
    [(elbo, cond_log_like, kl)]. *)
Definition losses (m : Model) (observation : tensor F) (averaged : bool)
           (anneal_weight : F)
  : result (tensor F * tensor F * list (tensor F)) :=
  cond_log_like <~ conditional_log_likelihoods m observation false ;;
  kl <~ kl_divergences m false ;;
  kl_sum <~ py_sum kl ;;
  elbo <~ py_sub cond_log_like (py_rmul anneal_weight kl_sum) ;;
  if averaged then
    elbo_mean <~ t_mean 0 elbo ;;
    cond_log_like_mean <~ t_mean 0 cond_log_like ;;
    kl_means <~ mean_each kl ;;
    Ok (elbo_mean, cond_log_like_mean, kl_means)
  else Ok (elbo, cond_log_like, kl).

(** X5: [losses] returns exactly what [elbo], [conditional_log_likelihoods]
    and [kl_divergences] return for the same arguments, in that order,
    and raises exactly when one of them does, with the exception of the
    first that raises. *)
Theorem losses_are_the_parts (m : Model) (observation : tensor F)
        (averaged : bool) (anneal_weight : F) :
  losses m observation averaged anneal_weight
  = (e <~ elbo m observation averaged anneal_weight ;;
     c <~ conditional_log_likelihoods m observation averaged ;;
     k <~ kl_divergences m averaged ;;
     Ok (e, c, k)).
Proof.
  unfold losses. destruct averaged.
  - rewrite cll_averaged, kl_averaged. unfold elbo.
    destruct (conditional_log_likelihoods m observation false) as [c|];
      [|reflexivity].
    cbn [rbind].
    destruct (kl_divergences m false) as [kls|]; [|reflexivity].
    cbn [rbind]. destruct (py_sum kls) as [s|]; [|reflexivity].
    cbn [rbind].
    destruct (py_sub c (py_rmul anneal_weight s)) as [e|]; [|reflexivity].
    cbn [rbind]. destruct (t_mean 0 e); [|reflexivity]. cbn [rbind].
    destruct (t_mean 0 c); [|reflexivity]. cbn [rbind].
    destruct (mean_each kls); reflexivity.
  - unfold elbo.
    destruct (conditional_log_likelihoods m observation false) as [c|];
      [|reflexivity].
    cbn [rbind].
    destruct (kl_divergences m false) as [kls|]; [|reflexivity].
    cbn [rbind]. destruct (py_sum kls) as [s|]; [|reflexivity].
    cbn [rbind].
    destruct (py_sub c (py_rmul anneal_weight s)); reflexivity.
Qed.

End Losses.

(** ** [Normal.log_prob] over an interval, as a run *)

Section IntervalRuns.
Context {F : Type} `{Arith F} `{Special F}.
Variable randn : nat -> list nat -> F.

(** [log_prob((lo, hi))] computes [log_mass_value] in fresh cells. *)
Lemma log_prob_interval_runs (slf : Normal) (c : list (tensor F)) (d : nat)
      (m lv lo hi : handle) :
  mean slf = Some m -> log_var slf = Some lv ->
  addr m < length c -> addr lv < length c ->
  addr lo < length c -> addr hi < length c ->
  runs_to (log_prob randn (PyTuple lo hi) (mkState slf c d)) slf c d
          (log_mass_value (read m c) (read lv c) (read lo c) (read hi c)).
Proof.
  intros Hm Hlv Vm Vlv Vlo Vhi. unfold log_prob, log_mass_value.
  pose proof (@cdf_runs F _ _ slf c d m lv hi Hm Hlv Vm Vlv Vhi) as R1.
  destruct (cdf_value (read m c) (read lv c) (read hi c)) as [t_hi|e].
  2:{ apply runs_to_Raise_inv in R1. destruct R1 as (l1 & E1).
      unfold bind at 1. rewrite E1. exists l1. reflexivity. }
  apply runs_to_Ok_inv in R1. destruct R1 as (l1 & k1 & E1 & K1 & N1).
  unfold bind at 1. rewrite E1. cbn [rbind].
  assert (Vm' : addr m < length (c ++ l1)) by (rewrite length_app; lia).
  assert (Vlv' : addr lv < length (c ++ l1)) by (rewrite length_app; lia).
  assert (Vlo' : addr lo < length (c ++ l1)) by (rewrite length_app; lia).
  pose proof (@cdf_runs F _ _ slf (c ++ l1) d m lv lo Hm Hlv Vm' Vlv' Vlo')
    as R2.
  rewrite !(read_old c l1) in R2 by assumption.
  destruct (cdf_value (read m c) (read lv c) (read lo c)) as [t_lo|e].
  2:{ apply runs_to_Raise_inv in R2. destruct R2 as (l2 & E2).
      unfold bind at 1. rewrite E2. exists (l1 ++ l2).
      now rewrite app_assoc. }
  apply runs_to_Ok_inv in R2. destruct R2 as (l2 & k2 & E2 & K2 & N2).
  unfold bind at 1. rewrite E2. cbn [rbind].
  rewrite <- (app_assoc c l1 l2).
  replace (length (c ++ l1) + k2) with (length c + (length l1 + k2))
    by (rewrite length_app; lia).
  rewrite run_op_bin. rewrite !read_fresh. cbn [fold_left].
  rewrite (app_nth1 l1 l2 empty_tensor K1), N1.
  rewrite (nth_app_plus l1 l2 k2 empty_tensor), N2.
  destruct (t_binop fsub t_hi t_lo) as [dd|e]; [|raised].
  cbn [rbind]. rewrite run_op_map, end_op_map.
  rewrite !read_fresh. cbn [fold_left].
  rewrite !nth_middle.
  unfold runs_to. eexists _, _. split; [reflexivity|].
  split; [rewrite !length_app; cbn [length]; lia|].
  apply nth_middle.
Qed.

(** X6: on a distribution whose mean and log variance are set,
    [log_prob((lo, hi))] returns [log(cdf(hi) - cdf(lo) + 1e-6)], where
    [cdf(hi)] and [cdf(lo)] are what [cdf] returns in the same state; it
    raises what [cdf(hi)], then [cdf(lo)], then the subtraction raise;
    and it leaves the attributes of the distribution and every tensor
    that existed before the call as they were. *)
Theorem log_prob_over_interval (s : state (F := F)) (m lv lo hi : handle) :
  mean (self s) = Some m -> log_var (self s) = Some lv ->
  addr m < length (cells s) -> addr lv < length (cells s) ->
  addr lo < length (cells s) -> addr hi < length (cells s) ->
  value_of (log_prob randn (PyTuple lo hi) s)
  = (c_hi <~ value_of (cdf hi s) ;;
     c_lo <~ value_of (cdf lo s) ;;
     d <~ t_binop fsub c_hi c_lo ;;
     Ok (t_map flog (t_map (fun x => fadd x (flit (1 # 1000000))) d)))
  /\ unchanged s (snd (log_prob randn (PyTuple lo hi) s)).
Proof.
  destruct s as [slf c d]. cbn [self cells]. intros Hm Hlv Vm Vlv Vlo Vhi.
  pose proof (@log_prob_interval_runs slf c d m lv lo hi Hm Hlv Vm Vlv Vlo Vhi)
    as Hrun.
  split.
  - pose proof (@cdf_runs F _ _ slf c d m lv hi Hm Hlv Vm Vlv Vhi) as Ehi.
    pose proof (@cdf_runs F _ _ slf c d m lv lo Hm Hlv Vm Vlv Vlo) as Elo.
    apply runs_to_value in Hrun, Ehi, Elo. rewrite Hrun, Ehi, Elo.
    reflexivity.
  - eapply runs_to_unchanged. exact Hrun.
Qed.

End IntervalRuns.

Lemma log_prob_over_interval_witness :
  value_of (log_prob noise_const (PyTuple (mkH 4 []) (mkH 5 []))
                     standard_normal_two_values)
  = (c_hi <~ value_of (cdf (mkH 5 []) standard_normal_two_values) ;;
     c_lo <~ value_of (cdf (mkH 4 []) standard_normal_two_values) ;;
     d <~ t_binop fsub c_hi c_lo ;;
     Ok (t_map flog (t_map (fun x => fadd x (flit (1 # 1000000))) d)))
  /\ unchanged standard_normal_two_values
               (snd (log_prob noise_const (PyTuple (mkH 4 []) (mkH 5 []))
                              standard_normal_two_values)).
Proof.
  apply (log_prob_over_interval noise_const standard_normal_two_values
           (m := mkH 2 []) (lv := mkH 3 []) (mkH 4 []) (mkH 5 []));
    try reflexivity; simpl; lia.
Defined.

(** ** The values of [Normal.cdf] *)

Section CdfValues.
Context {F : Type} `{Arith F} `{Special F}.

(** The Gaussian cumulative distribution function at [x], in the order
    the code computes it:
    [(erf((x - mean) / (exp(0.5 * log_var) * sqrt(2) + 1e-5)) + 1) * 0.5]. *)
Definition normal_cdf (x mu lv : F) : F :=
  fmul (fadd (ferf (fdiv (fsub x mu)
                         (fadd (fmul (fexp (fmul lv (flit (1 # 2)))) sqrt_2)
                               (flit (1 # 100000)))))
             (flit 1))
       (flit (1 # 2)).

(** The last line of [cdf] on operands of one shape. *)
Lemma cdf_same_shape (s : list nat) (v m std : tensor F) :
  shape v = s -> shape m = s -> shape std = s ->
  exists t,
    (d <~ t_binop fsub v m ;;
     q <~ t_binop fdiv d
            (t_map (fun x => fadd x (flit (1 # 100000)))
                   (t_map (fun x => fmul x sqrt_2) std)) ;;
     Ok (t_map (fun x => fmul x (flit (1 # 2)))
               (t_map (fun x => fadd x (flit 1)) (t_map ferf q)))) = Ok t
    /\ shape t = s
    /\ forall idx, in_bounds idx s ->
         entry t idx
         = fmul (fadd (ferf (fdiv (fsub (entry v idx) (entry m idx))
                                  (fadd (fmul (entry std idx) sqrt_2)
                                        (flit (1 # 100000)))))
                      (flit 1))
                (flit (1 # 2)).
Proof.
  intros Hv Hm Hstd.
  rewrite (t_binop_same fsub v m Hv Hm). cbn [rbind].
  rewrite (t_binop_same fdiv _ _ (s := s)) by auto. cbn [rbind].
  eexists. split; [reflexivity|]. split; [reflexivity|].
  intros idx Hin. cbn [entry t_map]. rewrite !(bindex_same Hin). reflexivity.
Qed.

Lemma cdf_value_dense (m lv v : tensor F) (B S N : nat) :
  shape m = [B; N] -> shape lv = [B; N] -> shape v = [B; S; N] ->
  exists t,
    cdf_value m lv v = Ok t
    /\ shape t = [B; S; N]
    /\ forall b k i, b < B -> k < S -> i < N ->
         entry t [b; k; i]
         = normal_cdf (entry v [b; k; i]) (entry m [b; i]) (entry lv [b; i]).
Proof.
  intros Hm Hlv Hv. unfold cdf_value, rank.
  rewrite (shape_at_1 v Hv), Hm. cbn [rbind length Nat.eqb].
  destruct (expand_samples_spec m S Hm) as (m' & Em & Sm & Vm).
  destruct (expand_samples_spec (std_value lv) S (b := B) (rest := [N]))
    as (s' & Es & Ss & Vs); [exact Hlv|].
  cbn [map] in Em, Es. rewrite Em, Es. cbn [rbind fst snd].
  destruct (@cdf_same_shape [B; S; N] v m' s' Hv Sm Ss) as (t & Et & St & Vt).
  exists t. split; [exact Et|]. split; [exact St|].
  intros b k i Hb Hk Hi.
  rewrite Vt by (repeat constructor; assumption).
  rewrite Vm, Vs by (repeat constructor; assumption). reflexivity.
Qed.

Lemma cdf_value_plain (m lv v : tensor F) (ps : list nat) :
  shape m = ps -> shape lv = ps -> shape v = ps ->
  2 <= length ps -> length ps <> 2 ->
  exists t,
    cdf_value m lv v = Ok t
    /\ shape t = ps
    /\ forall idx, in_bounds idx ps ->
         entry t idx = normal_cdf (entry v idx) (entry m idx) (entry lv idx).
Proof.
  intros Hm Hlv Hv Hlen Hn2. unfold cdf_value, rank. rewrite Hm.
  apply Nat.eqb_neq in Hn2. rewrite Hn2.
  destruct ps as [|b [|n rest]]; try (cbn [length] in Hlen; lia).
  rewrite (shape_at_1 v Hv). cbn [rbind fst snd].
  destruct (@cdf_same_shape (b :: n :: rest) v m (std_value lv) Hv Hm Hlv)
    as (t & Et & St & Vt).
  exists t. split; [exact Et|]. split; [exact St|].
  intros idx Hin. now rewrite Vt.
Qed.

(** X7: on a distribution whose mean and log variance are set, [cdf]
    returns, entry by entry,
    [(erf((value - mean) / (exp(0.5 * log_var) * sqrt(2) + 1e-5)) + 1) * 0.5].
    Parameters of shape [batch, n] are repeated along the sample
    dimension of a value of shape [batch, n_samples, n]; parameters with
    more than two dimensions and the shape of the value are read at the
    index of the entry. *)
Theorem cdf_formula (s : state (F := F)) (m lv v : handle) :
  mean (self s) = Some m -> log_var (self s) = Some lv ->
  addr m < length (cells s) -> addr lv < length (cells s) ->
  addr v < length (cells s) ->
  (forall B S N,
      shape (read m (cells s)) = [B; N] ->
      shape (read lv (cells s)) = [B; N] ->
      shape (read v (cells s)) = [B; S; N] ->
      exists h s',
        cdf v s = (Ok h, s')
        /\ shape (read h (cells s')) = [B; S; N]
        /\ forall b k i, b < B -> k < S -> i < N ->
             entry (read h (cells s')) [b; k; i]
             = normal_cdf (entry (read v (cells s)) [b; k; i])
                          (entry (read m (cells s)) [b; i])
                          (entry (read lv (cells s)) [b; i]))
  /\ (forall ps,
         shape (read m (cells s)) = ps ->
         shape (read lv (cells s)) = ps ->
         shape (read v (cells s)) = ps ->
         2 <= length ps -> length ps <> 2 ->
         exists h s',
           cdf v s = (Ok h, s')
           /\ shape (read h (cells s')) = ps
           /\ forall idx, in_bounds idx ps ->
                entry (read h (cells s')) idx
                = normal_cdf (entry (read v (cells s)) idx)
                             (entry (read m (cells s)) idx)
                             (entry (read lv (cells s)) idx)).
Proof.
  destruct s as [slf c d]. cbn [self cells].
  intros Hm Hlv Vm Vlv Vv.
  pose proof (@cdf_runs F _ _ slf c d m lv v Hm Hlv Vm Vlv Vv) as Hrun.
  split.
  - intros B S N Sm Slv Sv.
    destruct (cdf_value_dense _ _ _ Sm Slv Sv) as (t & Et & St & Vt).
    rewrite Et in Hrun. destruct Hrun as (l & k & -> & Hk & Hnth).
    eexists _, _. split; [reflexivity|]. cbn [cells].
    rewrite read_fresh, Hnth. cbn [fold_left]. auto.
  - intros ps Sm Slv Sv Hlen Hn2.
    destruct (cdf_value_plain _ _ _ Sm Slv Sv Hlen Hn2) as (t & Et & St & Vt).
    rewrite Et in Hrun. destruct Hrun as (l & k & -> & Hk & Hnth).
    eexists _, _. split; [reflexivity|]. cbn [cells].
    rewrite read_fresh, Hnth. cbn [fold_left]. auto.
Qed.

End CdfValues.

Lemma cdf_formula_witness :
  exists h s',
    cdf (mkH 4 []) standard_normal_observed = (Ok h, s')
    /\ shape (read h (cells s')) = [1; 3; 1]
    /\ forall b k i, b < 1 -> k < 3 -> i < 1 ->
         entry (read h (cells s')) [b; k; i]
         = normal_cdf
             (entry (read (mkH 4 []) (cells standard_normal_observed)) [b; k; i])
             (entry (read (mkH 2 []) (cells standard_normal_observed)) [b; i])
             (entry (read (mkH 3 []) (cells standard_normal_observed)) [b; i]).
Proof.
  apply (proj1 (cdf_formula standard_normal_observed
                  (m := mkH 2 []) (lv := mkH 3 []) (mkH 4 [])
                  eq_refl eq_refl ltac:(simpl; lia) ltac:(simpl; lia)
                  ltac:(simpl; lia)) 1 3 1);
    reflexivity.
Defined.

(** ** Values without a sample dimension, and intervals on an unset
       distribution *)

Section ValueErrors.
Context {F : Type} `{Arith F} `{Special F}.
Variable randn : nat -> list nat -> F.

Lemma shape_at_1_short (t : tensor F) :
  rank t < 2 -> shape_at 1 t = Raise IndexError.
Proof.
  unfold rank, shape_at. destruct (shape t) as [|a [|b r]]; cbn; intros Hr;
    try reflexivity; lia.
Qed.

Lemma shape_at_1_long (t : tensor F) :
  2 <= rank t -> exists n, shape_at 1 t = Ok n.
Proof.
  unfold rank, shape_at. destruct (shape t) as [|a [|b r]]; cbn; intros Hr;
    try lia. eauto.
Qed.

(** X8: a value with fewer than two dimensions has no sample dimension
    to read [n_samples] from: [cdf] raises [IndexError] before it looks
    at the parameters (set or not), [log_prob] raises it once its
    assertion has passed, and neither changes anything. *)
Theorem value_needs_sample_dim (s : state (F := F)) (v : handle) :
  rank (read v (cells s)) < 2 ->
  cdf v s = (Raise IndexError, s)
  /\ (forall m lv,
         mean (self s) = Some m -> log_var (self s) = Some lv ->
         log_prob randn (PyTensor v) s = (Raise IndexError, s)).
Proof.
  intros Hr. split.
  - unfold cdf. rewrite run_load, run_lift.
    now rewrite (shape_at_1_short _ Hr).
  - intros m lv Hm Hlv. unfold log_prob.
    rewrite run_ret, run_get_self, Hm, Hlv, run_assert.
    cbn [is_none negb andb]. rewrite run_attr, run_load, run_lift.
    now rewrite (shape_at_1_short _ Hr).
Qed.

(** X9: on a distribution whose mean or log variance is unset, [cdf] of
    a value with a sample dimension raises [AttributeError], and so does
    [log_prob] over an interval, which does not reach the assertion of
    the density branch; the attributes of the distribution stay as they
    were. *)
Theorem interval_on_unset (s : state (F := F)) (lo hi : handle) :
  mean (self s) = None \/ log_var (self s) = None ->
  2 <= rank (read hi (cells s)) ->
  exists s',
    cdf hi s = (Raise AttributeError, s')
    /\ log_prob randn (PyTuple lo hi) s = (Raise AttributeError, s')
    /\ self s' = self s.
Proof.
  intros Hunset Hr. destruct s as [slf c d]. cbn [self cells] in *.
  destruct (shape_at_1_long _ Hr) as [n Hn].
  assert (Hcdf : exists s', cdf hi (mkState slf c d) = (Raise AttributeError, s')
                            /\ self s' = slf).
  { rewrite state_nil. unfold cdf. rewrite run_load. store_simpl.
    rewrite app_nil_r, Hn, run_lift, run_get_self. cbn [self].
    rewrite run_attr. destruct (log_var slf) as [lv|] eqn:Hlv.
    - destruct Hunset as [Hm | Hn']; [|discriminate].
      rewrite (state_nil slf c d), run_std_of. store_simpl.
      rewrite Hm, run_attr. eexists. split; reflexivity.
    - eexists. split; reflexivity. }
  destruct Hcdf as (s' & Ecdf & Eself). exists s'.
  split; [exact Ecdf|]. split; [|exact Eself].
  unfold log_prob. unfold bind at 1. now rewrite Ecdf.
Qed.

End ValueErrors.

Lemma value_needs_sample_dim_witness :
  cdf (mkH 0 []) standard_normal = (Raise IndexError, standard_normal)
  /\ (forall m lv,
         mean (self standard_normal) = Some m ->
         log_var (self standard_normal) = Some lv ->
         log_prob noise_const (PyTensor (mkH 0 [])) standard_normal
         = (Raise IndexError, standard_normal)).
Proof.
  apply (value_needs_sample_dim noise_const standard_normal (mkH 0 [])).
  unfold rank. simpl. lia.
Defined.

(** A distribution as its constructor leaves it, with a value of shape
    [1, 1] in cell 2. *)
Definition unset_normal_observed : state (F := R) :=
  mkState (self unset_normal) (cells unset_normal ++ [full [1; 1] 0%R]) 0.

Lemma interval_on_unset_witness :
  exists s',
    cdf (mkH 2 []) unset_normal_observed = (Raise AttributeError, s')
    /\ log_prob noise_const (PyTuple (mkH 2 []) (mkH 2 [])) unset_normal_observed
       = (Raise AttributeError, s')
    /\ self s' = self unset_normal_observed.
Proof.
  apply (interval_on_unset noise_const unset_normal_observed
                           (mkH 2 []) (mkH 2 [])).
  - left. reflexivity.
  - unfold rank. simpl. lia.
Defined.

(** ** Parameters with a sample dimension of size one *)

Lemma broadcast_samples_l (B S N : nat) :
  broadcast_shape [B; S; N] [B; 1; N] = Some [B; S; N].
Proof.
  unfold broadcast_shape. cbn [rev app bshape_rev].
  rewrite !bdim_same. unfold bdim.
  destruct (S =? 1) eqn:E; [apply Nat.eqb_eq in E; subst|]; reflexivity.
Qed.

Lemma broadcast_samples_r (B S N : nat) :
  broadcast_shape [B; 1; N] [B; S; N] = Some [B; S; N].
Proof.
  unfold broadcast_shape. cbn [rev app bshape_rev].
  rewrite !bdim_same. unfold bdim.
  destruct (1 =? S) eqn:E; [apply Nat.eqb_eq in E; subst|]; reflexivity.
Qed.

Section OneSampleParams.
Context {F : Type} `{Arith F} `{Special F}.
Variable randn : nat -> list nat -> F.

Lemma log_prob_value_one_sample (m lv v : tensor F) (B S N : nat) :
  shape m = [B; 1; N] -> shape lv = [B; 1; N] -> shape v = [B; S; N] ->
  S <> 1 ->
  log_prob_value m lv v = Raise RuntimeError.
Proof.
  intros Hm Hlv Hv HS. unfold log_prob_value, rank.
  rewrite (shape_at_1 v Hv), Hm. cbn [rbind length Nat.eqb fst snd].
  unfold t_binop at 1. rewrite Hv, Hm, broadcast_samples_l. cbn [rbind].
  unfold t_binop_ at 1. cbn [shape t_map]. rewrite Hlv, broadcast_samples_l.
  rewrite shape_eqb_refl. cbn [rbind].
  unfold t_binop_. cbn [shape t_map]. rewrite Hlv, broadcast_samples_r.
  unfold shape_eqb.
  destruct (list_eq_dec Nat.eq_dec [B; S; N] [B; 1; N]) as [E|E];
    [|reflexivity].
  injection E as E. contradiction.
Qed.

Lemma cdf_value_one_sample (m lv v : tensor F) (B S N : nat) :
  shape m = [B; 1; N] -> shape lv = [B; 1; N] -> shape v = [B; S; N] ->
  exists t,
    cdf_value m lv v = Ok t
    /\ shape t = [B; S; N]
    /\ forall b k i, b < B -> k < S -> i < N ->
         entry t [b; k; i]
         = normal_cdf (entry v [b; k; i]) (entry m [b; 0; i])
                      (entry lv [b; 0; i]).
Proof.
  intros Hm Hlv Hv. unfold cdf_value, rank.
  rewrite (shape_at_1 v Hv), Hm. cbn [rbind length Nat.eqb fst snd].
  unfold t_binop at 1. rewrite Hv, Hm, broadcast_samples_l. cbn [rbind].
  unfold t_binop. cbn [shape t_map std_value]. rewrite Hlv, broadcast_samples_l.
  cbn [rbind]. eexists. split; [reflexivity|]. split; [reflexivity|].
  intros b k i Hb Hk Hi. cbn [entry t_map].
  assert (Hin : in_bounds [b; k; i] [B; S; N])
    by (repeat constructor; assumption).
  rewrite !(bindex_same Hin).
  assert (Hone : bindex [B; 1; N] [b; k; i] = [b; 0; i]).
  { unfold bindex. cbn [length Nat.sub skipn]. unfold map2.
    cbn [combine map fst snd Nat.eqb].
    destruct (B =? 1) eqn:EB; [apply Nat.eqb_eq in EB|];
      destruct (N =? 1) eqn:EN; [apply Nat.eqb_eq in EN| |apply Nat.eqb_eq in EN|];
      repeat f_equal; lia. }
  rewrite Hone. reflexivity.
Qed.

(** X10: when the mean and the log variance carry a sample dimension of
    size one ([batch, 1, n], as [re_init] with [sample_dim] true leaves
    them) and the value has another number of samples, [cdf] broadcasts
    the parameters over the samples of the value, but [log_prob] raises
    [RuntimeError]: its in-place [add_] on the tensor of the log variance
    cannot grow to the shape of the value.  Neither changes the
    distribution or a tensor that existed before. *)
Theorem one_sample_parameters (s : state (F := F)) (m lv v : handle)
        (B S N : nat) :
  mean (self s) = Some m -> log_var (self s) = Some lv ->
  addr m < length (cells s) -> addr lv < length (cells s) ->
  addr v < length (cells s) ->
  shape (read m (cells s)) = [B; 1; N] ->
  shape (read lv (cells s)) = [B; 1; N] ->
  shape (read v (cells s)) = [B; S; N] ->
  S <> 1 ->
  (exists s', log_prob randn (PyTensor v) s = (Raise RuntimeError, s')
              /\ unchanged s s')
  /\ (exists h s',
         cdf v s = (Ok h, s')
         /\ unchanged s s'
         /\ shape (read h (cells s')) = [B; S; N]
         /\ forall b k i, b < B -> k < S -> i < N ->
              entry (read h (cells s')) [b; k; i]
              = normal_cdf (entry (read v (cells s)) [b; k; i])
                           (entry (read m (cells s)) [b; 0; i])
                           (entry (read lv (cells s)) [b; 0; i])).
Proof.
  destruct s as [slf c d]. cbn [self cells].
  intros Hm Hlv Vm Vlv Vv Sm Slv Sv HS. split.
  - pose proof (@log_prob_runs F _ _ randn slf c d m lv v Hm Hlv Vm Vlv Vv)
      as Hrun.
    pose proof Hrun as Hun. apply runs_to_unchanged in Hun.
    rewrite (log_prob_value_one_sample _ _ _ Sm Slv Sv HS) in Hrun.
    destruct Hrun as (l & E). rewrite E in *. eexists. split; [reflexivity|].
    exact Hun.
  - pose proof (@cdf_runs F _ _ slf c d m lv v Hm Hlv Vm Vlv Vv) as Hrun.
    pose proof Hrun as Hun. apply runs_to_unchanged in Hun.
    destruct (cdf_value_one_sample _ _ _ Sm Slv Sv) as (t & Et & St & Vt).
    rewrite Et in Hrun. destruct Hrun as (l & k & E & Hk & Hnth).
    rewrite E in *. eexists _, _. split; [reflexivity|].
    split; [exact Hun|]. cbn [cells].
    rewrite read_fresh, Hnth. cbn [fold_left]. auto.
Qed.

End OneSampleParams.

(** A distribution over one variable whose parameters carry a sample
    dimension of size one, with a value of three samples in cell 4. *)
Definition sampled_normal_observed : state (F := R) :=
  mkState (mkNormal (mkH 0 []) (mkH 1 []) (Some (mkH 2 [])) (Some (mkH 3 [])) None)
          [full [1] 0%R; full [1] 0%R; full [1; 1; 1] 0%R; full [1; 1; 1] 0%R;
           full [1; 3; 1] 1%R]
          0.

Lemma one_sample_parameters_witness :
  (exists s', log_prob noise_const (PyTensor (mkH 4 [])) sampled_normal_observed
              = (Raise RuntimeError, s')
              /\ unchanged sampled_normal_observed s')
  /\ (exists h s',
         cdf (mkH 4 []) sampled_normal_observed = (Ok h, s')
         /\ unchanged sampled_normal_observed s'
         /\ shape (read h (cells s')) = [1; 3; 1]
         /\ forall b k i, b < 1 -> k < 3 -> i < 1 ->
              entry (read h (cells s')) [b; k; i]
              = normal_cdf
                  (entry (read (mkH 4 []) (cells sampled_normal_observed)) [b; k; i])
                  (entry (read (mkH 2 []) (cells sampled_normal_observed)) [b; 0; i])
                  (entry (read (mkH 3 []) (cells sampled_normal_observed)) [b; 0; i])).
Proof.
  apply (one_sample_parameters noise_const sampled_normal_observed
           (m := mkH 2 []) (lv := mkH 3 []) (mkH 4 []) (B := 1) (S := 3) (N := 1));
    try reflexivity; try (simpl; lia).
Defined.

(** ** What [Normal.sample] leaves untouched *)

Section SampleFrame.
Context {F : Type} `{Arith F} `{Special F}.
Variable randn : nat -> list nat -> F.

(** X11: on a distribution whose mean and log variance are set,
    [sample] changes nothing but the cached sample: the mean, the log
    variance, the reset values and every tensor that existed before the
    call read as before, whether it returns or raises; its in-place
    [mul_] and [add_] act on the fresh noise tensor.  When it draws (no
    sample cached, or [resample] true) the tensor it returns did not
    exist before the call. *)
Theorem sample_frame (s : state (F := F)) (m lv : handle) (n_samples : nat)
        (resample : bool) :
  mean (self s) = Some m -> log_var (self s) = Some lv ->
  addr m < length (cells s) -> addr lv < length (cells s) ->
  mean (self (snd (sample randn n_samples resample s))) = mean (self s)
  /\ log_var (self (snd (sample randn n_samples resample s))) = log_var (self s)
  /\ mean_reset_value (self (snd (sample randn n_samples resample s)))
     = mean_reset_value (self s)
  /\ log_var_reset_value (self (snd (sample randn n_samples resample s)))
     = log_var_reset_value (self s)
  /\ (forall h, addr h < length (cells s) ->
                read h (cells (snd (sample randn n_samples resample s)))
                = read h (cells s))
  /\ (is_none (_sample (self s)) || resample = true ->
      forall h, fst (sample randn n_samples resample s) = Ok (Some h) ->
                length (cells s) <= addr h).
Proof.
  destruct s as [slf c d]. cbn [self cells]. intros Hm Hlv Vm Vlv.
  destruct (is_none (_sample slf) || resample) eqn:Hdraw.
  - pose proof (@sample_runs F _ _ randn slf c d m lv n_samples resample
                             Hm Hlv Vm Vlv Hdraw) as Hrun.
    destruct (sample_value (randn d) n_samples (read m c) (read lv c)).
    + destruct Hrun as (l & k & -> & _ & _). cbn [snd fst self cells with_sample
                                                   mean log_var mean_reset_value
                                                   log_var_reset_value].
      repeat split; try reflexivity.
      * intros h Hh. now apply read_old.
      * intros _ h [= <-]. cbn [addr]. lia.
    + destruct Hrun as (l & d' & ->). cbn [snd fst self cells].
      repeat split; try reflexivity.
      * intros h Hh. now apply read_old.
      * intros _ h Hh. discriminate Hh.
  - apply orb_false_iff in Hdraw. destruct Hdraw as [Hnone ->].
    destruct (_sample slf) as [h0|] eqn:Hc; [|discriminate].
    rewrite (@sample_cached F _ _ randn (mkState slf c d) h0 n_samples Hc).
    cbn [snd fst self cells]. repeat split; try reflexivity.
    intros Hf. discriminate Hf.
Qed.

End SampleFrame.

Lemma sample_frame_witness :
  mean (self (snd (sample noise_const 3 true standard_normal)))
  = mean (self standard_normal)
  /\ log_var (self (snd (sample noise_const 3 true standard_normal)))
     = log_var (self standard_normal)
  /\ mean_reset_value (self (snd (sample noise_const 3 true standard_normal)))
     = mean_reset_value (self standard_normal)
  /\ log_var_reset_value (self (snd (sample noise_const 3 true standard_normal)))
     = log_var_reset_value (self standard_normal)
  /\ (forall h, addr h < length (cells standard_normal) ->
                read h (cells (snd (sample noise_const 3 true standard_normal)))
                = read h (cells standard_normal))
  /\ (is_none (_sample (self standard_normal)) || true = true ->
      forall h, fst (sample noise_const 3 true standard_normal) = Ok (Some h) ->
                length (cells standard_normal) <= addr h).
Proof.
  apply (sample_frame noise_const standard_normal
                      (m := mkH 2 []) (lv := mkH 3 []) 3 true);
    try reflexivity; simpl; lia.
Defined.

(** ** [Normal.re_init], then [Normal.sample] *)

Section ReInitThenSample.
Context {F : Type} `{Arith F} `{Special F}.
Variable randn : nat -> list nat -> F.

(** [re_init] from sources of shape [b0, n], as a run. *)
Lemma re_init_runs (slf : Normal) (c : list (tensor F)) (d : nat)
      (mv lvv : option handle) (b : nat) (sd : bool) (bm nm bl nl : nat) :
  source_allocated mv (mean_reset_value slf) c ->
  source_allocated lvv (log_var_reset_value slf) c ->
  shape (reset_source mv (mean_reset_value slf) c) = [bm; nm] -> 0 < bm ->
  shape (reset_source lvv (log_var_reset_value slf) c) = [bl; nl] -> 0 < bl ->
  exists hm hl l,
    re_init mv lvv b sd (mkState slf c d)
    = (Ok tt,
       mkState (mkNormal (mean_reset_value slf) (log_var_reset_value slf)
                         (Some hm) (Some hl) None)
               (c ++ l) d)
    /\ addr hm < length (c ++ l) /\ addr hl < length (c ++ l)
    /\ reset_to (read hm (c ++ l))
                (reset_source mv (mean_reset_value slf) c) bm b nm sd
    /\ reset_to (read hl (c ++ l))
                (reset_source lvv (log_var_reset_value slf) c) bl b nl sd.
Proof.
  intros Vm Vl Sm Pm Sl Pl.
  destruct (@re_init_mean_runs F _ slf c d mv b sd bm nm Vm Sm Pm)
    as (hm & l1 & Hrun1 & Vhm & Rm).
  destruct (@reset_source_app F _ lvv (log_var_reset_value slf) c l1 Vl)
    as [Esrc Vl'].
  set (slf1 := mkNormal (mean_reset_value slf) (log_var_reset_value slf)
                        (Some hm) (log_var slf) None) in *.
  destruct (@re_init_log_var_runs F _ slf1 (c ++ l1) d lvv b sd bl nl)
    as (hl & l2 & Hrun2 & Vhl & Rl);
    [exact Vl' | cbn [slf1 log_var_reset_value]; now rewrite Esrc | exact Pl |].
  exists hm, hl, (l1 ++ l2). rewrite app_assoc. split.
  { unfold re_init. unfold bind. rewrite Hrun1. exact Hrun2. }
  split; [rewrite length_app; lia|]. split; [exact Vhl|].
  split.
  - rewrite read_old by exact Vhm. exact Rm.
  - cbn [slf1 log_var_reset_value] in Rl. rewrite Esrc in Rl. exact Rl.
Qed.

(** [re_init] without a sample dimension, then [sample]. *)
Lemma re_init_sample_runs (slf : Normal) (c : list (tensor F)) (d : nat)
      (mv lvv : option handle) (b k bm bl n : nat) (sd : bool) :
  source_allocated mv (mean_reset_value slf) c ->
  source_allocated lvv (log_var_reset_value slf) c ->
  shape (reset_source mv (mean_reset_value slf) c) = [bm; n] -> 0 < bm ->
  shape (reset_source lvv (log_var_reset_value slf) c) = [bl; n] -> 0 < bl ->
  exists s1 h s2,
    re_init mv lvv b sd (mkState slf c d) = (Ok tt, s1)
    /\ sample randn k false s1 = (Ok (Some h), s2)
    /\ _sample (self s2) = Some h
    /\ draws s2 = S d
    /\ shape (read h (cells s2)) = (if sd then [b; 1; n] else [b; k; n])
    /\ forall i q j, i < b -> q < (if sd then 1 else k) -> j < n ->
         entry (read h (cells s2)) [i; q; j]
         = reparameterized
             (randn d [i; q; j])
             (entry (reset_source mv (mean_reset_value slf) c)
                    [if bm =? b then i else 0; j])
             (entry (reset_source lvv (log_var_reset_value slf) c)
                    [if bl =? b then i else 0; j]).
Proof.
  intros Vm Vl Sm Pm Sl Pl.
  destruct (@re_init_runs slf c d mv lvv b sd bm n bl n Vm Vl Sm Pm Sl Pl)
    as (hm & hl & l & Hrun & Vhm & Vhl & [Shm Ehm] & [Shl Ehl]).
  set (slf1 := mkNormal (mean_reset_value slf) (log_var_reset_value slf)
                        (Some hm) (Some hl) None) in *.
  pose proof (@sample_runs F _ _ randn slf1 (c ++ l) d hm hl k false
                           eq_refl eq_refl Vhm Vhl eq_refl) as Hs.
  destruct sd.
  - destruct (@sample_value_plain F _ _ (randn d) k [b; 1; n]
                (read hm (c ++ l)) (read hl (c ++ l)) Shm Shl)
      as (t & Et & St & Vt); [cbn; lia|].
    rewrite Et in Hs. destruct Hs as (l' & k' & Es & Hk & Hnth).
    eexists _, _, _. split; [exact Hrun|]. split; [exact Es|].
    cbn [self cells draws with_sample _sample].
    rewrite read_fresh, Hnth. cbn [fold_left].
    repeat split; try reflexivity; try assumption.
    intros i q j Hi Hq Hj. assert (q = 0) by lia. subst q.
    rewrite Vt by (repeat constructor; assumption).
    now rewrite (Ehm i j Hi Hj), (Ehl i j Hi Hj).
  - destruct (@sample_value_dense F _ _ (randn d) k b n
                (read hm (c ++ l)) (read hl (c ++ l)) Shm Shl)
      as (t & Et & St & Vt).
    rewrite Et in Hs. destruct Hs as (l' & k' & Es & Hk & Hnth).
    eexists _, _, _. split; [exact Hrun|]. split; [exact Es|].
    cbn [self cells draws with_sample _sample].
    rewrite read_fresh, Hnth. cbn [fold_left].
    repeat split; try reflexivity; try assumption.
    intros i q j Hi Hq Hj.
    rewrite (Vt i q j Hi Hq Hj).
    now rewrite (Ehm i j Hi Hj), (Ehl i j Hi Hj).
Qed.

(** X12: after [re_init] from sources of shape [b0, n] (the given
    values, or the reset values behind a batch dimension of size one),
    the next [sample], even with [resample] false and whatever was
    cached before, draws fresh noise from the new parameters: entry
    [i, q, j] is [noise * exp(0.5 * log_var) + mean] read at row [i] of
    the source when [b0 = batch_size] and at row 0 otherwise.  Without a
    sample dimension the result is [batch_size, n_samples, n]; with
    [sample_dim] true it is [batch_size, 1, n], whatever [n_samples]
    is. *)
Theorem re_init_then_sample (s : state (F := F)) (mv lvv : option handle)
        (b k bm bl n : nat) (sd : bool) :
  source_allocated mv (mean_reset_value (self s)) (cells s) ->
  source_allocated lvv (log_var_reset_value (self s)) (cells s) ->
  shape (reset_source mv (mean_reset_value (self s)) (cells s)) = [bm; n] ->
  0 < bm ->
  shape (reset_source lvv (log_var_reset_value (self s)) (cells s)) = [bl; n] ->
  0 < bl ->
  exists s1 h s2,
    re_init mv lvv b sd s = (Ok tt, s1)
    /\ sample randn k false s1 = (Ok (Some h), s2)
    /\ _sample (self s2) = Some h
    /\ draws s2 = S (draws s)
    /\ shape (read h (cells s2)) = (if sd then [b; 1; n] else [b; k; n])
    /\ forall i q j, i < b -> q < (if sd then 1 else k) -> j < n ->
         entry (read h (cells s2)) [i; q; j]
         = reparameterized
             (randn (draws s) [i; q; j])
             (entry (reset_source mv (mean_reset_value (self s)) (cells s))
                    [if bm =? b then i else 0; j])
             (entry (reset_source lvv (log_var_reset_value (self s)) (cells s))
                    [if bl =? b then i else 0; j]).
Proof.
  destruct s as [slf c d]. cbn [self cells draws]. apply re_init_sample_runs.
Qed.

(** [Normal.__init__(mean, log_var, n_variables)]: the reset values are
    two new tensors of [n_variables] zeros; no sample is cached. *)
Definition Normal__init__ (mean log_var : option handle) (n_variables : nat)
  : M (F := F) unit :=
  mean_reset_value <- alloc (mkT [n_variables] (fun _ => flit 0)) ;;
  log_var_reset_value <- alloc (mkT [n_variables] (fun _ => flit 0)) ;;
  set_self (mkNormal mean_reset_value log_var_reset_value mean log_var None).

(** X13: a distribution built by [Normal(n_variables=n)] and
    re-initialised by [re_init(batch_size=b)] is the standard normal
    distribution over [b] rows of [n] variables: [sample(k)] returns a
    tensor of shape [b, k, n] whose entries are
    [noise * exp(0.5 * 0) + 0], one fresh noise value per entry. *)
Theorem constructed_normal_samples (s0 : state (F := F)) (n b k : nat) :
  exists s1 s2 h s3,
    Normal__init__ None None n s0 = (Ok tt, s1)
    /\ re_init None None b false s1 = (Ok tt, s2)
    /\ sample randn k false s2 = (Ok (Some h), s3)
    /\ shape (read h (cells s3)) = [b; k; n]
    /\ forall i q j, i < b -> q < k -> j < n ->
         entry (read h (cells s3)) [i; q; j]
         = reparameterized (randn (draws s0) [i; q; j]) (flit 0) (flit 0).
Proof.
  destruct s0 as [slf0 c0 d0].
  set (z := mkT [n] (fun _ : list nat => flit (F := F) 0)).
  set (c := (c0 ++ [z]) ++ [z]).
  set (slf := mkNormal (mkH (length c0) []) (mkH (length (c0 ++ [z])) [])
                       None None None).
  assert (Hinit : Normal__init__ None None n (mkState slf0 c0 d0)
                  = (Ok tt, mkState slf c d0)) by reflexivity.
  assert (Rm : read (mkH (length c0) []) c = z).
  { unfold c. rewrite read_old by (cbn [addr]; rewrite length_app; cbn; lia).
    apply read_last. }
  assert (Rl : read (mkH (length (c0 ++ [z])) []) c = z)
    by (unfold c; apply read_last).
  destruct (@re_init_sample_runs slf c d0 None None b k 1 1 n false)
    as (s2 & h & s3 & Hre & Hs & _ & _ & Hshape & Hentry).
  - unfold c. cbn [source_allocated slf mean_reset_value addr].
    rewrite !length_app. cbn [length]. lia.
  - unfold c. cbn [source_allocated slf log_var_reset_value addr].
    rewrite !length_app. cbn [length]. lia.
  - cbn [reset_source slf mean_reset_value]. now rewrite Rm.
  - lia.
  - cbn [reset_source slf log_var_reset_value]. now rewrite Rl.
  - lia.
  - exists (mkState slf c d0), s2, h, s3.
    split; [exact Hinit|]. split; [exact Hre|]. split; [exact Hs|].
    split; [exact Hshape|].
    intros i q j Hi Hq Hj. rewrite (Hentry i q j Hi Hq Hj).
    cbn [reset_source slf mean_reset_value log_var_reset_value draws].
    rewrite Rm, Rl. reflexivity.
Qed.

End ReInitThenSample.

Lemma re_init_then_sample_witness :
  exists s1 h s2,
    re_init None None 3 false stale_normal = (Ok tt, s1)
    /\ sample noise_const 2 false s1 = (Ok (Some h), s2)
    /\ _sample (self s2) = Some h
    /\ draws s2 = S (draws stale_normal)
    /\ shape (read h (cells s2)) = [3; 2; 1]
    /\ forall i q j, i < 3 -> q < 2 -> j < 1 ->
         entry (read h (cells s2)) [i; q; j]
         = reparameterized
             (noise_const (draws stale_normal) [i; q; j])
             (entry (reset_source None (mean_reset_value (self stale_normal))
                                  (cells stale_normal))
                    [if 1 =? 3 then i else 0; j])
             (entry (reset_source None (log_var_reset_value (self stale_normal))
                                  (cells stale_normal))
                    [if 1 =? 3 then i else 0; j]).
Proof.
  apply (re_init_then_sample noise_const stale_normal None None 3 2
                             (bm := 1) (bl := 1) (n := 1) false);
    try reflexivity; simpl; lia.
Defined.

(** ** What [Normal.re_init] shares with its arguments, and what it
       rejects *)

Section ReInitSharing.
Context {F : Type} `{Arith F} `{Special F}.

(** The tensor object a parameter is set to when its source already has
    [batch_size] rows: the given value, or the reset value behind
    [unsqueeze(0)]; behind [unsqueeze(1)] when [sample_dim] is true.
    Both are views: they share the storage of the source. *)
Definition reset_view (value : option handle) (reset : handle)
           (sample_dim : bool) : handle :=
  let h := match value with
           | Some v => v
           | None => mkH (addr reset) (views reset ++ [VUnsqueeze 0])
           end in
  if sample_dim then mkH (addr h) (views h ++ [VUnsqueeze 1]) else h.

Lemma shape_at_0_rank (t : tensor F) (b : nat) :
  shape_at 0 t = Ok b -> exists u, t_unsqueeze 1 t = Ok u.
Proof.
  unfold shape_at, t_unsqueeze, rank.
  destruct (shape t) as [|a rest]; [discriminate|]. intros _. cbn. eauto.
Qed.

Lemma re_init_mean_shares (s : state (F := F)) (value : option handle)
      (b : nat) (sd : bool) :
  shape_at 0 (reset_source value (mean_reset_value (self s)) (cells s)) = Ok b ->
  re_init_mean value b sd s
  = (Ok tt,
     mkState (mkNormal (mean_reset_value (self s)) (log_var_reset_value (self s))
                       (Some (reset_view value (mean_reset_value (self s)) sd))
                       (log_var (self s)) None)
             (cells s) (draws s)).
Proof.
  intros Hb. unfold re_init_mean. rewrite run_get_self.
  assert (Hstart : forall B (k : handle -> M B),
             bind (match value with
                   | Some v => ret v
                   | None => op_unsqueeze 0 (mean_reset_value (self s))
                   end) k s
             = k (reset_view value (mean_reset_value (self s)) false) s).
  { intros B k. destruct value as [v|]; [reflexivity|].
    rewrite run_op_unsqueeze. now rewrite t_unsqueeze0_ok. }
  rewrite Hstart. clear Hstart. rewrite run_load.
  assert (Hread : read (reset_view value (mean_reset_value (self s)) false)
                       (cells s)
                  = reset_source value (mean_reset_value (self s)) (cells s)).
  { destruct value as [v|]; [reflexivity|]. apply read_view. }
  rewrite Hread, run_lift, Hb, Nat.eqb_refl. cbn [negb]. rewrite run_ret.
  destruct sd.
  - rewrite run_op_unsqueeze, Hread.
    destruct (shape_at_0_rank _ Hb) as [u ->].
    rewrite run_set_mean. reflexivity.
  - rewrite run_ret, run_set_mean. reflexivity.
Qed.

Lemma re_init_log_var_shares (s : state (F := F)) (value : option handle)
      (b : nat) (sd : bool) :
  shape_at 0 (reset_source value (log_var_reset_value (self s)) (cells s)) = Ok b ->
  re_init_log_var value b sd s
  = (Ok tt,
     mkState (mkNormal (mean_reset_value (self s)) (log_var_reset_value (self s))
                       (mean (self s))
                       (Some (reset_view value (log_var_reset_value (self s)) sd))
                       None)
             (cells s) (draws s)).
Proof.
  intros Hb. unfold re_init_log_var. rewrite run_get_self.
  assert (Hstart : forall B (k : handle -> M B),
             bind (match value with
                   | Some v => ret v
                   | None => op_unsqueeze 0 (log_var_reset_value (self s))
                   end) k s
             = k (reset_view value (log_var_reset_value (self s)) false) s).
  { intros B k. destruct value as [v|]; [reflexivity|].
    rewrite run_op_unsqueeze. now rewrite t_unsqueeze0_ok. }
  rewrite Hstart. clear Hstart. rewrite run_load.
  assert (Hread : read (reset_view value (log_var_reset_value (self s)) false)
                       (cells s)
                  = reset_source value (log_var_reset_value (self s)) (cells s)).
  { destruct value as [v|]; [reflexivity|]. apply read_view. }
  rewrite Hread, run_lift, Hb, Nat.eqb_refl. cbn [negb]. rewrite run_ret.
  destruct sd.
  - rewrite run_op_unsqueeze, Hread.
    destruct (shape_at_0_rank _ Hb) as [u ->].
    rewrite run_set_log_var. reflexivity.
  - rewrite run_ret, run_set_log_var. reflexivity.
Qed.

(** X14: when the source of each parameter (the given value, or the
    reset value behind [unsqueeze(0)], which has one row) already has
    [batch_size] rows, [re_init] copies nothing: it allocates no tensor,
    and the mean and the log variance become the caller's tensor objects
    themselves, or views of them (of the reset values, with
    [batch_size = 1] and no value given), so that a later in-place change
    of either shows in the other. *)
Theorem re_init_shares_storage (s : state (F := F))
        (mean_value log_var_value : option handle) (b : nat) (sd : bool) :
  shape_at 0 (reset_source mean_value (mean_reset_value (self s)) (cells s))
  = Ok b ->
  shape_at 0 (reset_source log_var_value (log_var_reset_value (self s)) (cells s))
  = Ok b ->
  re_init mean_value log_var_value b sd s
  = (Ok tt,
     mkState (mkNormal (mean_reset_value (self s)) (log_var_reset_value (self s))
                       (Some (reset_view mean_value (mean_reset_value (self s)) sd))
                       (Some (reset_view log_var_value
                                         (log_var_reset_value (self s)) sd))
                       None)
             (cells s) (draws s)).
Proof.
  intros Hm Hl. unfold re_init. unfold bind at 1.
  rewrite (re_init_mean_shares s mean_value sd Hm).
  rewrite re_init_log_var_shares; [reflexivity|exact Hl].
Qed.

(** X15: a given value with more than two dimensions whose number of
    rows is not [batch_size] cannot be broadcast: [mean[:1].repeat(
    batch_size, 1)] names two dimensions only, so [re_init] (and
    [re_init_mean], [re_init_log_var]) raises [RuntimeError] and changes
    nothing; in particular the cached sample stays. *)
Theorem re_init_rejects_high_rank (s : state (F := F)) (v : handle)
        (log_var_value : option handle) (b b0 : nat) (rest : list nat)
        (sd : bool) :
  shape (read v (cells s)) = b0 :: rest ->
  2 <= length rest ->
  b0 <> b ->
  re_init_mean (Some v) b sd s = (Raise RuntimeError, s)
  /\ re_init_log_var (Some v) b sd s = (Raise RuntimeError, s)
  /\ re_init (Some v) log_var_value b sd s = (Raise RuntimeError, s).
Proof.
  intros Hs Hlen Hne.
  assert (Hrepeat : forall B (k : handle -> M B),
             bind (row <- op_slice1 v ;; op_repeat [b; 1] row) k s
             = (Raise RuntimeError, s)).
  { intros B k. rewrite bind_assoc, run_op_slice1.
    unfold t_slice1. rewrite Hs.
    unfold op_repeat. rewrite bind_assoc, run_load, bind_assoc, run_lift.
    cbn [cells]. rewrite read_view. cbn [view_get]. rewrite Hs.
    unfold t_repeat, rank. cbn [shape length].
    replace (S (length rest) <=? 2) with false
      by (symmetry; apply Nat.leb_gt; lia).
    reflexivity. }
  assert (Hshape : shape_at 0 (read v (cells s)) = Ok b0)
    by (unfold shape_at; now rewrite Hs).
  apply Nat.eqb_neq in Hne.
  assert (Hmean : re_init_mean (Some v) b sd s = (Raise RuntimeError, s)).
  { unfold re_init_mean.
    rewrite run_get_self, run_ret, run_load, run_lift, Hshape, Hne.
    cbn [negb]. apply Hrepeat. }
  split; [exact Hmean|]. split.
  - unfold re_init_log_var.
    rewrite run_get_self, run_ret, run_load, run_lift, Hshape, Hne.
    cbn [negb]. apply Hrepeat.
  - unfold re_init. unfold bind at 1. now rewrite Hmean.
Qed.

End ReInitSharing.

Lemma re_init_shares_storage_witness :
  re_init None None 1 false unset_normal
  = (Ok tt,
     mkState (mkNormal (mkH 0 []) (mkH 1 [])
                       (Some (reset_view None (mkH 0 []) false))
                       (Some (reset_view None (mkH 1 []) false))
                       None)
             (cells unset_normal) (draws unset_normal)).
Proof.
  apply (re_init_shares_storage unset_normal None None false (b := 1));
    reflexivity.
Defined.

(** A distribution with a cached sample and a convolutional value of two
    rows in cell 3. *)
Definition conv_value_normal : state (F := R) :=
  mkState (self stale_normal) (cells stale_normal ++ [full [2; 1; 1; 1] 0%R]) 0.

Lemma re_init_rejects_high_rank_witness :
  re_init_mean (Some (mkH 3 [])) 5 false conv_value_normal
  = (Raise RuntimeError, conv_value_normal)
  /\ re_init_log_var (Some (mkH 3 [])) 5 false conv_value_normal
     = (Raise RuntimeError, conv_value_normal)
  /\ re_init (Some (mkH 3 [])) None 5 false conv_value_normal
     = (Raise RuntimeError, conv_value_normal).
Proof.
  apply (re_init_rejects_high_rank conv_value_normal (mkH 3 []) None
                                   (b := 5) (b0 := 2) (rest := [1; 1; 1]) false).
  - reflexivity.
  - simpl. lia.
  - lia.
Defined.

(** ** [Normal.log_prob(None)] *)

Section LogProbNone.
Context {F : Type} `{Arith F} `{Special F}.
Variable randn : nat -> list nat -> F.

Lemma log_prob_none_step (s s1 : state (F := F)) (h : handle) :
  sample randn 1 false s = (Ok (Some h), s1) ->
  log_prob randn PyNone s = log_prob randn (PyTensor h) s1.
Proof.
  intros Hs. unfold log_prob. unfold bind at 1. now rewrite Hs.
Qed.

(** X16: [log_prob(None)] evaluates the density at the distribution's
    own sample.  With a sample cached it is [log_prob] at that tensor,
    and nothing is drawn.  With none cached and parameters of shape
    [batch, n], it draws one sample per row ([n_samples = 1]), leaves it
    cached (the in-place operations of the density do not touch it), and
    returns the log density of that sample under the parameters it was
    drawn from. *)
Theorem log_prob_none (s : state (F := F)) (m lv : handle) :
  mean (self s) = Some m -> log_var (self s) = Some lv ->
  addr m < length (cells s) -> addr lv < length (cells s) ->
  (forall h, _sample (self s) = Some h ->
             log_prob randn PyNone s = log_prob randn (PyTensor h) s)
  /\ (forall B N,
         _sample (self s) = None ->
         shape (read m (cells s)) = [B; N] ->
         shape (read lv (cells s)) = [B; N] ->
         exists h r s',
           log_prob randn PyNone s = (Ok r, s')
           /\ _sample (self s') = Some h
           /\ mean (self s') = Some m /\ log_var (self s') = Some lv
           /\ draws s' = S (draws s)
           /\ read m (cells s') = read m (cells s)
           /\ read lv (cells s') = read lv (cells s)
           /\ shape (read h (cells s')) = [B; 1; N]
           /\ shape (read r (cells s')) = [B; 1; N]
           /\ forall b i, b < B -> i < N ->
                entry (read h (cells s')) [b; 0; i]
                = reparameterized (randn (draws s) [b; 0; i])
                                  (entry (read m (cells s)) [b; i])
                                  (entry (read lv (cells s)) [b; i])
                /\ entry (read r (cells s')) [b; 0; i]
                   = log_density (entry (read h (cells s')) [b; 0; i])
                                 (entry (read m (cells s)) [b; i])
                                 (entry (read lv (cells s)) [b; i])).
Proof.
  destruct s as [slf c d]. cbn [self cells draws].
  intros Hm Hlv Vm Vlv. split.
  - intros h Hc. apply log_prob_none_step.
    now apply sample_cached.
  - intros B N Hnone Sm Slv.
    pose proof (@sample_runs F _ _ randn slf c d m lv 1 false Hm Hlv Vm Vlv)
      as Hs.
    rewrite Hnone in Hs. specialize (Hs eq_refl).
    destruct (@sample_value_dense F _ _ (randn d) 1 B N _ _ Sm Slv)
      as (t & Et & St & Vt).
    rewrite Et in Hs. destruct Hs as (l & k & Es & Hk & Hnth).
    rewrite (log_prob_none_step _ Es).
    set (h := mkH (length c + k) []) in *.
    assert (Vm' : addr m < length (c ++ l)) by (rewrite length_app; lia).
    assert (Vlv' : addr lv < length (c ++ l)) by (rewrite length_app; lia).
    assert (Vh : addr h < length (c ++ l))
      by (cbn [h addr]; rewrite length_app; lia).
    pose proof (@log_prob_runs F _ _ randn (with_sample slf (Some h)) (c ++ l)
                               (S d) m lv h Hm Hlv Vm' Vlv' Vh) as Hrun.
    rewrite !(read_old c l) in Hrun by assumption.
    assert (Rh : read h (c ++ l) = t).
    { unfold h. rewrite read_fresh. cbn [fold_left]. exact Hnth. }
    rewrite Rh in Hrun.
    destruct (@log_prob_value_lacking F _ _ (read m c) (read lv c) t B 1 [N]
                Sm Slv St (or_introl eq_refl)) as (r & Er & Sr & Vr).
    rewrite Er in Hrun. destruct Hrun as (l' & k' & -> & Hk' & Hnth').
    exists h, (mkH (length (c ++ l) + k') []). eexists.
    split; [reflexivity|].
    cbn [self cells draws with_sample _sample mean log_var].
    rewrite read_fresh, Hnth'. cbn [fold_left].
    rewrite (read_old (c ++ l) l' h Vh), Rh.
    rewrite (read_old (c ++ l) l' m Vm'), (read_old c l m Vm).
    rewrite (read_old (c ++ l) l' lv Vlv'), (read_old c l lv Vlv).
    repeat split; try reflexivity; try assumption.
    + apply Vt; [assumption | lia | assumption].
    + apply Vr. repeat constructor; assumption.
Qed.

End LogProbNone.

Lemma log_prob_none_witness :
  (forall h, _sample (self standard_normal) = Some h ->
             log_prob noise_const PyNone standard_normal
             = log_prob noise_const (PyTensor h) standard_normal)
  /\ (forall B N,
         _sample (self standard_normal) = None ->
         shape (read (mkH 2 []) (cells standard_normal)) = [B; N] ->
         shape (read (mkH 3 []) (cells standard_normal)) = [B; N] ->
         exists h r s',
           log_prob noise_const PyNone standard_normal = (Ok r, s')
           /\ _sample (self s') = Some h
           /\ mean (self s') = Some (mkH 2 [])
           /\ log_var (self s') = Some (mkH 3 [])
           /\ draws s' = S (draws standard_normal)
           /\ read (mkH 2 []) (cells s') = read (mkH 2 []) (cells standard_normal)
           /\ read (mkH 3 []) (cells s') = read (mkH 3 []) (cells standard_normal)
           /\ shape (read h (cells s')) = [B; 1; N]
           /\ shape (read r (cells s')) = [B; 1; N]
           /\ forall b i, b < B -> i < N ->
                entry (read h (cells s')) [b; 0; i]
                = reparameterized
                    (noise_const (draws standard_normal) [b; 0; i])
                    (entry (read (mkH 2 []) (cells standard_normal)) [b; i])
                    (entry (read (mkH 3 []) (cells standard_normal)) [b; i])
                /\ entry (read r (cells s')) [b; 0; i]
                   = log_density
                       (entry (read h (cells s')) [b; 0; i])
                       (entry (read (mkH 2 []) (cells standard_normal)) [b; i])
                       (entry (read (mkH 3 []) (cells standard_normal)) [b; i])).
Proof.
  apply (log_prob_none noise_const standard_normal
                       (m := mkH 2 []) (lv := mkH 3 []));
    try reflexivity; simpl; lia.
Defined.

(** ** [Model.conditional_log_likelihoods] with a [Normal] output
       distribution *)

Section NormalOutput.
Context {F : Type} `{Arith F} `{Special F}.
Variable randn : nat -> list nat -> F.

Lemma nested_sum_ext_in (dims : list nat) :
  forall f g : list nat -> F,
    (forall rest, in_bounds rest dims -> f rest = g rest) ->
    nested_sum dims f = nested_sum dims g.
Proof.
  induction dims as [|n dims IH]; intros f g Hfg; simpl.
  - apply Hfg. constructor.
  - f_equal. apply map_ext_in. intros k Hk. apply in_seq in Hk.
    apply IH. intros rest Hr. apply Hfg. constructor; [lia | exact Hr].
Qed.

(** The reduction over the feature and sample dimensions reads the
    entries within the bounds of the tensor only. *)
Lemma reduced_eq (a b : tensor F) :
  2 <= rank a -> tensor_eq a b -> tensor_eq (reduced a) (reduced b).
Proof.
  intros Hr [Hs He]. unfold rank in Hr. split.
  - cbn [shape reduced]. now rewrite Hs.
  - cbn [shape reduced]. intros idx Hin. cbn [entry reduced]. rewrite <- Hs.
    destruct (shape a) as [|B [|S dims]] eqn:Ea;
      try (cbn [length] in Hr; lia).
    cbn [firstn] in Hin.
    inversion Hin as [|i B' idx' rest' Hi Hnil]; subst.
    apply in_bounds_nil in Hnil. subst idx'.
    cbn [nth skipn app]. f_equal. f_equal.
    apply map_ext_in. intros s Hsq. apply in_seq in Hsq.
    apply nested_sum_ext_in. intros rest Hrest.
    apply He. constructor; [exact Hi|]. constructor; [lia | exact Hrest].
Qed.

(** The tensor [batch, 1, n] of [f(observation, mean, log_var)], entry
    by entry, for an observation and parameters of shape [batch, n]. *)
Definition per_sample (f : F -> F -> F -> F) (observation m lv : tensor F)
  : tensor F :=
  mkT (insert_at 1 1 (shape observation))
      (fun idx => f (entry observation (remove_at 1 idx))
                    (entry m (remove_at 1 idx))
                    (entry lv (remove_at 1 idx))).

(** The log of the Gaussian mass of the interval [(x, x + width)]:
    [log(cdf(x + width) - cdf(x) + 1e-6)]. *)
Definition log_mass (width x mu lv : F) : F :=
  flog (fadd (fsub (normal_cdf (fadd x width) mu lv) (normal_cdf x mu lv))
             (flit (1 # 1000000))).

Lemma observed_dense (observation : tensor F) (B N : nat) :
  shape observation = [B; N] ->
  shape (observed observation) = [B; 1; N]
  /\ forall i k j, entry (observed observation) [i; k; j]
                   = entry observation [i; j].
Proof.
  intros Hs. unfold observed, lacks_sample_dim, rank. rewrite Hs.
  cbn [length Nat.eqb orb shape entry]. split; reflexivity.
Qed.

Lemma averaged_eq (averaged : bool) (r t u : tensor F) (B : nat) :
  shape (reduced t) = [B] ->
  tensor_eq r (if averaged then batch_mean (reduced t) else reduced t) ->
  tensor_eq (reduced t) (reduced u) ->
  tensor_eq r (if averaged then batch_mean (reduced u) else reduced u).
Proof.
  intros Hs Hr Htu. destruct averaged.
  - apply (tensor_eq_trans Hr). now apply batch_mean_eq with (B := B).
  - now apply (tensor_eq_trans Hr).
Qed.

(** X17: for a model whose output distribution is a [Normal] with mean
    and log variance of shape [batch, n] and an observation of shape
    [batch, n], [conditional_log_likelihoods] returns, for every
    example, the sum over the [n] variables of the Gaussian log density
    of the observation when [output_interval] is [None], and of
    [log(cdf(x + output_interval) - cdf(x) + 1e-6)] when it is a number,
    averaged over the single sample, and over the batch exactly when
    [averaged] is true. *)
Theorem cll_normal_output (mdl : Model) (s : state (F := F)) (m lv : handle)
        (observation : tensor F) (averaged : bool) (B N : nat) :
  mean (self s) = Some m -> log_var (self s) = Some lv ->
  addr m < length (cells s) -> addr lv < length (cells s) ->
  shape (read m (cells s)) = [B; N] ->
  shape (read lv (cells s)) = [B; N] ->
  shape observation = [B; N] ->
  output_dist mdl = normal_distribution randn s ->
  (output_interval mdl = None ->
   exists r,
     conditional_log_likelihoods mdl observation averaged = Ok r
     /\ tensor_eq r
          (let lp := per_sample log_density observation
                                (read m (cells s)) (read lv (cells s)) in
           if averaged then batch_mean (reduced lp) else reduced lp))
  /\ (forall width,
         output_interval mdl = Some (Num width) ->
         exists r,
           conditional_log_likelihoods mdl observation averaged = Ok r
           /\ tensor_eq r
                (let lp := per_sample (log_mass width) observation
                                      (read m (cells s)) (read lv (cells s)) in
                 if averaged then batch_mean (reduced lp) else reduced lp)).
Proof.
  intros Hm Hlv Vm Vlv Sm Slv So Hdist.
  destruct (@normal_distribution_log_prob F _ _ randn s m lv Hm Hlv Vm Vlv)
    as [Hat Hover].
  destruct (observed_dense observation So) as [Sobs Eobs].
  split.
  - intros Hnone. rewrite cll_unfold. unfold output_log_prob.
    rewrite Hnone, Hdist, Hat.
    destruct (@log_prob_value_lacking F _ _ (read m (cells s))
                (read lv (cells s)) (observed observation) B 1 [N]
                Sm Slv Sobs (or_introl eq_refl)) as (t & Et & St & Vt).
    rewrite Et. cbn [rbind].
    destruct (reduce_log_prob t averaged) as (r & Er & Tr);
      [unfold rank; rewrite St; cbn; lia|].
    exists r. split; [exact Er|]. cbv zeta.
    apply averaged_eq with (t := t) (B := B);
      [cbn [shape reduced]; now rewrite St | exact Tr |].
    apply reduced_eq; [unfold rank; rewrite St; cbn; lia|].
    split.
    + cbn [shape per_sample]. now rewrite St, So.
    + rewrite St. intros idx Hin.
      inversion Hin as [|i B' r1 s1 Hi H1]; subst.
      inversion H1 as [|k S' r2 s2 Hk H2]; subst.
      inversion H2 as [|j N' r3 s3 Hj H3]; subst.
      apply in_bounds_nil in H3. subst r3.
      rewrite (Vt i k [j] Hin), Eobs. reflexivity.
  - intros width Hsome. rewrite cll_unfold. unfold output_log_prob.
    rewrite Hsome. cbn [py_add_r rbind]. rewrite Hdist, Hover.
    unfold log_mass_value.
    destruct (@cdf_value_dense F _ _ (read m (cells s)) (read lv (cells s))
                (t_map (fun y => fadd y width) (observed observation)) B 1 N
                Sm Slv Sobs) as (chi & Ehi & Shi & Vhi).
    destruct (@cdf_value_dense F _ _ (read m (cells s)) (read lv (cells s))
                (observed observation) B 1 N Sm Slv Sobs)
      as (clo & Elo & Slo & Vlo).
    rewrite Ehi, Elo. cbn [rbind].
    rewrite (t_binop_same fsub chi clo Shi Slo). cbn [rbind].
    match goal with
    | |- context [rbind (sum_spatial (rank ?T) ?T) _] => set (t := T)
    end.
    destruct (reduce_log_prob t averaged) as (r & Er & Tr);
      [unfold rank; cbn; lia|].
    exists r. split; [exact Er|]. cbv zeta.
    apply averaged_eq with (t := t) (B := B); [reflexivity | exact Tr |].
    apply reduced_eq; [unfold rank; cbn; lia|].
    split.
    + cbn [shape per_sample t t_map]. now rewrite So.
    + cbn [shape t t_map]. intros idx Hin.
      inversion Hin as [|i B' r1 s1 Hi H1]; subst.
      inversion H1 as [|k S' r2 s2 Hk H2]; subst.
      inversion H2 as [|j N' r3 s3 Hj H3]; subst.
      apply in_bounds_nil in H3. subst r3.
      cbn [entry t t_map per_sample]. rewrite (bindex_same Hin).
      rewrite (Vhi i k j Hi Hk Hj), (Vlo i k j Hi Hk Hj).
      cbn [entry t_map]. rewrite Eobs. reflexivity.
Qed.

End NormalOutput.

(** A model without latent levels whose output distribution is the
    standard normal distribution, with or without an interval. *)
Definition standard_output_model (interval : option (pynum (F := R)))
  : Model (F := R) :=
  {| latent_levels := [];
     output_dist := normal_distribution noise_const standard_normal;
     output_interval := interval |}.

Lemma cll_normal_output_witness :
  exists r,
    conditional_log_likelihoods (standard_output_model None) (full [1; 1] 0%R)
                                true = Ok r
    /\ tensor_eq r
         (let lp := per_sample log_density (full [1; 1] 0%R)
                               (read (mkH 2 []) (cells standard_normal))
                               (read (mkH 3 []) (cells standard_normal)) in
          batch_mean (reduced lp)).
Proof.
  apply (proj1 (@cll_normal_output R _ _ noise_const (standard_output_model None)
                  standard_normal (mkH 2 []) (mkH 3 []) (full [1; 1] 0%R) true
                  1 1 eq_refl eq_refl ltac:(simpl; lia) ltac:(simpl; lia)
                  eq_refl eq_refl eq_refl eq_refl)).
  reflexivity.
Defined.
